(** * The B0x price sampler and mined-block scanner, embedded in Rocq

    The Python sources under [graphing/] are embedded function by
    function:

    - [findPricesAndTimestamps_BWORK.py] (and the copies of its decoding
      helpers in [findPricesAndTimestamps.py]) in module [Prices];
    - the rest of [findPricesAndTimestamps.py] in module [Sampler];
    - [pythonMinedBlockGetter.py] in module [Fetcher].

    Python integers are [Z]; a Python [float] is the rational it denotes,
    every operation rounding as binary64 does (module [Float64]); a Python
    exception is the [Raise] branch of [result]; remote calls are answered
    by an explicit oracle and leave a trace. *)

From Stdlib Require Import ZArith Lia Bool Strings.Byte String Ascii.
From Stdlib Require Import QArith Qreduction Qround List Sorted.
Import ListNotations.

Local Open Scope Z_scope.

(** ** Python prelude *)

Module Py.

(** The exceptions the embedded code can raise.  [DateRangeError] stands
    for what [datetime.fromtimestamp] raises outside the years 1..9999
    (a [ValueError], [OverflowError] or [OSError] by magnitude), [RpcError]
    for any failure of a remote call, and [RuntimeError] carries the two
    values its message interpolates. *)
Inductive exn : Type :=
| IndexError
| ValueError
| OverflowError
| ZeroDivisionError
| DateRangeError
| RpcError
| RuntimeError (slot : string) (retries : Z).

Inductive result (A : Type) : Type :=
| Ok (a : A)
| Raise (e : exn).
Arguments Ok {A} a.
Arguments Raise {A} e.

Definition bind {A B : Type} (m : result A) (k : A -> result B) : result B :=
  match m with
  | Ok a => k a
  | Raise e => Raise e
  end.

Definition of_option {A : Type} (e : exn) (o : option A) : result A :=
  match o with
  | Some a => Ok a
  | None => Raise e
  end.

(** [l.insert(pos, x)] for [0 <= pos]: past the end it appends. *)
Definition list_insert {A : Type} (pos : nat) (x : A) (l : list A) : list A :=
  firstn pos l ++ x :: skipn pos l.

(** [l.pop(0)], keeping the shortened list; the popped value is unused in
    the embedded code. *)
Definition pop0 {A : Type} (l : list A) : result (list A) :=
  match l with
  | [] => Raise IndexError
  | _ :: l' => Ok l'
  end.

(** [l[i]] for [0 <= i]. *)
Definition getitem {A : Type} (l : list A) (i : nat) : result A :=
  of_option IndexError (nth_error l i).

(** [int.from_bytes(data, "big")]. *)
Definition int_from_bytes_big (data : list byte) : Z :=
  fold_left (fun acc b => acc * 256 + Z.of_N (Byte.to_N b)) data 0.

(** What a run leaves behind at the boundary of the process: the remote
    reads it issued and the sleeps it took, in order. *)
Inductive effect : Type :=
| GetStorageAt (address slot : string) (block : Z)
| Sleep (seconds : Z).

Definition is_remote_call (e : effect) : bool :=
  match e with
  | GetStorageAt _ _ _ => true
  | Sleep _ => false
  end.

Definition remote_calls (trace : list effect) : nat :=
  length (filter is_remote_call trace).

(** [time.sleep(seconds)] for an [int] argument, up to the point where
    the process starts to sleep.  CPython first converts the argument to
    a signed 64-bit count of nanoseconds, which raises [OverflowError]
    for more than 9223372036 seconds on either side of zero, and then
    refuses a negative length with [ValueError].  What the operating
    system does with a length it is handed is not part of this
    function: the theorems about sleeps that return are stated for
    lengths of at most 4294967 seconds, which every platform accepts. *)
Definition time_sleep (seconds : Z) : result unit :=
  if (seconds <? -9223372036) || (9223372036 <? seconds) then
    Raise OverflowError
  else if seconds <? 0 then Raise ValueError
  else Ok tt.

End Py.

Import Py.

Declare Scope py_scope.
Delimit Scope py_scope with py.
Notation "x <- m ;; k" := (bind m (fun x => k))
  (at level 61, m at next level, right associativity) : py_scope.
Notation "' p <- m ;; k" := (bind m (fun x => match x with p => k end))
  (at level 61, p pattern, m at next level, right associativity) : py_scope.
Local Open Scope py_scope.

(** ** Python floats

    A finite binary64 value is the rational it denotes.  Every operation
    computes the exact rational result and rounds it to the nearest
    binary64 value, ties to even, as IEEE 754 division and CPython's
    correctly rounded [int / int] and [float(int)] do. *)

Module Float64.

Inductive float : Type :=
| Finite (value : Q)
| Infinity (negative : bool).

(** [n / d] rounded to the nearest integer, ties to the even one, for
    [0 < d]. *)
Definition rne_div (n d : Z) : Z :=
  let k := n / d in
  let r := n mod d in
  match 2 * r ?= d with
  | Lt => k
  | Gt => k + 1
  | Eq => if Z.even k then k else k + 1
  end.

(** [floor (log2 (n / d))] for [0 < n] and [0 < d]. *)
Definition exponent (n d : Z) : Z :=
  let e0 := Z.log2 n - Z.log2 d in
  if (if 0 <=? e0 then d * 2 ^ e0 <=? n else d <=? n * 2 ^ (- e0))
  then e0 else e0 - 1.

(** The binary64 nearest to [n / d], for [0 < n] and [0 < d], as an
    integer significand [m <= 2^53] and an exponent [q >= -1074]: the
    value is [m * 2^q].  Below [2^-1022] the exponent stays at [-1074]
    (gradual underflow). *)
Definition round_pos (n d : Z) : Z * Z :=
  let q := Z.max (exponent n d - 52) (-1074) in
  let m :=
    if 0 <=? q then rne_div n (d * 2 ^ q) else rne_div (n * 2 ^ (- q)) d in
  (m, q).

(** [m * 2^q]. *)
Definition scale (m q : Z) : Q :=
  if 0 <=? q then inject_Z (m * 2 ^ q)
  else Qred (m # Z.to_pos (2 ^ (- q))).

(** Whether [m * 2^q] has left the binary64 range, that is reached
    [2^1024]. *)
Definition overflows (m q : Z) : bool :=
  (971 <? q) || ((q =? 971) && (2 ^ 53 <=? m)).

Definition round (x : Q) : float :=
  match Qnum x with
  | Z0 => Finite 0
  | Zpos n =>
      let '(m, q) := round_pos (Zpos n) (Zpos (Qden x)) in
      if overflows m q then Infinity false else Finite (scale m q)
  | Zneg n =>
      let '(m, q) := round_pos (Zpos n) (Zpos (Qden x)) in
      if overflows m q then Infinity true else Finite (- scale m q)
  end.

Definition finite (x : float) : result Q :=
  match x with
  | Finite v => Ok v
  | Infinity _ => Raise OverflowError
  end.

(** [a / b] on two [int]s. *)
Definition int_true_div (a b : Z) : result Q :=
  match b with
  | Z0 => Raise ZeroDivisionError
  | Zpos d => finite (round (a # d))
  | Zneg d => finite (round (- a # d))
  end.

(** [float(a)], also the conversion of an [int] operand that meets a
    [float]. *)
Definition float_of_int (a : Z) : result Q :=
  finite (round (inject_Z a)).

(** [x / y] on two finite [float]s: a quotient beyond the range is
    [inf], not an exception. *)
Definition float_div (x y : Q) : result float :=
  if Qeq_bool y 0 then Raise ZeroDivisionError
  else Ok (round (x / y)).

(** [int(x)]: truncation toward zero. *)
Definition int_of_float (x : float) : result Z :=
  match x with
  | Finite v => Ok (Z.quot (Qnum v) (Zpos (Qden v)))
  | Infinity _ => Raise OverflowError
  end.

(** A [float] as an operand of a product, where [inf * 0] is [nan]. *)
Inductive pyfloat : Type :=
| Num (x : float)
| NaN.

Definition infinity_times (negative : bool) (v : Q) : pyfloat :=
  match Qnum v with
  | Z0 => NaN
  | Zpos _ => Num (Infinity negative)
  | Zneg _ => Num (Infinity (negb negative))
  end.

(** [x * y] on two [float]s that are not [nan]. *)
Definition float_mul (x y : float) : pyfloat :=
  match x, y with
  | Finite a, Finite b => Num (round (a * b))
  | Infinity s, Finite b => infinity_times s b
  | Finite a, Infinity s => infinity_times s a
  | Infinity s, Infinity t => Num (Infinity (xorb s t))
  end.

(** [x / y] for a [float] [x] that may be [inf] or [nan] and a finite
    [y]: division by zero raises whatever [x] is. *)
Definition pyfloat_div (x : pyfloat) (y : Q) : result pyfloat :=
  if Qeq_bool y 0 then Raise ZeroDivisionError
  else
    match x with
    | NaN => Ok NaN
    | Num (Infinity s) =>
        Ok (Num (Infinity (match Qnum y with Zneg _ => negb s | _ => s end)))
    | Num (Finite a) => Ok (Num (round (a / y)))
    end.

End Float64.
(** ** graphing/findPricesAndTimestamps_BWORK.py *)

Module Prices.

Definition Q192 : Z := 2 ^ 192.

Definition MAX_DATA_POINTS : Z := 4 * 30.
Definition TARGET_HOURS : list Z := [0; 6; 12; 18].

(** [datetime.fromtimestamp(timestamp, tz=timezone.utc)], reduced to the
    [hour] and [minute] attributes the code reads.  The call raises for a
    timestamp outside the years 1..9999. *)
Definition datetime_min : Z := -62135596800.
Definition datetime_max : Z := 253402300799.

Definition utc_hour_minute (timestamp : Z) : result (Z * Z) :=
  if (datetime_min <=? timestamp) && (timestamp <=? datetime_max)
  then Ok ((timestamp mod 86400) / 3600, (timestamp mod 3600) / 60)
  else Raise DateRangeError.

(** [is_target_time(timestamp, tolerance_minutes=30)]: the [for] loop
    with its early [return True] is [existsb]. *)
Definition is_target_time (timestamp tolerance_minutes : Z) : result bool :=
  ' (hour, minute) <- utc_hour_minute timestamp ;;
  Ok (existsb
        (fun target_hour =>
           let minutes_from_target :=
             Z.abs ((hour * 60 + minute) - target_hour * 60) in
           let minutes_from_target :=
             Z.min minutes_from_target (24 * 60 - minutes_from_target) in
           minutes_from_target <=? tolerance_minutes)
        TARGET_HOURS).

(** The distance in seconds, around the clock, between the UTC time of
    day of [timestamp] and the anchor [target_hour]:00:00.  It is the
    measure in which the tolerance window is described, not a function of
    the source. *)
Definition seconds_from_anchor (timestamp target_hour : Z) : Z :=
  let d := Z.abs (timestamp mod 86400 - target_hour * 3600) in
  Z.min d (86400 - d).

(** The seconds elapsed, modulo one day, since the latest
    [target_hour]:00:00 UTC. *)
Definition seconds_since_anchor (timestamp target_hour : Z) : Z :=
  (timestamp mod 86400 - target_hour * 3600) mod 86400.

Section Store.

(** Prices are floats that the store never inspects. *)
Context {price : Type}.

Definition sample : Type := Z * Z * price.
Definition store : Type := list Z * list Z * list price.

Definition sample_timestamp (s : sample) : Z := fst (fst s).
Definition sample_block (s : sample) : Z := snd (fst s).
Definition sample_price (s : sample) : price := snd s.

(** The position loop shared by [clean_data_keep_targets_and_current],
    [update_current_price] and the target branch of [main]:
    [insert_pos] is the first index whose timestamp exceeds [x], or the
    length when there is none. *)
Fixpoint insert_pos_after (x : Z) (timestamps : list Z) : nat :=
  match timestamps with
  | [] => 0%nat
  | ts :: rest => if x <? ts then 0%nat else S (insert_pos_after x rest)
  end.

(** The position loop of [collect_historical_data]: one past the last
    leading timestamp below [x]. *)
Fixpoint insert_pos_history (x : Z) (timestamps : list Z) : nat :=
  match timestamps with
  | [] => 0%nat
  | ts :: rest => if x >? ts then S (insert_pos_history x rest) else 0%nat
  end.

(** [non_target_data.sort(key=lambda x: x[0])]: Python's sort is
    stable, as is this insertion sort. *)
Fixpoint sort_insert (s : sample) (sorted : list sample) : list sample :=
  match sorted with
  | [] => [s]
  | s' :: rest =>
      if sample_timestamp s <=? sample_timestamp s' then s :: sorted
      else s' :: sort_insert s rest
  end.

Fixpoint sort_by_timestamp (l : list sample) : list sample :=
  match l with
  | [] => []
  | s :: rest => sort_insert s (sort_by_timestamp rest)
  end.

(** The partition loop of [clean_data_keep_targets_and_current], from
    index [i] on; [rest] is [timestamps[i:]]. *)
Fixpoint partition_loop (rest : list Z) (i : nat)
    (blocks : list Z) (prices : list price)
    (target_data non_target_data : list sample)
  : result (list sample * list sample) :=
  match rest with
  | [] => Ok (target_data, non_target_data)
  | ts :: rest' =>
      target <- is_target_time ts 30 ;;
      b <- getitem blocks i ;;
      p <- getitem prices i ;;
      if (target : bool)
      then partition_loop rest' (S i) blocks prices
             (target_data ++ [(ts, b, p)]) non_target_data
      else partition_loop rest' (S i) blocks prices
             target_data (non_target_data ++ [(ts, b, p)])
  end.

Definition clean_data_keep_targets_and_current
    (timestamps blocks : list Z) (prices : list price) : result store :=
  match timestamps with
  | [] => Ok (timestamps, blocks, prices)
  | _ :: _ =>
      ' (target_data, non_target_data) <-
        partition_loop timestamps 0 blocks prices [] [] ;;
      let cleaned_timestamps := map sample_timestamp target_data in
      let cleaned_blocks := map sample_block target_data in
      let cleaned_prices := map sample_price target_data in
      match rev (sort_by_timestamp non_target_data) with
      | [] => Ok (cleaned_timestamps, cleaned_blocks, cleaned_prices)
      | most_recent :: _ =>
          let insert_pos :=
            insert_pos_after (sample_timestamp most_recent)
              cleaned_timestamps in
          Ok (list_insert insert_pos (sample_timestamp most_recent)
                cleaned_timestamps,
              list_insert insert_pos (sample_block most_recent)
                cleaned_blocks,
              list_insert insert_pos (sample_price most_recent)
                cleaned_prices)
      end
  end.

(** The filter loop of [update_current_price]: [blocks[i]] and
    [prices[i]] are read only at target timestamps. *)
Fixpoint keep_targets_loop (rest : list Z) (i : nat)
    (blocks : list Z) (prices : list price)
    (target_timestamps target_blocks : list Z) (target_prices : list price)
  : result store :=
  match rest with
  | [] => Ok (target_timestamps, target_blocks, target_prices)
  | ts :: rest' =>
      target <- is_target_time ts 30 ;;
      if (target : bool) then
        b <- getitem blocks i ;;
        p <- getitem prices i ;;
        keep_targets_loop rest' (S i) blocks prices
          (target_timestamps ++ [ts]) (target_blocks ++ [b])
          (target_prices ++ [p])
      else
        keep_targets_loop rest' (S i) blocks prices
          target_timestamps target_blocks target_prices
  end.

Definition update_current_price
    (timestamps blocks : list Z) (prices : list price)
    (current_timestamp current_block : Z) (current_price : price)
  : result store :=
  ' (target_timestamps, target_blocks, target_prices) <-
    keep_targets_loop timestamps 0 blocks prices [] [] [] ;;
  let insert_pos := insert_pos_after current_timestamp target_timestamps in
  Ok (list_insert insert_pos current_timestamp target_timestamps,
      list_insert insert_pos current_block target_blocks,
      list_insert insert_pos current_price target_prices).

(** [main], lines 475-483: the new target point goes before the first
    later timestamp. *)
Definition insert_target_point
    (timestamps blocks : list Z) (prices : list price)
    (current_timestamp current_block : Z) (current_price : price) : store :=
  let insert_pos := insert_pos_after current_timestamp timestamps in
  (list_insert insert_pos current_timestamp timestamps,
   list_insert insert_pos current_block blocks,
   list_insert insert_pos current_price prices).

(** [main], lines 486-489:
    [while len(ArrayOfTimestamps) > MAX_DATA_POINTS: ... pop(0)]. *)
Fixpoint evict_oldest (max_points : Z)
    (timestamps blocks : list Z) (prices : list price) : result store :=
  if Z.of_nat (length timestamps) >? max_points then
    match timestamps with
    | [] => Raise IndexError
    | _ :: timestamps' =>
        blocks' <- pop0 blocks ;;
        prices' <- pop0 prices ;;
        evict_oldest max_points timestamps' blocks' prices'
    end
  else Ok (timestamps, blocks, prices).

(** [collect_historical_data], lines 350-359: the insertion of one
    back-filled point. *)
Definition insert_historical_point
    (timestamps blocks : list Z) (prices : list price)
    (actual_timestamp estimated_block : Z) (p : price) : store :=
  let insert_pos := insert_pos_history actual_timestamp timestamps in
  (list_insert insert_pos actual_timestamp timestamps,
   list_insert insert_pos estimated_block blocks,
   list_insert insert_pos p prices).

(** One pass of the monitoring loop of [main] (lines 470-501) once the
    head block and its price are known; saving is left out. *)
Definition monitor_tick
    (timestamps blocks : list Z) (prices : list price)
    (current_timestamp current_block : Z) (current_price : price)
  : result store :=
  is_current_target <- is_target_time current_timestamp 30 ;;
  if (is_current_target : bool) then
    let '(timestamps, blocks, prices) :=
      insert_target_point timestamps blocks prices
        current_timestamp current_block current_price in
    evict_oldest MAX_DATA_POINTS timestamps blocks prices
  else
    update_current_price timestamps blocks prices
      current_timestamp current_block current_price.

End Store.

Section Retry.

(** [w3.eth.getStorageAt(address, slot, block_identifier=block)] as the
    node answers it on each successive attempt of one call of
    [get_storage_with_retry]: the attempt number comes first. *)
Variable getStorageAt : nat -> string -> string -> Z -> result (list byte).

Variables (address slot : string) (block : Z).

(** The [while attempt < retries] loop from [attempt] on, with
    [remaining = retries - attempt] iterations left.  Everything the
    [try] block does after the read succeeds on any bytes, so the read
    alone decides between [return] and [except].  The handler calls
    [time.sleep(delay)] outside any [try]: when that call raises, its
    error leaves the function after the one read, and the loop is not
    entered again. *)
Fixpoint retry_loop (retries delay : Z) (remaining attempt : nat)
  : result Z * list effect :=
  match remaining with
  | O => (Raise (RuntimeError slot retries), [])
  | S remaining' =>
      match getStorageAt attempt address slot block with
      | Ok data =>
          (Ok (int_from_bytes_big data), [GetStorageAt address slot block])
      | Raise _ =>
          match time_sleep delay with
          | Ok _ =>
              let '(r, trace) :=
                retry_loop retries delay remaining' (S attempt) in
              (r, GetStorageAt address slot block :: Sleep delay :: trace)
          | Raise e => (Raise e, [GetStorageAt address slot block])
          end
      end
  end.

(** [get_storage_with_retry(address, slot, block, retries=5, delay=2)]. *)
Definition get_storage_with_retry (retries delay : Z)
  : result Z * list effect :=
  retry_loop retries delay (Z.to_nat retries) 0.

End Retry.

(** [unpack_slot0(packed)]: the four bit fields of a pool's slot 0. *)
Definition unpack_slot0 (packed : Z) : Z * Z * Z * Z :=
  let sqrtPriceX96 := Z.land packed (Z.shiftl 1 160 - 1) in
  let tick := Z.land (Z.shiftr packed 160) (Z.shiftl 1 24 - 1) in
  let tick :=
    if Z.eqb (Z.land tick (Z.shiftl 1 23)) 0 then tick
    else tick - Z.shiftl 1 24 in
  let protocolFee := Z.land (Z.shiftr packed 184) (Z.shiftl 1 24 - 1) in
  let lpFee := Z.land (Z.shiftr packed 208) (Z.shiftl 1 24 - 1) in
  (sqrtPriceX96, tick, protocolFee, lpFee).

(** [sqrtPriceX96_to_price(sq)]: [(sq ** 2) / Q192], a true division of
    two [int]s. *)
Definition sqrtPriceX96_to_price (sq : Z) : result Q :=
  Float64.int_true_div (sq ^ 2) Q192.

(** [int(time_diff / seconds_per_block)]: the [int] operand is converted,
    the quotient rounded, and the result truncated. *)
Definition blocks_between (time_diff : Z) (seconds_per_block : Q) : result Z :=
  x <- Float64.float_of_int time_diff ;;
  quotient <- Float64.float_div x seconds_per_block ;;
  Float64.int_of_float quotient.

(** The rate chosen by the [if]/[else] of
    [estimate_block_from_timestamp]; the measured branch also formats
    [actual_time_diff/3600] for its message. *)
Definition seconds_per_block (actual_time_diff actual_block_diff : Z)
  : result Q :=
  if (actual_block_diff >? 0) && (actual_time_diff >? 0) then
    rate <- Float64.int_true_div actual_time_diff actual_block_diff ;;
    _ <- Float64.int_true_div actual_time_diff 3600 ;;
    Ok rate
  else Ok 2%Q.

(** The [try] block of [estimate_block_from_timestamp]. *)
Definition estimate_block_try (getBlock : Z -> result Z)
    (target_timestamp current_block current_timestamp : Z) : result Z :=
  half_day <- Float64.int_true_div (24 * 60 * 60) 2 ;;
  blocks_24h_ago_estimate <- Float64.int_of_float (Float64.Finite half_day) ;;
  let sample_block_24h_ago :=
    Z.max 1 (current_block - blocks_24h_ago_estimate) in
  sample_timestamp_24h_ago <- getBlock sample_block_24h_ago ;;
  let actual_time_diff := current_timestamp - sample_timestamp_24h_ago in
  let actual_block_diff := current_block - sample_block_24h_ago in
  rate <- seconds_per_block actual_time_diff actual_block_diff ;;
  let time_diff := current_timestamp - target_timestamp in
  blocks_diff <- blocks_between time_diff rate ;;
  let estimated_block := current_block - blocks_diff in
  Ok (Z.max 1 estimated_block).

(** The [except] block: two seconds per block. *)
Definition estimate_block_except
    (target_timestamp current_block current_timestamp : Z) : result Z :=
  let time_diff := current_timestamp - target_timestamp in
  half <- Float64.int_true_div time_diff 2 ;;
  blocks_diff <- Float64.int_of_float (Float64.Finite half) ;;
  let estimated_block := current_block - blocks_diff in
  Ok (Z.max 1 estimated_block).

(** [estimate_block_from_timestamp(target_timestamp, current_block,
    current_timestamp)]; [getBlock] answers
    [w3.eth.getBlock(n)["timestamp"]]. *)
Definition estimate_block_from_timestamp (getBlock : Z -> result Z)
    (target_timestamp current_block current_timestamp : Z) : result Z :=
  match estimate_block_try getBlock target_timestamp current_block
          current_timestamp with
  | Ok estimated_block => Ok estimated_block
  | Raise _ =>
      estimate_block_except target_timestamp current_block current_timestamp
  end.

(** The estimate as the specification words it, in exact arithmetic: the
    rate falls back to 2 when the block difference is non-positive, and
    the quotient is floored. *)
Definition specified_estimate
    (target_timestamp current_block current_timestamp
     reference_block reference_timestamp : Z) : Z :=
  let rate : Q :=
    if current_block - reference_block <=? 0 then 2%Q
    else (inject_Z (current_timestamp - reference_timestamp)
          / inject_Z (current_block - reference_block))%Q in
  Z.max 1 (current_block
           - Qfloor (inject_Z (current_timestamp - target_timestamp) / rate)).

(** The packing of section 3 of the specification, the inverse that the
    round-trip property speaks of: [sqrtPriceX96] in bits 0..159, the
    tick as a 24-bit two's-complement field in bits 160..183, the
    protocol fee in bits 184..207 and the LP fee in bits 208..231.  The
    repository only decodes; this definition follows the specification. *)
Definition pack_slot0 (sqrtPriceX96 tick protocolFee lpFee : Z) : Z :=
  Z.lor sqrtPriceX96
    (Z.lor (Z.shiftl (Z.land tick (Z.shiftl 1 24 - 1)) 160)
       (Z.lor (Z.shiftl protocolFee 184) (Z.shiftl lpFee 208))).

(** [getSlot0(block)]: the BWORK/WETH pool is read and priced, then the
    WETH/USD pool, and only then is the quotient formed.  The reads keep
    the defaults [retries=5, delay=2]. *)
Definition pool_manager : string :=
  "0x498581fF718922c3f8e6A244956aF099B2652b2b".
Definition bwork_weth_slot : string :=
  "0xd66bf39be2869094cf8d2d31edffab51dc8326eadf3c7611d397d156993996da".
Definition weth_usd_slot : string :=
  "0xe570f6e770bf85faa3d1dbee2fa168b56036a048a7939edbcd02d7ebddf3f948".

(** The arithmetic of [getSlot0] on the two words read:
    [price2 = sqrtPriceX96_to_price(sq2) * 10**12] and
    [actual_price = price2 * (1/price)]. *)
Definition actual_price (price : Q) (packed2 : Z) : result Float64.pyfloat :=
  let '(sqrtPriceX96, _, _, _) := unpack_slot0 packed2 in
  p <- sqrtPriceX96_to_price sqrtPriceX96 ;;
  scale_usd <- Float64.float_of_int (10 ^ 12) ;;
  let price2 := Float64.round (p * scale_usd) in
  one <- Float64.float_of_int 1 ;;
  inverse <- Float64.float_div one price ;;
  Ok (Float64.float_mul price2 inverse).

Definition getSlot0
    (getStorageAt : nat -> string -> string -> Z -> result (list byte))
    (block : Z) : result Float64.pyfloat * list effect :=
  let '(packed, trace1) :=
    get_storage_with_retry getStorageAt pool_manager bwork_weth_slot block 5 2 in
  match packed with
  | Raise e => (Raise e, trace1)
  | Ok packed =>
      let '(sqrtPriceX96, _, _, _) := unpack_slot0 packed in
      match sqrtPriceX96_to_price sqrtPriceX96 with
      | Raise e => (Raise e, trace1)
      | Ok price =>
          let '(packed2, trace2) :=
            get_storage_with_retry getStorageAt pool_manager weth_usd_slot
              block 5 2 in
          (packed2 <- packed2 ;; actual_price price packed2,
           trace1 ++ trace2)
      end
  end.

(** [get_target_timestamps_for_day(day_timestamp)]: the UTC midnight of
    the day, moved to each target hour, as epoch seconds. *)
Definition get_target_timestamps_for_day (day_timestamp : Z)
  : result (list Z) :=
  if (datetime_min <=? day_timestamp) && (day_timestamp <=? datetime_max)
  then
    let start_of_day := day_timestamp - day_timestamp mod 86400 in
    Ok (map (fun hour => start_of_day + hour * 3600) TARGET_HOURS)
  else Raise DateRangeError.

(** The set [existing_target_times], as the list of its members. *)
Fixpoint existing_target_times (timestamps : list Z) : result (list Z) :=
  match timestamps with
  | [] => Ok []
  | ts :: rest =>
      target <- is_target_time ts 30 ;;
      existing <- existing_target_times rest ;;
      Ok (if (target : bool) then ts :: existing else existing)
  end.

(** The test that lets [get_missing_timestamps] append [target_ts]. *)
Definition is_missing (existing : list Z) (current_timestamp target_ts : Z)
  : bool :=
  (target_ts <? current_timestamp)
  && negb (existsb (Z.eqb target_ts) existing)
  && negb (existsb
             (fun existing_ts => Z.abs (existing_ts - target_ts) <? 30 * 60)
             existing).

Fixpoint missing_loop (existing : list Z) (current_timestamp : Z)
    (days : list Z) (missing_timestamps : list Z) : result (list Z) :=
  match days with
  | [] => Ok missing_timestamps
  | days_back :: days' =>
      let day_timestamp := current_timestamp - days_back * 24 * 60 * 60 in
      target_timestamps <- get_target_timestamps_for_day day_timestamp ;;
      missing_loop existing current_timestamp days'
        (missing_timestamps
         ++ filter (is_missing existing current_timestamp) target_timestamps)
  end.

(** [range(n)]. *)
Definition range (n : Z) : list Z := map Z.of_nat (seq 0 (Z.to_nat n)).

(** [missing_timestamps.sort()] on [int]s. *)
Fixpoint sort_insert_int (x : Z) (sorted : list Z) : list Z :=
  match sorted with
  | [] => [x]
  | y :: rest => if x <=? y then x :: sorted else y :: sort_insert_int x rest
  end.

Fixpoint sort_ints (l : list Z) : list Z :=
  match l with
  | [] => []
  | x :: rest => sort_insert_int x (sort_ints rest)
  end.

(** [get_missing_timestamps(timestamps, current_timestamp,
    target_days=30)]. *)
Definition get_missing_timestamps (timestamps : list Z)
    (current_timestamp target_days : Z) : result (list Z) :=
  existing <- existing_target_times timestamps ;;
  missing_timestamps <-
    missing_loop existing current_timestamp (range target_days) [] ;;
  Ok (sort_ints missing_timestamps).

(** [get_next_target_time(current_timestamp)]. *)
Definition get_next_target_time (current_timestamp : Z) : result Z :=
  _ <- utc_hour_minute current_timestamp ;;
  today_targets <- get_target_timestamps_for_day current_timestamp ;;
  match find (fun target_ts => target_ts >? current_timestamp) today_targets with
  | Some target_ts => Ok target_ts
  | None =>
      let next_day := current_timestamp + 24 * 60 * 60 in
      next_day_targets <- get_target_timestamps_for_day next_day ;;
      getitem next_day_targets 0
  end.

Section Collect.

Variable getStorageAt : nat -> string -> string -> Z -> result (list byte).

(** [w3.eth.getBlock(n)["timestamp"]]. *)
Variable getBlock : Z -> result Z.

(** The fine-tuning loop of [collect_historical_data], lines 329-337,
    with [remaining = 10 - attempts] corrections left. *)
Fixpoint refine_block (remaining : nat)
    (target_timestamp estimated_block actual_timestamp : Z)
  : result (Z * Z) :=
  if Z.abs (actual_timestamp - target_timestamp) >? 30 * 60 then
    match remaining with
    | O => Ok (estimated_block, actual_timestamp)
    | S remaining' =>
        estimated_block <-
          (if actual_timestamp <? target_timestamp then
             half <- Float64.int_true_div
                       (target_timestamp - actual_timestamp) 2 ;;
             step <- Float64.int_of_float (Float64.Finite half) ;;
             Ok (estimated_block + step)
           else
             half <- Float64.int_true_div
                       (actual_timestamp - target_timestamp) 2 ;;
             step <- Float64.int_of_float (Float64.Finite half) ;;
             Ok (estimated_block - step)) ;;
        actual_timestamp <- getBlock estimated_block ;;
        refine_block remaining' target_timestamp estimated_block
          actual_timestamp
    end
  else Ok (estimated_block, actual_timestamp).

(** The [try] block of one pass of the loop of
    [collect_historical_data], up to the insertion; the periodic
    [save_data] and the sleep follow it and cannot fail. *)
Definition collect_point (current_block current_timestamp : Z)
    (timestamps blocks : list Z) (prices : list Float64.pyfloat)
    (target_timestamp : Z) : result (@store Float64.pyfloat) :=
  estimated_block <-
    estimate_block_from_timestamp getBlock target_timestamp current_block
      current_timestamp ;;
  actual_timestamp <- getBlock estimated_block ;;
  ' (estimated_block, actual_timestamp) <-
    refine_block 10 target_timestamp estimated_block actual_timestamp ;;
  _ <- utc_hour_minute target_timestamp ;;
  _ <- utc_hour_minute actual_timestamp ;;
  price <- fst (getSlot0 getStorageAt estimated_block) ;;
  Ok (insert_historical_point timestamps blocks prices
        actual_timestamp estimated_block price).

(** The loop over the missing timestamps: a pass that raises is
    skipped. *)
Fixpoint collect_loop (current_block current_timestamp : Z)
    (missing_timestamps : list Z) (s : @store Float64.pyfloat)
  : @store Float64.pyfloat :=
  match missing_timestamps with
  | [] => s
  | target_timestamp :: rest =>
      let '(timestamps, blocks, prices) := s in
      collect_loop current_block current_timestamp rest
        (match collect_point current_block current_timestamp
                 timestamps blocks prices target_timestamp with
         | Ok s' => s'
         | Raise _ => s
         end)
  end.

(** [collect_historical_data(timestamps, blocks, prices, target_days)];
    [head] is what [get_current_block_and_timestamp] returned, [None]
    for its [(None, None)]. *)
Definition collect_historical_data (head : option (Z * Z))
    (timestamps blocks : list Z) (prices : list Float64.pyfloat)
    (target_days : Z) : result (@store Float64.pyfloat) :=
  match head with
  | None => Ok (timestamps, blocks, prices)
  | Some (current_block, current_timestamp) =>
      missing_timestamps <-
        get_missing_timestamps timestamps current_timestamp target_days ;;
      Ok (collect_loop current_block current_timestamp missing_timestamps
            (timestamps, blocks, prices))
  end.

End Collect.

End Prices.

(** ** graphing/findPricesAndTimestamps.py

    The script shares [get_storage_with_retry], [unpack_slot0] and
    [sqrtPriceX96_to_price] with the sampler above, word for word; its
    [getSlot0] forms the quotient differently, and its main block walks
    back from a fixed block. *)

Module Sampler.

(** [price2 * 1/price], that is [(price2 * 1) / price]. *)
Definition actual_price (price : Q) (packed2 : Z) : result Float64.pyfloat :=
  let '(sqrtPriceX96, _, _, _) := Prices.unpack_slot0 packed2 in
  p <- Prices.sqrtPriceX96_to_price sqrtPriceX96 ;;
  scale_usd <- Float64.float_of_int (10 ^ 12) ;;
  let price2 := Float64.round (p * scale_usd) in
  one <- Float64.float_of_int 1 ;;
  Float64.pyfloat_div (Float64.float_mul price2 (Float64.Finite one)) price.

Definition getSlot0
    (getStorageAt : nat -> string -> string -> Z -> result (list byte))
    (block : Z) : result Float64.pyfloat * list effect :=
  let '(packed, trace1) :=
    Prices.get_storage_with_retry getStorageAt Prices.pool_manager
      Prices.bwork_weth_slot block 5 2 in
  match packed with
  | Raise e => (Raise e, trace1)
  | Ok packed =>
      let '(sqrtPriceX96, _, _, _) := Prices.unpack_slot0 packed in
      match Prices.sqrtPriceX96_to_price sqrtPriceX96 with
      | Raise e => (Raise e, trace1)
      | Ok price =>
          let '(packed2, trace2) :=
            Prices.get_storage_with_retry getStorageAt Prices.pool_manager
              Prices.weth_usd_slot block 5 2 in
          (packed2 <- packed2 ;; actual_price price packed2,
           trace1 ++ trace2)
      end
  end.

Definition startBlock : Z := 34582182.
Definition blocksPer30Min : Z := 60 * 15.
Definition max_iterations : Z := 48 * 30.

(** The three lists the main block fills. *)
Record samples : Type := {
  ArrayOfActualPrices : list Float64.pyfloat;
  ArrayOfBlocksSearched : list Z;
  ArrayOfTimestamps : list Z
}.

(** The [while True] loop of the main block from the counter [x] on.  An
    exception ends the script; [None] is a loop still running when the
    fuel is spent. *)
Fixpoint sample_loop (fuel : nat)
    (getStorageAt : nat -> string -> string -> Z -> result (list byte))
    (getBlock : Z -> result Z)
    (startBlock blocksPer30Min max_iterations x : Z) (acc : samples)
  : option (result samples) :=
  match fuel with
  | O => None
  | S fuel' =>
      let targetBlock := startBlock - blocksPer30Min * x in
      match fst (getSlot0 getStorageAt targetBlock) with
      | Raise e => Some (Raise e)
      | Ok price =>
          match getBlock targetBlock with
          | Raise e => Some (Raise e)
          | Ok timestamp =>
              let acc :=
                {| ArrayOfActualPrices := ArrayOfActualPrices acc ++ [price];
                   ArrayOfBlocksSearched :=
                     ArrayOfBlocksSearched acc ++ [targetBlock];
                   ArrayOfTimestamps := ArrayOfTimestamps acc ++ [timestamp] |} in
              let x := x + 1 in
              if x >? max_iterations then Some (Ok acc)
              else sample_loop fuel' getStorageAt getBlock
                     startBlock blocksPer30Min max_iterations x acc
          end
      end
  end.

(** The main block. *)
Definition main (fuel : nat)
    (getStorageAt : nat -> string -> string -> Z -> result (list byte))
    (getBlock : Z -> result Z) : option (result samples) :=
  sample_loop fuel getStorageAt getBlock startBlock blocksPer30Min
    max_iterations 0
    {| ArrayOfActualPrices := []; ArrayOfBlocksSearched := [];
       ArrayOfTimestamps := [] |}.

End Sampler.
(** ** graphing/pythonMinedBlockGetter.py *)

Module Fetcher.

(** A Python [str], character by character. *)
Definition str : Type := list ascii.

(** [s[a:b]] for [0 <= a <= b]. *)
Definition slice (a b : nat) (s : str) : str := firstn (b - a) (skipn a s).

Definition hex_digit (n : N) : ascii :=
  nth (N.to_nat n)
    ["0"; "1"; "2"; "3"; "4"; "5"; "6"; "7";
     "8"; "9"; "a"; "b"; "c"; "d"; "e"; "f"]%char "0"%char.

Definition hex_byte (b : byte) : str :=
  [hex_digit (Byte.to_N b / 16); hex_digit (Byte.to_N b mod 16)].

(** [HexBytes.hex()]: the bytes in lowercase hexadecimal behind the
    prefix [0x] that the slices of [process_transaction] count on. *)
Definition hex (bs : list byte) : str :=
  ["0"; "x"]%char ++ flat_map hex_byte bs.

(** The value of a hexadecimal digit, read off its character code:
    [0]-[9], [a]-[f] and [A]-[F]. *)
Definition hex_value (c : ascii) : option Z :=
  let code := Z.of_N (N_of_ascii c) in
  if (48 <=? code) && (code <=? 57) then Some (code - 48)
  else if (97 <=? code) && (code <=? 102) then Some (code - 87)
  else if (65 <=? code) && (code <=? 70) then Some (code - 55)
  else None.

Fixpoint int16_digits (s : str) (acc : Z) : result Z :=
  match s with
  | [] => Ok acc
  | c :: s' =>
      match hex_value c with
      | Some v => int16_digits s' (acc * 16 + v)
      | None => Raise ValueError
      end
  end.

(** [int(s, 16)] on a string of hexadecimal digits, the only strings
    [process_transaction] passes; an empty or foreign string is a
    [ValueError]. *)
Definition int16 (s : str) : result Z :=
  match s with
  | [] => Raise ValueError
  | _ :: _ => int16_digits s 0
  end.

(** The event the node returns for a log entry. *)
Record transaction : Type := {
  transactionHash : list byte;
  blockNumber : Z;
  topics : list (list byte);
  data : list byte
}.

(** The last field of a [mined_blocks] entry: a [float] amount, or the
    [int] 0 of a short payload, or the [int] -1 of a marker. *)
Inductive amount : Type :=
| FloatAmount (value : Q)
| IntAmount (value : Z).

(** [[block_number, tx_hash, miner_address, amount]]. *)
Definition entry : Type := Z * str * str * amount.

Definition entry_block (e : entry) : Z := fst (fst (fst e)).
Definition entry_amount (e : entry) : amount := snd e.

(** The fields of [EthereumBlockFetcher] that the scan mutates. *)
Record fetcher : Type := {
  mined_blocks : list entry;
  previous_challenge : option str
}.

Definition eth_block_start : Z := 30111966.

(** What [last_processed_block.json] may hold. *)
Inductive checkpoint_file : Type :=
| NoFile
| NotJson
| JsonObject (last_block : option Z).

Definition load_last_processed_block (file : checkpoint_file) : Z :=
  match file with
  | NoFile => eth_block_start
  | NotJson => eth_block_start
  | JsonObject (Some last_block) => last_block
  | JsonObject None => eth_block_start
  end.

Definition save_last_processed_block (block_number : Z) : checkpoint_file :=
  JsonObject (Some block_number).

Definition get_miner_address_from_topic (topic : str) : str :=
  let topic :=
    match topic with
    | "0"%char :: "x"%char :: rest => rest
    | _ => topic
    end in
  if (40 <=? length topic)%nat
  then ["0"; "x"]%char ++ skipn (length topic - 40) topic
  else topic.

Definition str_eqb (a b : str) : bool :=
  if list_eq_dec ascii_dec a b then true else false.

(** [process_transaction(transaction)]: every exception is raised before
    the first mutation, so a failed call leaves the fetcher as it was. *)
Definition process_transaction (self : fetcher) (transaction : transaction)
  : result fetcher :=
  let tx_hash := hex (transactionHash transaction) in
  let block_number := blockNumber transaction in
  topic1 <- getitem (topics transaction) 1 ;;
  let miner_address := get_miner_address_from_topic (hex topic1) in
  let data := hex (data transaction) in
  data_amt <-
    (if (66 <=? length data)%nat then
       let data_amt_hex := slice 2 66 data in
       wei <- int16 data_amt_hex ;;
       eth <- Float64.int_true_div wei (10 ^ 18) ;;
       Ok (FloatAmount eth)
     else Ok (IntAmount 0)) ;;
  let self :=
    if (194 <=? length data)%nat then
      let challenger := slice 130 194 data in
      let unchanged :=
        match previous_challenge self with
        | Some previous => str_eqb previous challenger
        | None => false
        end in
      if unchanged then self
      else
        let previous_challenge2 := previous_challenge self in
        match previous_challenge2 with
        | Some _ =>
            let first_block_num :=
              match mined_blocks self with
              | first :: _ => entry_block first
              | [] => block_number
              end in
            let new_block :=
              (first_block_num, tx_hash, miner_address, IntAmount (-1)) in
            {| mined_blocks := new_block :: mined_blocks self;
               previous_challenge := Some challenger |}
        | None =>
            {| mined_blocks := mined_blocks self;
               previous_challenge := Some challenger |}
        end
    else self in
  Ok {| mined_blocks :=
          (block_number, tx_hash, miner_address, data_amt)
          :: mined_blocks self;
        previous_challenge := previous_challenge self |}.

(** [for transaction in logs: self.process_transaction(transaction)]:
    the first exception ends the loop with the mutations made so far. *)
Fixpoint process_all (self : fetcher) (logs : list transaction)
  : fetcher * option exn :=
  match logs with
  | [] => (self, None)
  | transaction :: logs' =>
      match process_transaction self transaction with
      | Ok self' => process_all self' logs'
      | Raise e => (self, Some e)
      end
  end.

(** The node as the scan sees it: the head, and the answer to
    [get_logs] for a block range. *)
Record node : Type := {
  latest_block_number : result Z;
  get_logs : Z -> Z -> result (list transaction)
}.

(** [fetch_logs(start_block, end_block)]: a failed read is an empty
    list. *)
Definition fetch_logs (w3 : node) (start_block end_block : Z)
  : list transaction :=
  match get_logs w3 start_block end_block with
  | Ok logs => logs
  | Raise _ => []
  end.

(** The fetcher, its checkpoint file and the ranges it has asked
    [fetch_logs] for, oldest first. *)
Record scan : Type := {
  self_of : fetcher;
  checkpoint : checkpoint_file;
  fetched : list (Z * Z)
}.

(** The [while current_start <= current_block] loop of [run_once].  It
    need not end when [batch_size < 1], hence the fuel; [None] is a loop
    still running when the fuel is spent. *)
Fixpoint scan_loop (fuel : nat) (w3 : node)
    (batch_size current_block current_start : Z) (s : scan) : option scan :=
  if current_start <=? current_block then
    match fuel with
    | O => None
    | S fuel' =>
        let current_end :=
          Z.min (current_start + batch_size - 1) current_block in
        let logs := fetch_logs w3 current_start current_end in
        let s :=
          {| self_of := self_of s;
             checkpoint := checkpoint s;
             fetched := fetched s ++ [(current_start, current_end)] |} in
        match process_all (self_of s) logs with
        | (self', Some _) =>
            Some {| self_of := self';
                    checkpoint := checkpoint s;
                    fetched := fetched s |}
        | (self', None) =>
            scan_loop fuel' w3 batch_size current_block (current_end + 1)
              {| self_of := self';
                 checkpoint := save_last_processed_block current_end;
                 fetched := fetched s |}
        end
    end
  else Some s.

(** [run_once(batch_size=499)].  The closing
    [save_mined_blocks_to_file] writes files the scan never reads back
    and is left out. *)
Definition run_once (fuel : nat) (w3 : node) (batch_size : Z) (s : scan)
  : option scan :=
  let start_block := load_last_processed_block (checkpoint s) in
  match latest_block_number w3 with
  | Raise _ => Some s
  | Ok current_block =>
      if start_block >? current_block then Some s
      else scan_loop fuel w3 batch_size current_block start_block s
  end.

End Fetcher.

(** * Vocabulary of the properties

    The predicates and auxiliary functions in which the properties of the
    embedded code are stated. *)

Section Vocabulary.

Import Prices.
Context {price : Type}.

(** The timestamps [datetime.fromtimestamp] accepts. *)
Definition in_datetime_range (ts : Z) : Prop :=
  datetime_min <= ts <= datetime_max.

(** The window in seconds that the minute arithmetic of [is_target_time]
    accepts around one anchor. *)
Definition in_window (ts target_hour : Z) : bool :=
  (seconds_since_anchor ts target_hour <=? 1859)
  || (84600 <=? seconds_since_anchor ts target_hour).

(** The total reading of [is_target_time] on timestamps in range. *)
Definition target_b (ts : Z) : bool := existsb (in_window ts) TARGET_HOURS.

(** Whether [is_target_time] answers [False] for a timestamp. *)
Definition is_non_target (ts : Z) : bool :=
  match is_target_time ts 30 with
  | Ok false => true
  | _ => false
  end.

Definition non_target_count (timestamps : list Z) : nat :=
  length (filter is_non_target timestamps).

(** The rows [(timestamps[i], blocks[i], prices[i])] for [i] in
    [range(len(timestamps))], when both other lists reach that far. *)
Fixpoint zip3 (timestamps blocks : list Z) (prices : list price)
  : option (list (@sample price)) :=
  match timestamps, blocks, prices with
  | [], _, _ => Some []
  | ts :: timestamps', b :: blocks', p :: prices' =>
      option_map (cons (ts, b, p)) (zip3 timestamps' blocks' prices')
  | _, _, _ => None
  end.

Definition is_target_sample (s : @sample price) : bool :=
  target_b (sample_timestamp s).

(** The three parallel lists of a list of rows. *)
Definition columns (rows : list (@sample price)) : @store price :=
  (map sample_timestamp rows, map sample_block rows, map sample_price rows).

(** A row put where the position loop of
    [clean_data_keep_targets_and_current] puts it. *)
Definition insert_row (s : @sample price) (rows : list (@sample price))
  : list (@sample price) :=
  list_insert
    (insert_pos_after (sample_timestamp s) (map sample_timestamp rows))
    s rows.

(** The rows [clean_data_keep_targets_and_current] keeps: the target
    rows, and the last of the sorted non-target rows if there is one. *)
Definition cleaned_rows (rows : list (@sample price)) : list (@sample price) :=
  let target_data := filter is_target_sample rows in
  let non_target_data := filter (fun s => negb (is_target_sample s)) rows in
  match rev (sort_by_timestamp non_target_data) with
  | [] => target_data
  | most_recent :: _ => insert_row most_recent target_data
  end.

(** [clean_data_keep_targets_and_current] applied to its own result. *)
Definition clean_twice (timestamps blocks : list Z) (prices : list price)
  : result (@store price) :=
  ' (timestamps', blocks', prices') <-
    clean_data_keep_targets_and_current timestamps blocks prices ;;
  clean_data_keep_targets_and_current timestamps' blocks' prices'.

Definition timestamps_of (s : @store price) : list Z := fst (fst s).
Definition blocks_of (s : @store price) : list Z := snd (fst s).
Definition prices_of (s : @store price) : list price := snd s.

(** The three lists are co-indexed. *)
Definition parallel (s : @store price) : Prop :=
  length (blocks_of s) = length (timestamps_of s)
  /\ length (prices_of s) = length (timestamps_of s).

(** The store invariant: co-indexed lists, timestamps non-decreasing in
    storage order, at most one sample that is not a target sample. *)
Definition store_ok (s : @store price) : Prop :=
  parallel s
  /\ Sorted Z.le (timestamps_of s)
  /\ (non_target_count (timestamps_of s) <= 1)%nat.

(** The calls that mutate the store. *)
Inductive store_call : Type :=
| UpsertCurrent (current_timestamp current_block : Z) (current_price : price)
| Clean
| InsertTarget (current_timestamp current_block : Z) (current_price : price)
| InsertHistorical (actual_timestamp estimated_block : Z) (p : price)
| EvictOverflow.

Definition run_call (c : store_call) (s : @store price) : result (@store price) :=
  let '(timestamps, blocks, prices) := s in
  match c with
  | UpsertCurrent t b p => update_current_price timestamps blocks prices t b p
  | Clean => clean_data_keep_targets_and_current timestamps blocks prices
  | InsertTarget t b p => Ok (insert_target_point timestamps blocks prices t b p)
  | InsertHistorical t b p =>
      Ok (insert_historical_point timestamps blocks prices t b p)
  | EvictOverflow => evict_oldest MAX_DATA_POINTS timestamps blocks prices
  end.

Fixpoint run_calls (cs : list store_call) (s : @store price)
  : result (@store price) :=
  match cs with
  | [] => Ok s
  | c :: cs' => s' <- run_call c s ;; run_calls cs' s'
  end.

(** Whether a call inserts a sample for which [is_target_time] answers
    [False]. *)
Definition inserts_non_target (c : store_call) : bool :=
  match c with
  | InsertTarget t _ _ | InsertHistorical t _ _ => is_non_target t
  | _ => false
  end.

(** How many calls of a sequence insert such a sample. *)
Definition non_target_insertions (calls : list store_call) : nat :=
  length (filter inserts_non_target calls).

(** The timestamp a call brings is one [datetime] can represent. *)
Definition call_in_range (c : store_call) : Prop :=
  match c with
  | UpsertCurrent t _ _ | InsertTarget t _ _ | InsertHistorical t _ _ =>
      in_datetime_range t
  | _ => True
  end.

(** For [0 < n < 2^320]: [2^244] times the binary64 nearest to
    [n / 2^192]. *)
Definition rounded_numerator (n : Z) : Z :=
  Float64.rne_div (n * 2 ^ (320 - Z.log2 n)) (2 ^ 268) * 2 ^ Z.log2 n.

(** The trace of [k] failed attempts of [get_storage_with_retry]. *)
Definition failed_attempts (address slot : string) (block delay : Z)
    (k : nat) : list effect :=
  concat (repeat [GetStorageAt address slot block; Sleep delay] k).

End Vocabulary.

Section ScanVocabulary.

Import Fetcher.

(** The challenge an event carries: hex characters 130 to 194 of its
    data, when the data reach that far. *)
Definition challenge_of (transaction : transaction) : option str :=
  let data := hex (data transaction) in
  if (194 <=? length data)%nat then Some (slice 130 194 data) else None.

Definition miner_of (transaction : transaction) : str :=
  get_miner_address_from_topic (hex (nth 1 (topics transaction) [])).

(** The marker entry an event leaves when it changes the challenge. *)
Definition marker_for (first_block_num : Z) (transaction : transaction)
  : entry :=
  (first_block_num, hex (transactionHash transaction), miner_of transaction,
   IntAmount (-1)).

(** The block a marker refers to: that of the entry at the head of
    [mined_blocks], or the event's own block on an empty list. *)
Definition first_block_num_of (self : fetcher) (transaction : transaction) : Z :=
  match mined_blocks self with
  | first :: _ => entry_block first
  | [] => blockNumber transaction
  end.

(** The markers one call of [process_transaction] adds. *)
Definition markers_added (self : fetcher) (transaction : transaction)
  : list entry :=
  match challenge_of transaction, previous_challenge self with
  | Some challenger, Some previous =>
      if str_eqb previous challenger then []
      else [marker_for (first_block_num_of self transaction) transaction]
  | _, _ => []
  end.

Definition is_hex_digit (c : ascii) : bool :=
  match hex_value c with
  | Some _ => true
  | None => false
  end.

(** A node with no mint events and its head at [head]. *)
Definition quiet_node (head : Z) : node :=
  {| latest_block_number := Ok head; get_logs := fun _ _ => Ok [] |}.

(** A fresh fetcher whose checkpoint file holds [last_block]. *)
Definition scan_from (last_block : Z) : scan :=
  {| self_of := {| mined_blocks := []; previous_challenge := None |};
     checkpoint := JsonObject (Some last_block);
     fetched := [] |}.

(** A mint event in block [block] whose payload carries the amount byte
    [amount_byte] and a challenge word filled with [challenge_byte]. *)
Definition mint_event (block : Z) (challenge_byte amount_byte : byte)
  : transaction :=
  {| transactionHash := [xaa]%byte;
     blockNumber := block;
     topics := [[x01]%byte; repeat xbb 32];
     data := repeat x00 31 ++ [amount_byte] ++ repeat x00 32
             ++ repeat challenge_byte 32 |}.

Definition fresh_fetcher : fetcher :=
  {| mined_blocks := []; previous_challenge := None |}.

(** One mint event, in block 100. *)
Definition mint_in_block_100 : transaction :=
  {| transactionHash := [xaa]%byte;
     blockNumber := 100;
     topics := [[x01]%byte; repeat xbb 32];
     data := repeat x00 31 ++ [x01]%byte |}.

(** A node whose only mint event is [mint_in_block_100]. *)
Definition node_with_mint (head : Z) : node :=
  {| latest_block_number := Ok head;
     get_logs := fun start_block end_block =>
       if (start_block <=? 100) && (100 <=? end_block)
       then Ok [mint_in_block_100] else Ok [] |}.

End ScanVocabulary.


Section WindowVocabulary.

Import Fetcher.

(** An entry that records a change of challenge rather than an event. *)
Definition is_marker (e : entry) : bool :=
  match entry_amount e with
  | IntAmount (-1) => true
  | _ => false
  end.

(** The blocks of the entries that stand for events, in list order. *)
Definition event_blocks (self : fetcher) : list Z :=
  map entry_block (filter (fun e => negb (is_marker e)) (mined_blocks self)).

(** An event [process_transaction] can process: it has a miner topic. *)
Definition has_miner_topic (tx : transaction) : Prop :=
  (2 <= length (topics tx))%nat.

(** Every event the node returns has a miner topic. *)
Definition well_formed_node (w3 : node) : Prop :=
  forall (start_block end_block : Z) (logs : list transaction),
    get_logs w3 start_block end_block = Ok logs ->
    Forall has_miner_topic logs.

(** The ranges [ws] tile the blocks [first .. last] in order, without
    gap or overlap, each [batch_size] blocks wide except possibly the
    last, which ends at [last]. *)
Fixpoint tiles (batch_size first last : Z) (ws : list (Z * Z)) : Prop :=
  match ws with
  | [] => first = last + 1
  | (a, b) :: rest =>
      a = first
      /\ first <= b <= last
      /\ (b - a + 1 = batch_size \/ (b = last /\ b - a + 1 <= batch_size))
      /\ tiles batch_size (b + 1) last rest
  end.

(** A node whose every log query fails. *)
Definition deaf_node (head : Z) : node :=
  {| latest_block_number := Ok head; get_logs := fun _ _ => Raise RpcError |}.

(** An event without a miner topic. *)
Definition event_without_miner (block : Z) : transaction :=
  {| transactionHash := [xcc]%byte;
     blockNumber := block;
     topics := [[x01]%byte];
     data := [] |}.

End WindowVocabulary.

Section FloatVocabulary.

(** [2^-A <= x <= 2^B]. *)
Definition between_pow2 (A B : Z) (x : Q) : Prop :=
  (1 # Z.to_pos (2 ^ A) <= x)%Q /\ (x <= inject_Z (2 ^ B))%Q.

(** The storage of a node that answers every read at once: the word
    [word1] in the BWORK/WETH slot and [word2] in every other slot. *)
Definition steady_storage (word1 word2 : list byte)
  : nat -> string -> string -> Z -> result (list byte) :=
  fun _ _ slot _ =>
    if String.eqb slot Prices.bwork_weth_slot then Ok word1 else Ok word2.

End FloatVocabulary.

Section CollectVocabulary.

Import Prices.

(** A price that is a finite float and not negative. *)
Definition finite_price (x : Float64.pyfloat) : Prop :=
  exists v : Q, x = Float64.Num (Float64.Finite v) /\ (0 <= v)%Q.

(** The samples of a store, row by row. *)
Definition rows_of {price : Type} (s : @store price) : list (@sample price) :=
  combine (combine (timestamps_of s) (blocks_of s)) (prices_of s).

(** A chain that reports the timestamp [t0 + tau * b] for block [b]. *)
Definition regular_chain (t0 tau : Z) : Z -> result Z :=
  fun b => Ok (t0 + tau * b).

(** A chain of two-second blocks that stood still for [gap] seconds
    after block [halt_block]: block [b] carries [t0 + 2 * b] up to the
    halt and [t0 + 2 * b + gap] after it. *)
Definition halted_chain (t0 halt_block gap : Z) : Z -> result Z :=
  fun b => Ok (if b <=? halt_block then t0 + 2 * b else t0 + 2 * b + gap).

End CollectVocabulary.
(** * Properties *)

(** ** The bit fields of slot 0 *)

Section BitFields.

Lemma lor_shiftl_add (a b n : Z) :
  0 <= n -> 0 <= a < 2 ^ n ->
  Z.lor a (Z.shiftl b n) = a + b * 2 ^ n.
Proof.
  intros Hn Ha.
  assert (E : Z.land a (Z.shiftl b n) = 0).
  { apply Z.bits_inj'. intros i Hi.
    rewrite Z.land_spec, Z.bits_0.
    destruct (Z.lt_ge_cases i n) as [Hlt | Hge].
    - rewrite (Z.shiftl_spec_low b n i Hlt). apply andb_false_r.
    - rewrite <- (Z.mod_small a (2 ^ n)) by lia.
      rewrite Z.mod_pow2_bits_high by lia. reflexivity. }
  pose proof (Z.add_lor_land a (Z.shiftl b n)) as H.
  rewrite E in H. rewrite Z.shiftl_mul_pow2 in * by lia. lia.
Qed.

Lemma land_pow2_testbit (a n : Z) :
  0 <= n ->
  Z.land a (2 ^ n) = if Z.testbit a n then 2 ^ n else 0.
Proof.
  intros Hn. apply Z.bits_inj'. intros i Hi.
  rewrite Z.land_spec, Z.pow2_bits_eqb by lia.
  destruct (Z.eqb_spec n i) as [-> | Hne].
  - rewrite andb_true_r. destruct (Z.testbit a i) eqn:E.
    + rewrite Z.pow2_bits_true by lia. reflexivity.
    + rewrite Z.bits_0. reflexivity.
  - rewrite andb_false_r. destruct (Z.testbit a n).
    + rewrite Z.pow2_bits_false by lia. reflexivity.
    + rewrite Z.bits_0. reflexivity.
Qed.

Lemma testbit_top (a n : Z) :
  0 <= n -> 0 <= a < 2 ^ (n + 1) ->
  Z.testbit a n = (2 ^ n <=? a).
Proof.
  intros Hn Ha. rewrite Z.testbit_eqb by lia.
  rewrite Z.pow_add_r in Ha by lia. change (2 ^ 1) with 2 in Ha.
  assert (Hp : 0 < 2 ^ n) by (apply Z.pow_pos_nonneg; lia).
  destruct (Z.leb_spec (2 ^ n) a) as [Hle | Hlt].
  - replace (a / 2 ^ n) with 1; [reflexivity|].
    apply Z.div_unique with (r := a - 2 ^ n); lia.
  - rewrite Z.div_small by lia. reflexivity.
Qed.

(** The layout of [pack_slot0] as a sum of shifted fields. *)
Lemma pack_slot0_sum (sq tick pf lf : Z) :
  0 <= sq < 2 ^ 160 -> 0 <= pf < 2 ^ 24 -> 0 <= lf ->
  Prices.pack_slot0 sq tick pf lf =
  sq + (tick mod 2 ^ 24 + (pf + lf * 2 ^ 24) * 2 ^ 24) * 2 ^ 160.
Proof.
  intros Hsq Hpf Hlf. unfold Prices.pack_slot0.
  change (Z.shiftl 1 24 - 1) with (Z.ones 24).
  rewrite Z.land_ones by lia.
  pose proof (Z.mod_pos_bound tick (2 ^ 24) ltac:(lia)) as Ht.
  replace (Z.shiftl lf 208) with (Z.shiftl (Z.shiftl lf 24) 184)
    by (rewrite Z.shiftl_shiftl by lia; reflexivity).
  rewrite <- Z.shiftl_lor.
  replace (Z.shiftl (Z.lor pf (Z.shiftl lf 24)) 184)
    with (Z.shiftl (Z.shiftl (Z.lor pf (Z.shiftl lf 24)) 24) 160)
    by (rewrite Z.shiftl_shiftl by lia; reflexivity).
  rewrite <- Z.shiftl_lor.
  rewrite (lor_shiftl_add pf lf 24) by lia.
  rewrite (lor_shiftl_add (tick mod 2 ^ 24)) by lia.
  rewrite lor_shiftl_add by lia.
  reflexivity.
Qed.

End BitFields.

(** C2.  Packing a field tuple within the declared widths and applying
    [unpack_slot0] gives the tuple back; the decoded tick is the 24-bit
    field of the word, less [2^24] exactly when bit 23 of that field is
    set. *)
Theorem unpack_slot0_pack_slot0 (sq tick pf lf : Z) :
  0 <= sq < 2 ^ 160 ->
  - 2 ^ 23 <= tick <= 2 ^ 23 - 1 ->
  0 <= pf < 2 ^ 24 ->
  0 <= lf < 2 ^ 24 ->
  Prices.unpack_slot0 (Prices.pack_slot0 sq tick pf lf) = (sq, tick, pf, lf)
  /\ (let field :=
        Z.land (Z.shiftr (Prices.pack_slot0 sq tick pf lf) 160) (2 ^ 24 - 1) in
      tick = if Z.testbit field 23 then field - 2 ^ 24 else field).
Proof.
  intros Hsq Htick Hpf Hlf.
  rewrite pack_slot0_sum by lia.
  set (tf := tick mod 2 ^ 24).
  assert (Htf : 0 <= tf < 2 ^ 24) by (apply Z.mod_pos_bound; lia).
  assert (Etf : tf = if tick <? 0 then tick + 2 ^ 24 else tick).
  { unfold tf. destruct (Z.ltb_spec tick 0).
    - symmetry. apply Z.mod_unique with (q := -1); lia.
    - apply Z.mod_small. lia. }
  assert (Efield :
    Z.land (Z.shiftr (sq + (tf + (pf + lf * 2 ^ 24) * 2 ^ 24) * 2 ^ 160) 160)
      (2 ^ 24 - 1) = tf).
  { change (2 ^ 24 - 1) with (Z.ones 24).
    rewrite Z.land_ones, Z.shiftr_div_pow2 by lia.
    rewrite Z.div_add, Z.div_small by lia.
    rewrite Z.add_0_l, Z.mod_add by lia. apply Z.mod_small; lia. }
  assert (Ebit : Z.testbit tf 23 = (tick <? 0)).
  { rewrite (testbit_top tf 23) by (change (23 + 1) with 24; lia).
    rewrite Etf. destruct (Z.ltb_spec tick 0); [apply Z.leb_le | apply Z.leb_gt]; lia. }
  split.
  - unfold Prices.unpack_slot0.
    change (Z.shiftl 1 24 - 1) with (2 ^ 24 - 1).
    change (Z.shiftl 1 23) with (2 ^ 23).
    change (Z.shiftl 1 24) with (2 ^ 24).
    rewrite Efield.
    rewrite land_pow2_testbit, Ebit by lia.
    change (Z.shiftl 1 160 - 1) with (Z.ones 160).
    change (2 ^ 24 - 1) with (Z.ones 24).
    rewrite !Z.land_ones, !Z.shiftr_div_pow2 by lia.
    assert (E1 : (sq + (tf + (pf + lf * 2 ^ 24) * 2 ^ 24) * 2 ^ 160) mod 2 ^ 160 = sq).
    { rewrite Z.mod_add by lia. apply Z.mod_small; lia. }
    assert (E2 : ((sq + (tf + (pf + lf * 2 ^ 24) * 2 ^ 24) * 2 ^ 160) / 2 ^ 184)
                 mod 2 ^ 24 = pf).
    { change (2 ^ 184) with (2 ^ 160 * 2 ^ 24).
      rewrite <- Z.div_div by lia.
      rewrite Z.div_add, (Z.div_small sq) by lia.
      rewrite Z.add_0_l, Z.div_add, (Z.div_small tf) by lia.
      rewrite Z.add_0_l, Z.mod_add by lia. apply Z.mod_small; lia. }
    assert (E3 : ((sq + (tf + (pf + lf * 2 ^ 24) * 2 ^ 24) * 2 ^ 160) / 2 ^ 208)
                 mod 2 ^ 24 = lf).
    { change (2 ^ 208) with (2 ^ 160 * (2 ^ 24 * 2 ^ 24)).
      rewrite <- !Z.div_div by lia.
      rewrite Z.div_add, (Z.div_small sq) by lia.
      rewrite Z.add_0_l, Z.div_add, (Z.div_small tf) by lia.
      rewrite Z.add_0_l, Z.div_add, (Z.div_small pf) by lia.
      apply Z.mod_small; lia. }
    rewrite E1, E2, E3.
    destruct (Z.ltb_spec tick 0) as [Hneg | Hpos]; cbn [Z.eqb].
    + change (2 ^ 23 =? 0) with false. cbv iota.
      repeat f_equal. rewrite Etf.
      destruct (Z.ltb_spec tick 0); lia.
    + change (0 =? 0) with true. cbv iota.
      repeat f_equal. rewrite Etf.
      destruct (Z.ltb_spec tick 0); lia.
  - cbv zeta. rewrite Efield, Ebit, Etf.
    destruct (Z.ltb_spec tick 0); lia.
Qed.

(** The identity decoder is exercised at tick [-2] with
    [sqrtPriceX96 = 2^96]. *)
Lemma unpack_slot0_pack_slot0_witness :
  Prices.unpack_slot0 (Prices.pack_slot0 (2 ^ 96) (-2) 0 0) = (2 ^ 96, -2, 0, 0)
  /\ (let field :=
        Z.land (Z.shiftr (Prices.pack_slot0 (2 ^ 96) (-2) 0 0) 160) (2 ^ 24 - 1) in
      -2 = if Z.testbit field 23 then field - 2 ^ 24 else field).
Proof.
  apply (unpack_slot0_pack_slot0 (2 ^ 96) (-2) 0 0); lia.
Defined.

(** ** The target-time window *)

Section TargetTime.

Import Prices.

Lemma utc_hour_minute_in_range (ts : Z) :
  in_datetime_range ts ->
  utc_hour_minute ts = Ok ((ts mod 86400) / 3600, (ts mod 3600) / 60).
Proof.
  intros [Hlo Hhi]. unfold utc_hour_minute.
  apply Z.leb_le in Hlo, Hhi. rewrite Hlo, Hhi. reflexivity.
Qed.

Lemma utc_hour_minute_out_of_range (ts : Z) :
  ~ in_datetime_range ts -> utc_hour_minute ts = Raise DateRangeError.
Proof.
  intros Hout. unfold utc_hour_minute, in_datetime_range in *.
  destruct (Z.leb_spec datetime_min ts), (Z.leb_spec ts datetime_max);
    simpl; try reflexivity; lia.
Qed.

Lemma existsb_ext_in {A : Type} (f g : A -> bool) (l : list A) :
  (forall x, In x l -> f x = g x) -> existsb f l = existsb g l.
Proof.
  induction l as [| a l IH]; intros H; simpl; [reflexivity|].
  rewrite (H a) by (left; reflexivity).
  rewrite IH by (intros x Hx; apply H; right; exact Hx).
  reflexivity.
Qed.

Lemma minute_of_day (ts : Z) :
  (ts mod 86400) / 3600 * 60 + (ts mod 3600) / 60 = (ts mod 86400) / 60.
Proof. Z.div_mod_to_equations. lia. Qed.

Lemma anchor_window (t h : Z) :
  0 <= t < 86400 -> In h TARGET_HOURS ->
  (Z.min (Z.abs (t / 60 - h * 60)) (24 * 60 - Z.abs (t / 60 - h * 60)) <=? 30)
  = (((t - h * 3600) mod 86400 <=? 1859)
     || (84600 <=? (t - h * 3600) mod 86400)).
Proof.
  intros Ht Hh.
  apply eq_true_iff_eq. rewrite orb_true_iff, !Z.leb_le.
  simpl in Hh.
  destruct Hh as [<- | [<- | [<- | [<- | []]]]];
    Z.div_mod_to_equations; lia.
Qed.

Lemma is_target_time_in_range (ts : Z) :
  in_datetime_range ts ->
  is_target_time ts 30 = Ok (target_b ts).
Proof.
  intros Hr. unfold is_target_time, target_b.
  rewrite (utc_hour_minute_in_range ts Hr). cbn [bind].
  f_equal. apply existsb_ext_in. intros h Hh. cbv zeta.
  rewrite minute_of_day.
  apply anchor_window; [apply Z.mod_pos_bound; lia | exact Hh].
Qed.

Lemma is_target_time_result (ts : Z) (b : bool) :
  is_target_time ts 30 = Ok b ->
  in_datetime_range ts /\ b = target_b ts.
Proof.
  intros H.
  assert (Hr : in_datetime_range ts).
  { destruct (Z.leb_spec datetime_min ts) as [Hlo | Hlo];
      destruct (Z.leb_spec ts datetime_max) as [Hhi | Hhi];
      try (split; assumption);
      unfold is_target_time in H;
      rewrite utc_hour_minute_out_of_range in H
        by (unfold in_datetime_range; lia);
      discriminate. }
  split; [exact Hr|].
  rewrite (is_target_time_in_range ts Hr) in H. now inversion H.
Qed.

End TargetTime.

(** C10, as the code has it.  For a timestamp that [datetime] can
    represent, [is_target_time] with the default tolerance answers [True]
    exactly when the UTC time of day lies between 30 minutes before an
    anchor hour and 30 minutes 59 seconds after it, around midnight
    included: the seconds are dropped before the comparison.  So a
    timestamp exactly 30 minutes before or after an anchor is accepted,
    and one that is more than 30 minutes before and at least 31 minutes
    after every anchor is rejected. *)
Theorem is_target_time_window (ts : Z) :
  Prices.datetime_min <= ts <= Prices.datetime_max ->
  Prices.is_target_time ts 30
  = Ok (existsb
          (fun h => (Prices.seconds_since_anchor ts h <=? 1859)
                    || (84600 <=? Prices.seconds_since_anchor ts h))
          Prices.TARGET_HOURS)
  /\ ((exists h, In h Prices.TARGET_HOURS
                 /\ Prices.seconds_from_anchor ts h = 1800) ->
      Prices.is_target_time ts 30 = Ok true)
  /\ ((forall h, In h Prices.TARGET_HOURS ->
                 1859 < Prices.seconds_since_anchor ts h < 84600) ->
      Prices.is_target_time ts 30 = Ok false).
Proof.
  intros Hr. rewrite (is_target_time_in_range ts Hr). unfold target_b.
  split; [reflexivity|]. split.
  - intros (h & Hh & Hd). f_equal. apply existsb_exists.
    exists h. split; [exact Hh|].
    unfold in_window, Prices.seconds_since_anchor.
    unfold Prices.seconds_from_anchor in Hd. cbv zeta in Hd.
    apply orb_true_iff. rewrite !Z.leb_le.
    pose proof (Z.mod_pos_bound ts 86400 ltac:(lia)) as Ht.
    simpl in Hh.
    destruct Hh as [<- | [<- | [<- | [<- | []]]]];
      revert Hd; Z.div_mod_to_equations; lia.
  - intros Hall. f_equal.
    apply not_true_is_false. intros Hex.
    apply existsb_exists in Hex. destruct Hex as (h & Hh & Hw).
    specialize (Hall h Hh). unfold in_window in Hw.
    apply orb_true_iff in Hw. rewrite !Z.leb_le in Hw. lia.
Qed.

(** 23:30:00 UTC on 1 January 1970 is exactly 30 minutes before the
    midnight anchor. *)
Lemma is_target_time_window_witness :
  Prices.is_target_time 84600 30 = Ok true.
Proof.
  refine (proj1 (proj2 (is_target_time_window 84600 _)) _).
  - unfold Prices.datetime_min, Prices.datetime_max. lia.
  - exists 0. split; [simpl; auto | reflexivity].
Defined.

(** C10, as stated, fails: 18:30:30 UTC is more than 30 minutes from each
    of the four anchors, and [is_target_time] accepts it. *)
Lemma is_target_time_not_closed_at_30_minutes :
  ~ (forall ts : Z,
        Prices.datetime_min <= ts <= Prices.datetime_max ->
        (forall h, In h Prices.TARGET_HOURS ->
                   Prices.seconds_from_anchor ts h > 1800) ->
        Prices.is_target_time ts 30 = Ok false).
Proof.
  intros H. specialize (H 66630).
  assert (E : Prices.is_target_time 66630 30 = Ok true) by reflexivity.
  rewrite H in E; [discriminate | |].
  - unfold Prices.datetime_min, Prices.datetime_max. lia.
  - intros h Hh. simpl in Hh.
    destruct Hh as [<- | [<- | [<- | [<- | []]]]]; vm_compute; reflexivity.
Qed.

(** ** Eviction of the oldest points *)

Section Eviction.

Import Prices.
Context {price : Type}.

Lemma strongly_sorted_app_le (l1 l2 : list Z) :
  StronglySorted Z.le (l1 ++ l2) ->
  forall x y, In x l1 -> In y l2 -> x <= y.
Proof.
  induction l1 as [| a l1 IH]; intros Hs x y Hx Hy; [contradiction|].
  simpl in Hs. inversion Hs as [| ? ? Hs' Hall]; subst.
  destruct Hx as [<- | Hx].
  - rewrite Forall_forall in Hall. apply Hall, in_or_app. right. exact Hy.
  - apply IH; assumption.
Qed.

Lemma sorted_split_le (l : list Z) (k : nat) :
  Sorted Z.le l ->
  forall x y, In x (firstn k l) -> In y (skipn k l) -> x <= y.
Proof.
  intros Hs. apply strongly_sorted_app_le.
  rewrite firstn_skipn.
  apply Sorted_StronglySorted; [intros a b c; apply Z.le_trans | exact Hs].
Qed.

Lemma evict_oldest_unfold (max_points : Z)
    (timestamps blocks : list Z) (prices : list price) :
  evict_oldest max_points timestamps blocks prices =
  if Z.of_nat (length timestamps) >? max_points then
    match timestamps with
    | [] => Raise IndexError
    | _ :: timestamps' =>
        blocks' <- pop0 blocks ;;
        prices' <- pop0 prices ;;
        evict_oldest max_points timestamps' blocks' prices'
    end
  else Ok (timestamps, blocks, prices).
Proof. destruct timestamps; reflexivity. Qed.

(** On parallel lists the loop drops the first [n - max_points] entries
    of each list, and nothing when [n <= max_points]. *)
Lemma evict_oldest_skipn (max_points : Z) (timestamps : list Z) :
  0 <= max_points ->
  forall (blocks : list Z) (prices : list price),
    length blocks = length timestamps ->
    length prices = length timestamps ->
    let k := (length timestamps - Z.to_nat max_points)%nat in
    evict_oldest max_points timestamps blocks prices
    = Ok (skipn k timestamps, skipn k blocks, skipn k prices).
Proof.
  intros Hmax.
  induction timestamps as [| ts timestamps IH]; intros blocks prices Hb Hp k.
  - rewrite evict_oldest_unfold.
    destruct blocks; [|discriminate]. destruct prices; [|discriminate].
    subst k. cbn [length Z.of_nat].
    destruct (Z.gtb_spec 0 max_points); [lia | reflexivity].
  - rewrite evict_oldest_unfold.
    destruct blocks as [| b blocks]; [discriminate|].
    destruct prices as [| p prices]; [discriminate|].
    cbn [length] in *.
    destruct (Z.gtb_spec (Z.of_nat (S (length timestamps))) max_points) as [Hgt | Hle].
    + cbn [pop0 bind]. rewrite IH by lia.
      subst k. replace (S (length timestamps) - Z.to_nat max_points)%nat
        with (S (length timestamps - Z.to_nat max_points)) by lia.
      reflexivity.
    + subst k. replace (S (length timestamps) - Z.to_nat max_points)%nat
        with 0%nat by lia.
      reflexivity.
Qed.

End Eviction.

(** C9.  On a timestamp-sorted store of [n] parallel entries with
    [n > max_points], the eviction loop of [main] leaves, in each of the
    three lists, the last [max_points] entries in their stored order; the
    [n - max_points] entries it drops are the leading ones, none of them
    later than any entry kept. *)
Theorem evict_oldest_removes_oldest {price : Type} (max_points : Z)
    (timestamps blocks : list Z) (prices : list price) :
  0 <= max_points ->
  length blocks = length timestamps ->
  length prices = length timestamps ->
  Sorted Z.le timestamps ->
  max_points < Z.of_nat (length timestamps) ->
  let k := (length timestamps - Z.to_nat max_points)%nat in
  Prices.evict_oldest max_points timestamps blocks prices
  = Ok (skipn k timestamps, skipn k blocks, skipn k prices)
  /\ Z.of_nat k = Z.of_nat (length timestamps) - max_points
  /\ Z.of_nat (length (skipn k timestamps)) = max_points
  /\ (forall old kept,
         In old (firstn k timestamps) -> In kept (skipn k timestamps) ->
         old <= kept).
Proof.
  intros Hmax Hb Hp Hs Hn k. repeat split.
  - apply evict_oldest_skipn; assumption.
  - subst k. lia.
  - rewrite length_skipn. subst k. lia.
  - apply sorted_split_le. exact Hs.
Qed.

(** Eight samples under a cap of five: the three oldest go. *)
Lemma evict_oldest_removes_oldest_witness :
  Prices.evict_oldest 5 [10; 20; 30; 40; 50; 60; 70; 80]
    [1; 2; 3; 4; 5; 6; 7; 8] [1%Q; 2%Q; 3%Q; 4%Q; 5%Q; 6%Q; 7%Q; 8%Q]
  = Ok ([40; 50; 60; 70; 80], [4; 5; 6; 7; 8], [4%Q; 5%Q; 6%Q; 7%Q; 8%Q]).
Proof.
  refine (proj1 (evict_oldest_removes_oldest 5 [10; 20; 30; 40; 50; 60; 70; 80]
    [1; 2; 3; 4; 5; 6; 7; 8] [1%Q; 2%Q; 3%Q; 4%Q; 5%Q; 6%Q; 7%Q; 8%Q]
    _ _ _ _ _)).
  - lia.
  - reflexivity.
  - reflexivity.
  - repeat constructor; lia.
  - simpl. lia.
Defined.

(** ** The snapshot store *)

Section ListInsert.

Context {A : Type}.

Lemma list_insert_0 (x : A) (l : list A) : list_insert 0 x l = x :: l.
Proof. reflexivity. Qed.

Lemma list_insert_S (n : nat) (x a : A) (l : list A) :
  list_insert (S n) x (a :: l) = a :: list_insert n x l.
Proof. reflexivity. Qed.

Lemma list_insert_nil (n : nat) (x : A) : list_insert n x [] = [x].
Proof. unfold list_insert. rewrite firstn_nil, skipn_nil. reflexivity. Qed.

Lemma list_insert_length (n : nat) (x : A) (l : list A) :
  length (list_insert n x l) = S (length l).
Proof.
  unfold list_insert. rewrite length_app. cbn [length].
  rewrite <- (firstn_skipn n l) at 3. rewrite length_app. lia.
Qed.

Lemma list_insert_map {B : Type} (f : A -> B) (n : nat) (x : A) (l : list A) :
  map f (list_insert n x l) = list_insert n (f x) (map f l).
Proof.
  unfold list_insert.
  rewrite map_app, firstn_map, skipn_map. reflexivity.
Qed.

Lemma list_insert_Forall (P : A -> Prop) (n : nat) (x : A) (l : list A) :
  Forall P (list_insert n x l) <-> P x /\ Forall P l.
Proof.
  unfold list_insert. rewrite Forall_app, Forall_cons_iff.
  rewrite <- (firstn_skipn n l) at 3. rewrite Forall_app. tauto.
Qed.

Lemma list_insert_In (n : nat) (x y : A) (l : list A) :
  In y (list_insert n x l) <-> y = x \/ In y l.
Proof.
  unfold list_insert. rewrite <- (firstn_skipn n l) at 3.
  rewrite !in_app_iff. cbn [In]. intuition.
Qed.

Lemma list_insert_filter_keep (f : A -> bool) (n : nat) (x : A) (l : list A) :
  f x = false -> filter f (list_insert n x l) = filter f l.
Proof.
  intros Hx. unfold list_insert. rewrite filter_app. cbn [filter].
  rewrite Hx, <- filter_app, firstn_skipn. reflexivity.
Qed.

Lemma list_insert_filter_length (f : A -> bool) (n : nat) (x : A) (l : list A) :
  length (filter f (list_insert n x l))
  = (length (filter f l) + if f x then 1 else 0)%nat.
Proof.
  unfold list_insert.
  rewrite <- (firstn_skipn n l) at 3.
  rewrite !filter_app. cbn [filter].
  destruct (f x); rewrite !length_app; cbn [length]; lia.
Qed.

Lemma filter_all (f : A -> bool) (l : list A) :
  Forall (fun a => f a = true) l -> filter f l = l.
Proof.
  induction 1 as [| a l Ha _ IH]; [reflexivity|].
  cbn [filter]. rewrite Ha, IH. reflexivity.
Qed.

Lemma filter_none (f : A -> bool) (l : list A) :
  Forall (fun a => f a = false) l -> filter f l = [].
Proof.
  induction 1 as [| a l Ha _ IH]; [reflexivity|].
  cbn [filter]. rewrite Ha, IH. reflexivity.
Qed.

End ListInsert.

Section SortedInsert.

Import Prices.

Lemma sorted_strongly (l : list Z) : Sorted Z.le l <-> StronglySorted Z.le l.
Proof.
  split.
  - apply Sorted_StronglySorted. intros a b c. apply Z.le_trans.
  - apply StronglySorted_Sorted.
Qed.

Lemma strongly_sorted_filter (f : Z -> bool) (l : list Z) :
  StronglySorted Z.le l -> StronglySorted Z.le (filter f l).
Proof.
  induction 1 as [| a l Hs IH Hall]; [constructor|].
  cbn [filter]. destruct (f a); [|exact IH].
  constructor; [exact IH|].
  rewrite Forall_forall in *. intros x Hx.
  apply filter_In in Hx. apply Hall, Hx.
Qed.

Lemma strongly_sorted_skipn (n : nat) (l : list Z) :
  StronglySorted Z.le l -> StronglySorted Z.le (skipn n l).
Proof.
  revert l. induction n as [| n IH]; intros l Hs; [exact Hs|].
  destruct l as [| a l]; [constructor|].
  cbn [skipn]. apply IH. now inversion Hs.
Qed.

Lemma insert_pos_after_sorted (x : Z) (l : list Z) :
  StronglySorted Z.le l ->
  StronglySorted Z.le (list_insert (insert_pos_after x l) x l).
Proof.
  induction 1 as [| a l Hs IH Hall]; cbn [insert_pos_after].
  - rewrite list_insert_nil. repeat constructor.
  - destruct (Z.ltb_spec x a) as [Hlt | Hge].
    + rewrite list_insert_0. constructor; [now constructor|].
      constructor; [lia|].
      eapply Forall_impl; [|exact Hall]. cbv beta. intros; lia.
    + rewrite list_insert_S. constructor; [exact IH|].
      apply list_insert_Forall. split; [lia | exact Hall].
Qed.

Lemma insert_pos_history_sorted (x : Z) (l : list Z) :
  StronglySorted Z.le l ->
  StronglySorted Z.le (list_insert (insert_pos_history x l) x l).
Proof.
  induction 1 as [| a l Hs IH Hall]; cbn [insert_pos_history].
  - rewrite list_insert_nil. repeat constructor.
  - destruct (Z.gtb_spec x a) as [Hgt | Hle].
    + rewrite list_insert_S. constructor; [exact IH|].
      apply list_insert_Forall. split; [lia | exact Hall].
    + rewrite list_insert_0. constructor; [now constructor|].
      constructor; [lia|].
      eapply Forall_impl; [|exact Hall]. cbv beta. intros; lia.
Qed.

End SortedInsert.

Section StoreLoops.

Import Prices.
Context {price : Type}.

Local Abbreviation sample := (@sample price).
Local Abbreviation store := (@store price).
Local Abbreviation non_target_sample := (fun s : sample => negb (is_target_sample s)).

Lemma skipn_nth_error {A : Type} (i : nat) (l : list A) :
  skipn i l = match nth_error l i with
              | Some a => a :: skipn (S i) l
              | None => []
              end.
Proof.
  revert l. induction i as [| i IH]; intros [| a l]; try reflexivity.
  cbn [nth_error]. rewrite <- IH. reflexivity.
Qed.

Lemma zip3_columns (rows : list sample) :
  zip3 (map sample_timestamp rows) (map sample_block rows)
    (map sample_price rows) = Some rows.
Proof.
  induction rows as [| [[t b] p] rows IH]; [reflexivity|].
  cbn [map zip3]. rewrite IH. reflexivity.
Qed.

Lemma zip3_timestamps (timestamps blocks : list Z) (prices : list price)
    (rows : list sample) :
  zip3 timestamps blocks prices = Some rows ->
  map sample_timestamp rows = timestamps.
Proof.
  revert blocks prices rows.
  induction timestamps as [| t timestamps IH]; intros blocks prices rows H.
  - cbn in H. inversion H. reflexivity.
  - destruct blocks as [| b blocks]; [discriminate|].
    destruct prices as [| p prices]; [discriminate|].
    cbn [zip3] in H.
    destruct (zip3 timestamps blocks prices) as [rows'|] eqn:E; [|discriminate].
    inversion H; subst. cbn [map]. f_equal. eapply IH, E.
Qed.

(** Co-indexed lists are the columns of their rows. *)
Lemma zip3_parallel (timestamps blocks : list Z) (prices : list price) :
  length blocks = length timestamps ->
  length prices = length timestamps ->
  exists rows,
    zip3 timestamps blocks prices = Some rows
    /\ (timestamps, blocks, prices) = columns rows.
Proof.
  revert blocks prices.
  induction timestamps as [| t timestamps IH]; intros blocks prices Hb Hp.
  - destruct blocks; [|discriminate]. destruct prices; [|discriminate].
    exists []. split; reflexivity.
  - destruct blocks as [| b blocks]; [discriminate|].
    destruct prices as [| p prices]; [discriminate|].
    cbn [length] in Hb, Hp.
    destruct (IH blocks prices) as (rows & Hz & Hc); [lia | lia |].
    exists ((t, b, p) :: rows). cbn [zip3]. rewrite Hz. split; [reflexivity|].
    unfold columns in *. inversion Hc as [[Ht Hbl Hpr]].
    cbn [map]. rewrite <- Ht, <- Hbl, <- Hpr. reflexivity.
Qed.

(** What a successful run of the partition loop has read. *)
Lemma partition_loop_inv (rest : list Z) :
  forall (i : nat) (blocks : list Z) (prices : list price)
         (target_data non_target_data target_data' non_target_data' : list sample),
    partition_loop rest i blocks prices target_data non_target_data
    = Ok (target_data', non_target_data') ->
    exists rows,
      zip3 rest (skipn i blocks) (skipn i prices) = Some rows
      /\ Forall in_datetime_range rest
      /\ target_data' = target_data ++ filter is_target_sample rows
      /\ non_target_data' = non_target_data ++ filter non_target_sample rows.
Proof.
  induction rest as [| t rest IH];
    intros i blocks prices T N T' N' H.
  - cbn in H. inversion H; subst. exists [].
    cbn. rewrite !app_nil_r. repeat split. constructor.
  - cbn [partition_loop] in H.
    destruct (is_target_time t 30) as [target|] eqn:Et; [|discriminate].
    apply is_target_time_result in Et. destruct Et as [Hr Etarget].
    cbn [bind] in H. unfold getitem in H.
    destruct (nth_error blocks i) as [b|] eqn:Eb; [|discriminate].
    destruct (nth_error prices i) as [p|] eqn:Ep; [|discriminate].
    cbn [of_option bind] in H.
    rewrite (skipn_nth_error i blocks), (skipn_nth_error i prices), Eb, Ep.
    cbn [zip3].
    destruct target; apply IH in H; destruct H as (rows & Hz & Hrs & -> & ->);
      exists ((t, b, p) :: rows); rewrite Hz; cbn [option_map filter];
      change (is_target_sample (t, b, p)) with (target_b t);
      rewrite <- Etarget; cbn [negb];
      rewrite <- ?app_assoc; repeat split; auto.
Qed.

(** The partition loop on readable rows with representable timestamps. *)
Lemma partition_loop_rows (rest : list Z) :
  forall (i : nat) (blocks : list Z) (prices : list price)
         (target_data non_target_data rows : list sample),
    zip3 rest (skipn i blocks) (skipn i prices) = Some rows ->
    Forall in_datetime_range rest ->
    partition_loop rest i blocks prices target_data non_target_data
    = Ok (target_data ++ filter is_target_sample rows,
          non_target_data ++ filter non_target_sample rows).
Proof.
  induction rest as [| t rest IH]; intros i blocks prices T N rows Hz Hr.
  - cbn in Hz. inversion Hz; subst. cbn. rewrite !app_nil_r. reflexivity.
  - rewrite (skipn_nth_error i blocks), (skipn_nth_error i prices) in Hz.
    destruct (nth_error blocks i) as [b|] eqn:Eb; [|discriminate].
    destruct (nth_error prices i) as [p|] eqn:Ep; [|discriminate].
    cbn [zip3] in Hz.
    destruct (zip3 rest (skipn (S i) blocks) (skipn (S i) prices))
      as [rows'|] eqn:Ez; [|discriminate].
    inversion Hz; subst rows. inversion Hr as [| ? ? Ht Hrest]; subst.
    cbn [partition_loop]. rewrite (is_target_time_in_range t Ht).
    cbn [bind]. unfold getitem. rewrite Eb, Ep. cbn [of_option bind filter].
    change (is_target_sample (t, b, p)) with (target_b t).
    destruct (target_b t); cbn [negb];
      rewrite (IH (S i) blocks prices _ _ rows' Ez Hrest), <- ?app_assoc;
      reflexivity.
Qed.

(** The filter loop of [update_current_price] on the same rows. *)
Lemma keep_targets_loop_rows (rest : list Z) :
  forall (i : nat) (blocks : list Z) (prices : list price)
         (tt tb : list Z) (tp : list price) (rows : list sample),
    zip3 rest (skipn i blocks) (skipn i prices) = Some rows ->
    Forall in_datetime_range rest ->
    keep_targets_loop rest i blocks prices tt tb tp
    = Ok (tt ++ map sample_timestamp (filter is_target_sample rows),
          tb ++ map sample_block (filter is_target_sample rows),
          tp ++ map sample_price (filter is_target_sample rows)).
Proof.
  induction rest as [| t rest IH]; intros i blocks prices tt tb tp rows Hz Hr.
  - cbn in Hz. inversion Hz; subst. cbn. rewrite !app_nil_r. reflexivity.
  - rewrite (skipn_nth_error i blocks), (skipn_nth_error i prices) in Hz.
    destruct (nth_error blocks i) as [b|] eqn:Eb; [|discriminate].
    destruct (nth_error prices i) as [p|] eqn:Ep; [|discriminate].
    cbn [zip3] in Hz.
    destruct (zip3 rest (skipn (S i) blocks) (skipn (S i) prices))
      as [rows'|] eqn:Ez; [|discriminate].
    inversion Hz; subst rows. inversion Hr as [| ? ? Ht Hrest]; subst.
    cbn [keep_targets_loop]. rewrite (is_target_time_in_range t Ht).
    cbn [bind filter].
    change (is_target_sample (t, b, p)) with (target_b t).
    destruct (target_b t).
    + unfold getitem. rewrite Eb, Ep. cbn [of_option bind].
      rewrite (IH (S i) blocks prices _ _ _ rows' Ez Hrest).
      cbn [map sample_timestamp sample_block sample_price fst snd].
      rewrite <- !app_assoc. reflexivity.
    + rewrite (IH (S i) blocks prices _ _ _ rows' Ez Hrest). reflexivity.
Qed.

(** A run of the filter loop that returns has classified every
    timestamp. *)
Lemma keep_targets_loop_inv (rest : list Z) :
  forall (i : nat) (blocks : list Z) (prices : list price)
         (tt tb : list Z) (tp : list price) (s : store),
    keep_targets_loop rest i blocks prices tt tb tp = Ok s ->
    Forall in_datetime_range rest.
Proof.
  induction rest as [| t rest IH]; intros i blocks prices tt tb tp s H.
  - constructor.
  - cbn [keep_targets_loop] in H.
    destruct (is_target_time t 30) as [target|] eqn:Et; [|discriminate].
    apply is_target_time_result in Et. destruct Et as [Hr _].
    cbn [bind] in H. constructor; [exact Hr|].
    destruct target.
    + unfold getitem in H.
      destruct (nth_error blocks i); [|discriminate].
      destruct (nth_error prices i); [|discriminate].
      cbn [of_option bind] in H. eapply IH, H.
    + eapply IH, H.
Qed.

End StoreLoops.

Section Clean.

Import Prices.
Context {price : Type}.

Local Abbreviation sample := (@sample price).
Local Abbreviation store := (@store price).
Local Abbreviation non_target_sample :=
  (fun s : sample => negb (is_target_sample s)).

Lemma sort_insert_In (s x : sample) (l : list sample) :
  In x (sort_insert s l) <-> x = s \/ In x l.
Proof.
  induction l as [| a l IH]; cbn [sort_insert].
  - cbn. intuition.
  - destruct (sample_timestamp s <=? sample_timestamp a).
    + cbn. intuition.
    + cbn [In]. rewrite IH. intuition.
Qed.

Lemma sort_by_timestamp_In (x : sample) (l : list sample) :
  In x (sort_by_timestamp l) <-> In x l.
Proof.
  induction l as [| a l IH]; [reflexivity|].
  cbn [sort_by_timestamp]. rewrite sort_insert_In, IH. cbn. intuition.
Qed.

Lemma most_recent_In (l : list sample) (most_recent : sample) (others : list sample) :
  rev (sort_by_timestamp l) = most_recent :: others -> In most_recent l.
Proof.
  intros H. apply sort_by_timestamp_In, in_rev.
  rewrite H. left. reflexivity.
Qed.

Lemma most_recent_none (l : list sample) :
  rev (sort_by_timestamp l) = [] -> l = [].
Proof.
  intros H. destruct l as [| a l]; [reflexivity|].
  assert (Hin : In a (rev (sort_by_timestamp (a :: l)))).
  { apply -> in_rev. apply sort_by_timestamp_In. left. reflexivity. }
  rewrite H in Hin. contradiction.
Qed.

Lemma insert_row_columns (s : sample) (rows : list sample) :
  columns (insert_row s rows)
  = (list_insert (insert_pos_after (sample_timestamp s)
                    (map sample_timestamp rows))
       (sample_timestamp s) (map sample_timestamp rows),
     list_insert (insert_pos_after (sample_timestamp s)
                    (map sample_timestamp rows))
       (sample_block s) (map sample_block rows),
     list_insert (insert_pos_after (sample_timestamp s)
                    (map sample_timestamp rows))
       (sample_price s) (map sample_price rows)).
Proof.
  unfold columns, insert_row. rewrite !list_insert_map. reflexivity.
Qed.

(** [clean_data_keep_targets_and_current] on the columns of rows whose
    timestamps are representable. *)
Lemma clean_columns (rows : list sample) :
  Forall in_datetime_range (map sample_timestamp rows) ->
  clean_data_keep_targets_and_current (map sample_timestamp rows)
    (map sample_block rows) (map sample_price rows)
  = Ok (columns (cleaned_rows rows)).
Proof.
  intros Hr. unfold clean_data_keep_targets_and_current.
  rewrite (partition_loop_rows _ 0 _ _ [] [] rows)
    by (cbn [skipn]; auto using zip3_columns).
  cbn [app bind]. unfold cleaned_rows.
  destruct rows as [| r rows]; [reflexivity|]. cbn [map].
  destruct (rev (sort_by_timestamp (filter non_target_sample (r :: rows))));
    [reflexivity|].
  rewrite insert_row_columns. reflexivity.
Qed.

(** What a successful call has returned. *)
Lemma clean_inv (timestamps blocks : list Z) (prices : list price) (s : store) :
  clean_data_keep_targets_and_current timestamps blocks prices = Ok s ->
  (timestamps = [] /\ s = ([], blocks, prices))
  \/ exists rows,
       zip3 timestamps blocks prices = Some rows
       /\ Forall in_datetime_range timestamps
       /\ s = columns (cleaned_rows rows).
Proof.
  intros H. destruct timestamps as [| t timestamps].
  - left. cbn in H. inversion H. split; reflexivity.
  - right. unfold clean_data_keep_targets_and_current in H.
    destruct (partition_loop (t :: timestamps) 0 blocks prices [] [])
      as [[T N]|] eqn:Ep; [|discriminate].
    apply partition_loop_inv in Ep.
    destruct Ep as (rows & Hz & Hr & -> & ->).
    cbn [skipn] in Hz. cbn [app bind] in H.
    exists rows. repeat split; [exact Hz | exact Hr |].
    unfold cleaned_rows.
    destruct (rev (sort_by_timestamp (filter non_target_sample rows))).
    + inversion H. reflexivity.
    + rewrite insert_row_columns. inversion H. reflexivity.
Qed.

Lemma cleaned_rows_incl (rows : list sample) :
  incl (cleaned_rows rows) rows.
Proof.
  unfold cleaned_rows.
  destruct (rev (sort_by_timestamp (filter non_target_sample rows)))
    as [| most_recent others] eqn:E.
  - intros x Hx. apply filter_In in Hx. apply Hx.
  - apply most_recent_In in E. apply filter_In in E.
    intros x Hx. unfold insert_row in Hx.
    apply list_insert_In in Hx. destruct Hx as [-> | Hx].
    + apply E.
    + apply filter_In in Hx. apply Hx.
Qed.

Lemma filter_target_idem (rows : list sample) :
  Forall (fun s => is_target_sample s = true) (filter is_target_sample rows).
Proof.
  apply Forall_forall. intros x Hx. apply filter_In in Hx. apply Hx.
Qed.

Lemma cleaned_rows_targets (rows : list sample) :
  filter is_target_sample (cleaned_rows rows) = filter is_target_sample rows.
Proof.
  unfold cleaned_rows.
  destruct (rev (sort_by_timestamp (filter non_target_sample rows)))
    as [| most_recent others] eqn:E.
  - apply filter_all, filter_target_idem.
  - apply most_recent_In in E. apply filter_In in E. destruct E as [_ E].
    unfold insert_row. rewrite list_insert_filter_keep.
    + apply filter_all, filter_target_idem.
    + now apply negb_true_iff.
Qed.

Lemma cleaned_rows_non_targets (rows : list sample) :
  filter non_target_sample (cleaned_rows rows)
  = match rev (sort_by_timestamp (filter non_target_sample rows)) with
    | [] => []
    | most_recent :: _ => [most_recent]
    end.
Proof.
  assert (Hnone : filter non_target_sample (filter is_target_sample rows) = []).
  { apply filter_none. eapply Forall_impl; [|apply filter_target_idem].
    cbv beta. intros a Ha. rewrite Ha. reflexivity. }
  unfold cleaned_rows.
  destruct (rev (sort_by_timestamp (filter non_target_sample rows)))
    as [| most_recent others] eqn:E; [exact Hnone|].
  apply most_recent_In in E. apply filter_In in E. destruct E as [_ E].
  unfold insert_row, list_insert. rewrite filter_app. cbn [filter].
  rewrite E.
  set (n := insert_pos_after _ _).
  pose proof (firstn_skipn n (filter is_target_sample rows)) as Hsplit.
  rewrite <- Hsplit, filter_app in Hnone.
  apply app_eq_nil in Hnone. destruct Hnone as [-> ->]. reflexivity.
Qed.

Lemma cleaned_rows_idempotent (rows : list sample) :
  cleaned_rows (cleaned_rows rows) = cleaned_rows rows.
Proof.
  unfold cleaned_rows at 1.
  rewrite cleaned_rows_targets, cleaned_rows_non_targets.
  unfold cleaned_rows.
  destruct (rev (sort_by_timestamp (filter non_target_sample rows)));
    reflexivity.
Qed.

Lemma clean_stable (timestamps blocks : list Z) (prices : list price) (s : store) :
  clean_data_keep_targets_and_current timestamps blocks prices = Ok s ->
  clean_data_keep_targets_and_current
    (timestamps_of s) (blocks_of s) (prices_of s) = Ok s.
Proof.
  intros H. apply clean_inv in H.
  destruct H as [[-> ->] | (rows & Hz & Hr & ->)]; [reflexivity|].
  unfold columns, timestamps_of, blocks_of, prices_of. cbn [fst snd].
  rewrite clean_columns, cleaned_rows_idempotent; [reflexivity|].
  apply zip3_timestamps in Hz. subst timestamps.
  rewrite Forall_forall in *. intros t Ht.
  apply in_map_iff in Ht. destruct Ht as (x & <- & Hx).
  apply Hr, in_map, cleaned_rows_incl, Hx.
Qed.

End Clean.

(** C4.  Cleaning the result of [clean_data_keep_targets_and_current]
    again changes nothing: the second call returns the three lists of the
    first (and a first call that raises has raised already).  On three
    lists of one length whose timestamps [datetime] can represent the call
    does return. *)
Theorem clean_data_idempotent {price : Type}
    (timestamps blocks : list Z) (prices : list price) :
  clean_twice timestamps blocks prices
  = Prices.clean_data_keep_targets_and_current timestamps blocks prices
  /\ (length blocks = length timestamps ->
      length prices = length timestamps ->
      Forall in_datetime_range timestamps ->
      exists cleaned : list Z * list Z * list price,
        Prices.clean_data_keep_targets_and_current timestamps blocks prices
        = Ok cleaned
        /\ clean_twice timestamps blocks prices = Ok cleaned).
Proof.
  assert (Htwice : clean_twice timestamps blocks prices
    = Prices.clean_data_keep_targets_and_current timestamps blocks prices).
  { unfold clean_twice.
    destruct (Prices.clean_data_keep_targets_and_current timestamps blocks prices)
      as [[[ts' bs'] ps']|] eqn:E; [|reflexivity].
    cbn [bind]. apply (clean_stable _ _ _ _ E). }
  split; [exact Htwice|].
  intros Hb Hp Hr.
  destruct (zip3_parallel timestamps blocks prices Hb Hp) as (rows & Hz & Hc).
  exists (columns (cleaned_rows rows)).
  rewrite Htwice. inversion Hc; subst.
  split; apply clean_columns; exact Hr.
Qed.

(** A store with two stale current samples (02:00 and 03:00) between
    targets: one call keeps the later one, a second call keeps the same. *)
Lemma clean_data_idempotent_witness :
  exists cleaned : list Z * list Z * list Q,
    Prices.clean_data_keep_targets_and_current
      [0; 7200; 10800; 21600] [1; 2; 3; 4] [1%Q; 2%Q; 3%Q; 4%Q] = Ok cleaned
    /\ clean_twice [0; 7200; 10800; 21600] [1; 2; 3; 4] [1%Q; 2%Q; 3%Q; 4%Q]
       = Ok cleaned.
Proof.
  refine (proj2 (clean_data_idempotent
    [0; 7200; 10800; 21600] [1; 2; 3; 4] [1%Q; 2%Q; 3%Q; 4%Q]) _ _ _).
  - reflexivity.
  - reflexivity.
  - repeat constructor; vm_compute; discriminate.
Defined.

Section StoreInvariant.

Import Prices.
Context {price : Type}.

Local Abbreviation sample := (@sample price).
Local Abbreviation store := (@store price).

Lemma is_non_target_in_range (t : Z) :
  in_datetime_range t -> is_non_target t = negb (target_b t).
Proof.
  intros Hr. unfold is_non_target.
  rewrite (is_target_time_in_range t Hr). destruct (target_b t); reflexivity.
Qed.

Lemma is_non_target_accepted (t : Z) :
  is_target_time t 30 = Ok true -> is_non_target t = false.
Proof. intros H. unfold is_non_target. rewrite H. reflexivity. Qed.

Lemma target_timestamps (rows : list sample) :
  map sample_timestamp (filter is_target_sample rows)
  = filter target_b (map sample_timestamp rows).
Proof.
  induction rows as [| r rows IH]; [reflexivity|].
  cbn [filter map]. change (is_target_sample r) with (target_b (sample_timestamp r)).
  destruct (target_b (sample_timestamp r)); cbn [map]; rewrite IH; reflexivity.
Qed.

Lemma non_target_count_targets (timestamps : list Z) :
  Forall in_datetime_range timestamps ->
  non_target_count (filter target_b timestamps) = 0%nat.
Proof.
  intros Hr. unfold non_target_count.
  rewrite filter_none; [reflexivity|].
  rewrite Forall_forall in *. intros t Ht.
  apply filter_In in Ht. destruct Ht as [Hin Ht].
  rewrite (is_non_target_in_range t (Hr t Hin)), Ht. reflexivity.
Qed.

Lemma non_target_count_insert (n : nat) (t : Z) (timestamps : list Z) :
  non_target_count (list_insert n t timestamps)
  = (non_target_count timestamps + if is_non_target t then 1 else 0)%nat.
Proof. apply list_insert_filter_length. Qed.

Lemma non_target_count_skipn (n : nat) (timestamps : list Z) :
  (non_target_count (skipn n timestamps) <= non_target_count timestamps)%nat.
Proof.
  unfold non_target_count.
  rewrite <- (firstn_skipn n timestamps) at 2.
  rewrite filter_app, length_app. lia.
Qed.

Lemma Forall_filter_in_range (f : Z -> bool) (timestamps : list Z) :
  Forall in_datetime_range timestamps ->
  Forall in_datetime_range (filter f timestamps).
Proof.
  rewrite !Forall_forall. intros H t Ht. apply filter_In in Ht. apply H, Ht.
Qed.

Lemma Forall_skipn_in_range (n : nat) (timestamps : list Z) :
  Forall in_datetime_range timestamps ->
  Forall in_datetime_range (skipn n timestamps).
Proof.
  intros H. rewrite <- (firstn_skipn n timestamps) in H.
  apply Forall_app in H. apply H.
Qed.

(** One more row in co-indexed lists, at a position that keeps the
    timestamps in order. *)
Lemma store_ok_insert (pos : nat) (timestamps blocks : list Z)
    (prices : list price) (t b : Z) (p : price) :
  length blocks = length timestamps ->
  length prices = length timestamps ->
  StronglySorted Z.le (list_insert pos t timestamps) ->
  (non_target_count timestamps + (if is_non_target t then 1 else 0) <= 1)%nat ->
  store_ok (list_insert pos t timestamps, list_insert pos b blocks,
            list_insert pos p prices).
Proof.
  intros Hb Hp Hs Hc. unfold store_ok, parallel, timestamps_of, blocks_of, prices_of.
  cbn [fst snd]. rewrite !list_insert_length, non_target_count_insert.
  repeat split; try lia. apply sorted_strongly, Hs.
Qed.

Lemma update_current_price_ok (timestamps blocks : list Z) (prices : list price)
    (t b : Z) (p : price) :
  length blocks = length timestamps ->
  length prices = length timestamps ->
  Sorted Z.le timestamps ->
  Forall in_datetime_range timestamps ->
  exists s,
    update_current_price timestamps blocks prices t b p = Ok s
    /\ store_ok s
    /\ (in_datetime_range t -> Forall in_datetime_range (timestamps_of s)).
Proof.
  intros Hb Hp Hs Hr.
  destruct (zip3_parallel timestamps blocks prices Hb Hp) as (rows & Hz & Hc).
  unfold update_current_price.
  rewrite (keep_targets_loop_rows timestamps 0 blocks prices [] [] [] rows)
    by (cbn [skipn]; assumption).
  cbn [app bind]. eexists. split; [reflexivity|].
  inversion Hc as [[Ets Ebs Eps]].
  assert (Hlen : forall (B : Type) (f : sample -> B),
             length (map f (filter is_target_sample rows))
             = length (filter target_b (map sample_timestamp rows))).
  { intros B f. rewrite <- target_timestamps, !length_map. reflexivity. }
  rewrite Ets in Hs, Hr.
  rewrite target_timestamps.
  split.
  - apply store_ok_insert.
    + apply Hlen.
    + apply Hlen.
    + apply insert_pos_after_sorted, strongly_sorted_filter, sorted_strongly, Hs.
    + rewrite non_target_count_targets by exact Hr.
      destruct (is_non_target t); lia.
  - intros Ht. unfold timestamps_of. cbn [fst].
    apply list_insert_Forall. split; [exact Ht|].
    apply Forall_filter_in_range, Hr.
Qed.

Lemma clean_ok (timestamps blocks : list Z) (prices : list price) :
  length blocks = length timestamps ->
  length prices = length timestamps ->
  Sorted Z.le timestamps ->
  Forall in_datetime_range timestamps ->
  exists s,
    clean_data_keep_targets_and_current timestamps blocks prices = Ok s
    /\ store_ok s /\ Forall in_datetime_range (timestamps_of s).
Proof.
  intros Hb Hp Hs Hr.
  destruct (zip3_parallel timestamps blocks prices Hb Hp) as (rows & Hz & Hc).
  inversion Hc as [[Ets Ebs Eps]]. clear Hc.
  clear Hz. subst timestamps blocks prices.
  exists (columns (cleaned_rows rows)).
  split; [apply clean_columns, Hr|].
  assert (Hts : StronglySorted Z.le
                  (filter target_b (map sample_timestamp rows))).
  { apply strongly_sorted_filter, sorted_strongly, Hs. }
  assert (Hcount : non_target_count
                     (filter target_b (map sample_timestamp rows)) = 0%nat).
  { apply non_target_count_targets, Hr. }
  assert (Hlen : forall (B : Type) (f : sample -> B),
             length (map f (filter is_target_sample rows))
             = length (filter target_b (map sample_timestamp rows))).
  { intros B f. rewrite <- target_timestamps, !length_map. reflexivity. }
  unfold cleaned_rows.
  destruct (rev (sort_by_timestamp
              (filter (fun s => negb (is_target_sample s)) rows)))
    as [| most_recent others] eqn:E.
  - unfold columns, store_ok, parallel, timestamps_of, blocks_of, prices_of.
    cbn [fst snd]. rewrite target_timestamps, !Hlen, Hcount.
    repeat split; try lia.
    + apply sorted_strongly, Hts.
    + apply Forall_filter_in_range, Hr.
  - rewrite insert_row_columns, target_timestamps.
    apply most_recent_In, filter_In in E. destruct E as [Hin _].
    assert (Hmr : in_datetime_range (sample_timestamp most_recent)).
    { rewrite Forall_forall in Hr. apply Hr, in_map, Hin. }
    split.
    + apply store_ok_insert.
      * apply Hlen.
      * apply Hlen.
      * apply insert_pos_after_sorted, Hts.
      * rewrite Hcount. destruct (is_non_target _); lia.
    + unfold timestamps_of. cbn [fst].
      apply list_insert_Forall. split; [exact Hmr|].
      apply Forall_filter_in_range, Hr.
Qed.

Lemma evict_oldest_parallel (timestamps blocks : list Z)
    (prices : list price) :
  length blocks = length timestamps ->
  length prices = length timestamps ->
  evict_oldest MAX_DATA_POINTS timestamps blocks prices
  = Ok (skipn (length timestamps - Z.to_nat MAX_DATA_POINTS) timestamps,
        skipn (length timestamps - Z.to_nat MAX_DATA_POINTS) blocks,
        skipn (length timestamps - Z.to_nat MAX_DATA_POINTS) prices).
Proof.
  intros Hb Hp.
  apply evict_oldest_skipn; [unfold MAX_DATA_POINTS; lia | exact Hb | exact Hp].
Qed.

Lemma non_target_insertions_cons (c : @store_call price)
    (calls : list store_call) :
  non_target_insertions (c :: calls)
  = ((if inserts_non_target c then 1 else 0) + non_target_insertions calls)%nat.
Proof.
  unfold non_target_insertions. cbn [filter].
  destruct (inserts_non_target c); reflexivity.
Qed.

(** A call that is handed co-indexed, sorted lists and timestamps
    [datetime] can represent returns, and so are the timestamps it
    leaves. *)
Lemma run_call_returns (c : @store_call price) (s : store) :
  parallel s ->
  Sorted Z.le (timestamps_of s) ->
  Forall in_datetime_range (timestamps_of s) ->
  call_in_range c ->
  exists s',
    run_call c s = Ok s' /\ Forall in_datetime_range (timestamps_of s').
Proof.
  destruct s as [[timestamps blocks] prices].
  intros [Hb Hp] Hs Hr Hrange.
  unfold timestamps_of, blocks_of, prices_of in Hb, Hp, Hs, Hr.
  cbn [fst snd] in Hb, Hp, Hs, Hr.
  destruct c as [t b p | | t b p | t b p |]; cbn [run_call].
  - destruct (update_current_price_ok timestamps blocks prices t b p)
      as (s' & E & _ & Hr'); try assumption.
    exists s'. split; [exact E | apply Hr', Hrange].
  - destruct (clean_ok timestamps blocks prices) as (s' & E & _ & Hr');
      try assumption.
    exists s'. split; assumption.
  - eexists. split; [reflexivity|].
    unfold insert_target_point, timestamps_of. cbn [fst].
    apply list_insert_Forall. split; assumption.
  - eexists. split; [reflexivity|].
    unfold insert_historical_point, timestamps_of. cbn [fst].
    apply list_insert_Forall. split; assumption.
  - eexists. split; [apply evict_oldest_parallel; assumption|].
    unfold timestamps_of. cbn [fst]. apply Forall_skipn_in_range, Hr.
Qed.

(** What one call that returns does to co-indexed, sorted lists,
    whatever the timestamps: the lists stay co-indexed and sorted, and
    only an insertion of a sample [is_target_time] rejects can add to
    the non-target samples beyond the one current sample. *)
Lemma run_call_step (c : @store_call price) (s s' : store) :
  parallel s ->
  Sorted Z.le (timestamps_of s) ->
  run_call c s = Ok s' ->
  parallel s'
  /\ Sorted Z.le (timestamps_of s')
  /\ (non_target_count (timestamps_of s')
      <= Nat.max 1 (non_target_count (timestamps_of s))
         + (if inserts_non_target c then 1 else 0))%nat.
Proof.
  destruct s as [[timestamps blocks] prices].
  intros [Hb Hp] Hs Hrun.
  unfold timestamps_of, blocks_of, prices_of in Hb, Hp, Hs.
  cbn [fst snd] in Hb, Hp, Hs.
  unfold timestamps_of at 3. cbn [fst].
  destruct c as [t b p | | t b p | t b p |];
    cbn [run_call inserts_non_target] in *.
  - assert (Hr : Forall in_datetime_range timestamps).
    { unfold update_current_price in Hrun.
      destruct (keep_targets_loop timestamps 0 blocks prices [] [] [])
        as [kept|] eqn:Ek; [|discriminate].
      eapply keep_targets_loop_inv, Ek. }
    destruct (update_current_price_ok timestamps blocks prices t b p)
      as (s0 & E & (Hpar0 & Hs0 & Hc0) & _); try assumption.
    assert (s0 = s') by congruence. subst s0.
    split; [exact Hpar0|]. split; [exact Hs0|]. lia.
  - destruct timestamps as [| t0 timestamps'] eqn:Et.
    + cbn in Hrun. inversion Hrun; subst.
      split; [split; assumption|]. split; [exact Hs|].
      unfold timestamps_of. cbn [fst]. lia.
    + rewrite <- Et in *.
      assert (Hr : Forall in_datetime_range timestamps).
      { destruct (clean_inv _ _ _ _ Hrun) as [[Hnil _] | (rows & _ & Hr & _)];
          [congruence | exact Hr]. }
      destruct (clean_ok timestamps blocks prices)
        as (s0 & E & (Hpar0 & Hs0 & Hc0) & _); try assumption.
      assert (s0 = s') by congruence. subst s0.
      split; [exact Hpar0|]. split; [exact Hs0|]. lia.
  - inversion Hrun; subst. unfold insert_target_point.
    unfold parallel, timestamps_of, blocks_of, prices_of. cbn [fst snd].
    rewrite !list_insert_length, non_target_count_insert.
    split; [lia|]. split; [|lia].
    apply sorted_strongly, insert_pos_after_sorted, sorted_strongly, Hs.
  - inversion Hrun; subst. unfold insert_historical_point.
    unfold parallel, timestamps_of, blocks_of, prices_of. cbn [fst snd].
    rewrite !list_insert_length, non_target_count_insert.
    split; [lia|]. split; [|lia].
    apply sorted_strongly, insert_pos_history_sorted, sorted_strongly, Hs.
  - rewrite evict_oldest_parallel in Hrun by assumption.
    inversion Hrun; subst.
    set (k := (length timestamps - Z.to_nat MAX_DATA_POINTS)%nat).
    unfold parallel, timestamps_of, blocks_of, prices_of.
    cbn [fst snd]. rewrite !length_skipn, Hb, Hp.
    split; [lia|]. split.
    + apply sorted_strongly, strongly_sorted_skipn, sorted_strongly, Hs.
    + pose proof (non_target_count_skipn k timestamps) as H. subst k.
      change (Z.to_nat MAX_DATA_POINTS) with (Pos.to_nat 120) in H. lia.
Qed.

Lemma run_calls_bound (calls : list (@store_call price)) :
  forall s s' : store,
    parallel s ->
    Sorted Z.le (timestamps_of s) ->
    run_calls calls s = Ok s' ->
    parallel s'
    /\ Sorted Z.le (timestamps_of s')
    /\ (non_target_count (timestamps_of s')
        <= Nat.max 1 (non_target_count (timestamps_of s))
           + non_target_insertions calls)%nat.
Proof.
  induction calls as [| c calls IH]; intros s s' Hpar Hs Hrun.
  - cbn in Hrun. inversion Hrun; subst.
    split; [exact Hpar|]. split; [exact Hs|]. lia.
  - cbn [run_calls] in Hrun.
    destruct (run_call c s) as [s1|] eqn:E1; [|discriminate].
    cbn [bind] in Hrun.
    destruct (run_call_step c s s1 Hpar Hs E1) as (Hpar1 & Hs1 & Hc1).
    destruct (IH s1 s' Hpar1 Hs1 Hrun) as (Hpar' & Hs' & Hc').
    split; [exact Hpar'|]. split; [exact Hs'|].
    rewrite non_target_insertions_cons. lia.
Qed.

Lemma run_calls_return (calls : list (@store_call price)) :
  forall s : store,
    parallel s ->
    Sorted Z.le (timestamps_of s) ->
    Forall in_datetime_range (timestamps_of s) ->
    Forall call_in_range calls ->
    exists s', run_calls calls s = Ok s'.
Proof.
  induction calls as [| c calls IH]; intros s Hpar Hs Hr Hranges.
  - exists s. reflexivity.
  - inversion Hranges as [| ? ? Hc Hcs]; subst.
    destruct (run_call_returns c s Hpar Hs Hr Hc) as (s1 & E1 & Hr1).
    destruct (run_call_step c s s1 Hpar Hs E1) as (Hpar1 & Hs1 & _).
    destruct (IH s1 Hpar1 Hs1 Hr1 Hcs) as (s' & E').
    exists s'. cbn [run_calls]. rewrite E1. exact E'.
Qed.

(** The monitoring pass inserts a sample only where [is_target_time]
    has just accepted its timestamp, and replaces the current sample
    otherwise: it keeps the invariant. *)
Lemma monitor_tick_store_ok (s s' : store) (t b : Z) (p : price) :
  store_ok s ->
  monitor_tick (timestamps_of s) (blocks_of s) (prices_of s) t b p = Ok s' ->
  store_ok s'.
Proof.
  intros (Hpar & Hs & Hc) Hrun. unfold monitor_tick in Hrun.
  destruct s as [[timestamps blocks] prices].
  unfold timestamps_of, blocks_of, prices_of in Hrun. cbn [fst snd] in Hrun.
  destruct (is_target_time t 30) as [[|] |] eqn:Et; cbn [bind] in Hrun;
    [| |discriminate].
  - destruct (run_call_step (InsertTarget t b p) (timestamps, blocks, prices)
                _ Hpar Hs eq_refl) as (Hpar1 & Hs1 & Hc1).
    cbn [inserts_non_target] in Hc1.
    rewrite (is_non_target_accepted t Et) in Hc1.
    unfold insert_target_point in *.
    destruct (run_call_step EvictOverflow _ s' Hpar1 Hs1 Hrun)
      as (Hpar2 & Hs2 & Hc2).
    cbn [inserts_non_target] in Hc2.
    split; [exact Hpar2|]. split; [exact Hs2|]. lia.
  - destruct (run_call_step (UpsertCurrent t b p) (timestamps, blocks, prices)
                s' Hpar Hs Hrun) as (Hpar1 & Hs1 & Hc1).
    cbn [inserts_non_target] in Hc1.
    split; [exact Hpar1|]. split; [exact Hs1|]. lia.
Qed.

End StoreInvariant.

(** C3, as the code has it.  From a store whose three lists are
    co-indexed and timestamp-sorted, every sequence of
    [update_current_price], [clean_data_keep_targets_and_current],
    insertions (live or back-filled) and overflow evictions that returns
    leaves the lists co-indexed and the timestamps non-decreasing, and
    the non-target samples it leaves number at most the larger of 1 and
    their number at the start, plus the insertions of a sample
    [is_target_time] rejects.  So a store that starts with at most one
    non-target sample ends with at most one when no such insertion is
    made.  The sequence does return when every timestamp stored or
    brought by a call is one [datetime] can represent.  The monitoring
    pass of [main] inserts only after [is_target_time] accepted the
    timestamp, and keeps the invariant whatever the timestamp; the
    back-fill inserts the timestamp of the block its search ended on
    without that check. *)
Theorem store_invariant_preserved {price : Type}
    (s : list Z * list Z * list price) (calls : list store_call) :
  parallel s ->
  Sorted Z.le (timestamps_of s) ->
  (forall s', run_calls calls s = Ok s' ->
              parallel s'
              /\ Sorted Z.le (timestamps_of s')
              /\ (non_target_count (timestamps_of s')
                  <= Nat.max 1 (non_target_count (timestamps_of s))
                     + non_target_insertions calls)%nat)
  /\ (store_ok s ->
      non_target_insertions calls = 0%nat ->
      forall s', run_calls calls s = Ok s' -> store_ok s')
  /\ (Forall in_datetime_range (timestamps_of s) ->
      Forall call_in_range calls ->
      exists s', run_calls calls s = Ok s')
  /\ (store_ok s ->
      forall (t b : Z) (p : price) s',
        Prices.monitor_tick (timestamps_of s) (blocks_of s) (prices_of s)
          t b p = Ok s' ->
        store_ok s').
Proof.
  intros Hpar Hs. split; [|split; [|split]].
  - intros s' Hrun. exact (run_calls_bound calls s s' Hpar Hs Hrun).
  - intros (_ & _ & Hc) Hnone s' Hrun.
    destruct (run_calls_bound calls s s' Hpar Hs Hrun) as (Hpar' & Hs' & Hc').
    split; [exact Hpar'|]. split; [exact Hs'|]. lia.
  - intros Hr Hranges. exact (run_calls_return calls s Hpar Hs Hr Hranges).
  - intros Hok t b p s' Hrun. exact (monitor_tick_store_ok s s' t b p Hok Hrun).
Qed.

(** A live current sample at 03:00, a target at 06:00, a newer current
    sample at 07:00, a cleaning pass and an eviction. *)
Lemma store_invariant_preserved_witness :
  store_ok ([0; 21600; 25200], [1; 6; 7], [1%Q; 4%Q; 5%Q]).
Proof.
  refine (proj1 (proj2 (store_invariant_preserved ([0], [1], [1%Q])
    [UpsertCurrent 10800 5 3%Q; InsertTarget 21600 6 4%Q;
     UpsertCurrent 25200 7 5%Q; Clean; EvictOverflow] _ _)) _ _ _ _).
  - split; reflexivity.
  - repeat constructor.
  - unfold store_ok, parallel. cbn. repeat split; auto.
  - reflexivity.
  - reflexivity.
Defined.

(** C3, as stated, fails on the back-fill.  Take a chain of two-second
    blocks that stood still for 100000 seconds after block 150000 and
    whose head, block 200000, carries 1700000000, and back-fill two days
    into the empty store.  For each of the four anchors of the day
    before, the estimate at two seconds per block lands 100000 seconds
    early, before the halt, and each correction of 50000 blocks jumps
    over the halt and back: after ten corrections the search is where it
    started, and the sample of that block is inserted, at 20:13:20,
    02:13:20, 08:13:20 and 14:13:20.  The store then holds four
    non-target samples next to the four targets of the last day.
    It fails on the start state too: a co-indexed, sorted store that
    already holds two non-target samples (02:00 and 03:00) still holds
    both after a target insertion at 06:00. *)
Lemma store_invariant_broken_by_backfill :
  (exists prices : list Float64.pyfloat,
      Prices.collect_historical_data
        (steady_storage (x01 :: repeat x00 12) (x02 :: repeat x00 12))
        (halted_chain 1699500000 150000 100000)
        (Some (200000, 1700000000)) [] [] [] 2
      = Ok ([1699733600; 1699755200; 1699776800; 1699798400;
             1699920000; 1699941600; 1699963200; 1699984800],
            [116800; 127600; 138400; 149200;
             160000; 170800; 181600; 192400], prices)
      /\ map is_non_target
           [1699733600; 1699755200; 1699776800; 1699798400;
            1699920000; 1699941600; 1699963200; 1699984800]
         = [true; true; true; true; false; false; false; false])
  /\ ~ (forall (getStorageAt : nat -> string -> string -> Z -> result (list byte))
               (getBlock : Z -> result Z) (head : option (Z * Z))
               (timestamps blocks : list Z) (prices : list Float64.pyfloat)
               (target_days : Z) (s' : list Z * list Z * list Float64.pyfloat),
           store_ok (timestamps, blocks, prices) ->
           Prices.collect_historical_data getStorageAt getBlock head
             timestamps blocks prices target_days = Ok s' ->
           store_ok s')
  /\ ~ (forall (s s' : list Z * list Z * list Q) (calls : list store_call),
           parallel s ->
           Sorted Z.le (timestamps_of s) ->
           non_target_insertions calls = 0%nat ->
           run_calls calls s = Ok s' ->
           store_ok s').
Proof.
  assert (Hrun : exists prices : list Float64.pyfloat,
             Prices.collect_historical_data
               (steady_storage (x01 :: repeat x00 12) (x02 :: repeat x00 12))
               (halted_chain 1699500000 150000 100000)
               (Some (200000, 1700000000)) [] [] [] 2
             = Ok ([1699733600; 1699755200; 1699776800; 1699798400;
                    1699920000; 1699941600; 1699963200; 1699984800],
                   [116800; 127600; 138400; 149200;
                    160000; 170800; 181600; 192400], prices)).
  { eexists. vm_compute. reflexivity. }
  split; [|split].
  - destruct Hrun as [prices Hrun]. exists prices.
    split; [exact Hrun | vm_compute; reflexivity].
  - intros H. destruct Hrun as [prices Hrun].
    destruct (H _ _ _ [] [] [] _ _ ltac:(unfold store_ok, parallel; cbn;
                                         repeat split; auto) Hrun)
      as (_ & _ & Hcount).
    vm_compute in Hcount. lia.
  - intros H.
    specialize (H ([7200; 10800], [1; 2], [1%Q; 2%Q])
                  ([7200; 10800; 21600], [1; 2; 3], [1%Q; 2%Q; 3%Q])
                  [InsertTarget 21600 3 3%Q]).
    destruct H as (_ & _ & Hcount).
    + split; reflexivity.
    + repeat constructor. cbn. lia.
    + reflexivity.
    + reflexivity.
    + vm_compute in Hcount. lia.
Qed.

(** ** Rounding to binary64 *)

Section Rounding.

Import Float64.

Lemma pow2_pos (k : Z) : 0 < 2 ^ k \/ (k < 0 /\ 2 ^ k = 0).
Proof.
  destruct (Z.lt_ge_cases k 0) as [Hk | Hk].
  - right. split; [exact Hk | apply Z.pow_neg_r, Hk].
  - left. apply Z.pow_pos_nonneg; lia.
Qed.

Lemma pow2_gt0 (k : Z) : 0 <= k -> 0 < 2 ^ k.
Proof. intros. apply Z.pow_pos_nonneg; lia. Qed.

Lemma rne_div_floor (n d : Z) :
  0 < d -> n / d <= rne_div n d <= n / d + 1.
Proof.
  intros Hd. unfold rne_div.
  destruct (2 * (n mod d) ?= d); [destruct (Z.even (n / d))| |]; lia.
Qed.

Lemma rne_div_exact (k d : Z) : 0 < d -> rne_div (k * d) d = k.
Proof.
  intros Hd. unfold rne_div.
  rewrite Z.div_mul, Z.mod_mul by lia.
  destruct (Z.compare_spec (2 * 0) d); lia.
Qed.

Lemma rne_div_mono (n1 n2 d : Z) :
  0 < d -> n1 <= n2 -> rne_div n1 d <= rne_div n2 d.
Proof.
  intros Hd Hn.
  pose proof (Z.div_le_mono n1 n2 d Hd Hn) as Hk.
  destruct (Z.eq_dec (n1 / d) (n2 / d)) as [E | NE].
  - assert (Hr : n1 mod d <= n2 mod d).
    { rewrite !Z.mod_eq by lia. rewrite E. lia. }
    unfold rne_div. rewrite E.
    destruct (Z.compare_spec (2 * (n1 mod d)) d),
             (Z.compare_spec (2 * (n2 mod d)) d),
             (Z.even (n2 / d)); lia.
  - pose proof (rne_div_floor n1 d Hd). pose proof (rne_div_floor n2 d Hd). lia.
Qed.

Lemma rne_div_scale (c n d : Z) :
  0 < c -> 0 < d -> rne_div (c * n) (c * d) = rne_div n d.
Proof.
  intros Hc Hd. unfold rne_div.
  rewrite Z.div_mul_cancel_l, Z.mul_mod_distr_l by lia.
  destruct (Z.compare_spec (2 * (c * (n mod d))) (c * d)),
           (Z.compare_spec (2 * (n mod d)) d); try reflexivity; nia.
Qed.

Lemma rne_div_lower (k n d : Z) :
  0 < d -> k * d <= n -> k <= rne_div n d.
Proof.
  intros Hd H. rewrite <- (rne_div_exact k d Hd). now apply rne_div_mono.
Qed.

Lemma rne_div_upper (k n d : Z) :
  0 < d -> n <= k * d -> rne_div n d <= k.
Proof.
  intros Hd H. rewrite <- (rne_div_exact k d Hd). now apply rne_div_mono.
Qed.

(** Over a power of two the exponent is read off the numerator. *)
Lemma exponent_pow2 (n j : Z) :
  0 < n -> 0 <= j -> exponent n (2 ^ j) = Z.log2 n - j.
Proof.
  intros Hn Hj. unfold exponent.
  rewrite Z.log2_pow2 by lia.
  destruct (Z.log2_spec n Hn) as [Hlo _].
  pose proof (Z.log2_nonneg n) as HL.
  destruct (Z.leb_spec 0 (Z.log2 n - j)) as [Hq | Hq].
  - replace (2 ^ j * 2 ^ (Z.log2 n - j)) with (2 ^ Z.log2 n)
      by (rewrite <- Z.pow_add_r by lia; f_equal; lia).
    apply Z.leb_le in Hlo. rewrite Hlo. reflexivity.
  - assert (H : 2 ^ j <= n * 2 ^ (- (Z.log2 n - j))).
    { replace (2 ^ j) with (2 ^ Z.log2 n * 2 ^ (- (Z.log2 n - j)))
        by (rewrite <- Z.pow_add_r by lia; f_equal; lia).
      apply Z.mul_le_mono_nonneg_r; [apply Z.pow_nonneg; lia | exact Hlo]. }
    apply Z.leb_le in H. rewrite H. reflexivity.
Qed.

(** The significand over a power of two, with numerator and denominator
    brought to a common scale [2^B]. *)
Lemma round_pos_pow2 (n j B : Z) :
  0 < n -> 0 <= j ->
  -1074 <= Z.log2 n - j - 52 ->
  Z.log2 n <= B -> j + 52 <= B ->
  round_pos n (2 ^ j)
  = (rne_div (n * 2 ^ (B - Z.log2 n)) (2 ^ (B - 52)), Z.log2 n - j - 52).
Proof.
  intros Hn Hj Hq HB HB'. unfold round_pos.
  rewrite exponent_pow2 by assumption.
  rewrite Z.max_l by lia.
  set (L := Z.log2 n) in *.
  pose proof (Z.log2_nonneg n) as HL. fold L in HL.
  f_equal.
  destruct (Z.leb_spec 0 (L - j - 52)) as [Hpos | Hneg].
  - rewrite <- (rne_div_scale (2 ^ (B - L)) n (2 ^ j * 2 ^ (L - j - 52)))
      by (try apply Z.mul_pos_pos; apply pow2_gt0; lia).
    rewrite (Z.mul_comm (2 ^ (B - L)) n).
    replace (2 ^ (B - L) * (2 ^ j * 2 ^ (L - j - 52))) with (2 ^ (B - 52));
      [reflexivity|].
    rewrite <- !Z.pow_add_r by lia. f_equal. lia.
  - rewrite <- (rne_div_scale (2 ^ (B - 52 - j)) (n * 2 ^ (- (L - j - 52))) (2 ^ j))
      by (apply pow2_gt0; lia).
    replace (2 ^ (B - 52 - j) * 2 ^ j) with (2 ^ (B - 52))
      by (rewrite <- Z.pow_add_r by lia; f_equal; lia).
    replace (2 ^ (B - 52 - j) * (n * 2 ^ (- (L - j - 52))))
      with (n * 2 ^ (B - L)); [reflexivity|].
    replace (B - L) with ((B - 52 - j) + (- (L - j - 52))) by lia.
    rewrite Z.pow_add_r by lia. lia.
Qed.

Lemma significand_bounds (n B : Z) :
  0 < n -> Z.log2 n <= B -> 52 <= B ->
  2 ^ 52 <= rne_div (n * 2 ^ (B - Z.log2 n)) (2 ^ (B - 52)) <= 2 ^ 53.
Proof.
  intros Hn HB HB'.
  destruct (Z.log2_spec n Hn) as [Hlo Hhi].
  pose proof (Z.log2_nonneg n) as HL.
  set (L := Z.log2 n) in *.
  assert (Hs : 0 < 2 ^ (B - L)) by (apply pow2_gt0; lia).
  split.
  - apply rne_div_lower; [apply pow2_gt0; lia|].
    rewrite <- Z.pow_add_r by lia.
    replace (52 + (B - 52)) with (L + (B - L)) by lia.
    rewrite Z.pow_add_r by lia.
    apply Z.mul_le_mono_nonneg_r; lia.
  - apply rne_div_upper; [apply pow2_gt0; lia|].
    rewrite <- Z.pow_add_r by lia.
    replace (53 + (B - 52)) with (Z.succ L + (B - L)) by lia.
    rewrite Z.pow_add_r by lia.
    apply Z.mul_le_mono_nonneg_r; lia.
Qed.

(** [scale m q] as a fraction over [2^K]. *)
Lemma scale_spec (m q K : Z) :
  0 <= K -> 0 <= q + K ->
  (scale m q == (m * 2 ^ (q + K)) # Z.to_pos (2 ^ K))%Q.
Proof.
  intros HK HqK. unfold scale.
  pose proof (pow2_gt0 K HK) as HpK.
  destruct (Z.leb_spec 0 q) as [Hq | Hq].
  - unfold Qeq, inject_Z. cbn [Qnum Qden].
    rewrite Z2Pos.id by lia. rewrite Z.pow_add_r by lia. lia.
  - rewrite Qred_correct. unfold Qeq. cbn [Qnum Qden].
    rewrite !Z2Pos.id by (try apply pow2_gt0; lia).
    rewrite <- Z.mul_assoc, <- Z.pow_add_r by lia.
    f_equal. f_equal. lia.
Qed.

End Rounding.

(** ** The price of a square-root price *)

Section Price.

Import Float64 Prices.

Lemma int_true_div_pos (n d : Z) :
  0 < n -> 0 < d ->
  int_true_div n d
  = finite (let '(m, q) := round_pos n d in
            if overflows m q then Infinity false else Finite (scale m q)).
Proof.
  intros Hn Hd.
  destruct d as [| d | d]; try lia. destruct n as [| n | n]; try lia.
  reflexivity.
Qed.

Lemma int_true_div_0 (d : Z) : 0 < d -> int_true_div 0 d = Ok 0%Q.
Proof. intros Hd. destruct d as [| d | d]; try lia. reflexivity. Qed.

Lemma price_value (n : Z) :
  0 < n < 2 ^ 320 ->
  exists v : Q,
    int_true_div n Q192 = Ok v
    /\ (v == rounded_numerator n # Z.to_pos (2 ^ 244))%Q.
Proof.
  intros [Hn Hhi].
  assert (HL : 0 <= Z.log2 n < 320).
  { split; [apply Z.log2_nonneg | apply Z.log2_lt_pow2; lia]. }
  rewrite int_true_div_pos by (unfold Q192; lia).
  unfold Q192. rewrite (round_pos_pow2 n 192 320) by lia.
  assert (Hov : overflows
            (rne_div (n * 2 ^ (320 - Z.log2 n)) (2 ^ (320 - 52)))
            (Z.log2 n - 192 - 52) = false).
  { unfold overflows.
    destruct (Z.ltb_spec 971 (Z.log2 n - 192 - 52)); [lia|].
    destruct (Z.eqb_spec (Z.log2 n - 192 - 52) 971); [lia|]. reflexivity. }
  rewrite Hov. cbn [finite]. eexists. split; [reflexivity|].
  rewrite (scale_spec _ _ 244) by lia.
  unfold rounded_numerator.
  replace (Z.log2 n - 192 - 52 + 244) with (Z.log2 n) by lia.
  reflexivity.
Qed.

Lemma rounded_numerator_mono (n1 n2 : Z) :
  0 < n1 -> n1 <= n2 -> n2 < 2 ^ 320 ->
  rounded_numerator n1 <= rounded_numerator n2.
Proof.
  intros Hn1 Hle Hn2. unfold rounded_numerator.
  pose proof (Z.log2_le_mono n1 n2 Hle) as HL.
  assert (HL1 : 0 <= Z.log2 n1) by apply Z.log2_nonneg.
  assert (HL2 : Z.log2 n2 < 320) by (apply Z.log2_lt_pow2; lia).
  pose proof (significand_bounds n1 320 Hn1 ltac:(lia) ltac:(lia)) as [_ Hup].
  pose proof (significand_bounds n2 320 ltac:(lia) ltac:(lia) ltac:(lia)) as [Hlo _].
  change (320 - 52) with 268 in Hup, Hlo.
  set (m1 := rne_div (n1 * 2 ^ (320 - Z.log2 n1)) (2 ^ 268)) in *.
  set (m2 := rne_div (n2 * 2 ^ (320 - Z.log2 n2)) (2 ^ 268)) in *.
  destruct (Z.eq_dec (Z.log2 n1) (Z.log2 n2)) as [E | NE].
  - assert (Hm : m1 <= m2).
    { subst m1 m2. rewrite E. apply rne_div_mono; [apply pow2_gt0; lia|].
      apply Z.mul_le_mono_nonneg_r; [apply Z.pow_nonneg; lia | exact Hle]. }
    rewrite E. apply Z.mul_le_mono_nonneg_r; [apply Z.pow_nonneg; lia | exact Hm].
  - apply Z.le_trans with (2 ^ 53 * 2 ^ Z.log2 n1).
    { apply Z.mul_le_mono_nonneg_r; [apply Z.pow_nonneg; lia | exact Hup]. }
    apply Z.le_trans with (2 ^ 52 * 2 ^ Z.log2 n2).
    { rewrite <- !Z.pow_add_r by lia. apply Z.pow_le_mono_r; lia. }
    apply Z.mul_le_mono_nonneg_r; [apply Z.pow_nonneg; lia | exact Hlo].
Qed.

Lemma rounded_numerator_nonneg (n : Z) :
  0 < n -> n < 2 ^ 320 -> 0 <= rounded_numerator n.
Proof.
  intros Hn Hhi. unfold rounded_numerator.
  assert (HL2 : Z.log2 n < 320) by (apply Z.log2_lt_pow2; lia).
  pose proof (significand_bounds n 320 Hn ltac:(lia) ltac:(lia)) as [Hlo _].
  change (320 - 52) with 268 in Hlo.
  apply Z.mul_nonneg_nonneg; [lia | apply Z.pow_nonneg; lia].
Qed.

Lemma square_bound (a : Z) : 0 <= a < 2 ^ 160 -> a ^ 2 < 2 ^ 320.
Proof.
  intros Ha. change (2 ^ 320) with (2 ^ 160 * 2 ^ 160).
  rewrite Z.pow_2_r. nia.
Qed.

End Price.

(** C7, as the code has it.  [sqrtPriceX96_to_price] is non-decreasing on
    [0 <= a <= b < 2^160]: the quotient is rounded to a double, which
    keeps the order and merges close arguments. *)
Theorem sqrtPriceX96_to_price_monotone (a b : Z) :
  0 <= a -> a <= b -> b < 2 ^ 160 ->
  exists pa pb : Q,
    Prices.sqrtPriceX96_to_price a = Ok pa
    /\ Prices.sqrtPriceX96_to_price b = Ok pb
    /\ (pa <= pb)%Q.
Proof.
  intros Ha Hab Hb. unfold Prices.sqrtPriceX96_to_price.
  assert (Hsq : forall x, 0 < x -> 0 < x ^ 2) by (intros; rewrite Z.pow_2_r; nia).
  destruct (Z.eq_dec b 0) as [-> | Hb0].
  - assert (a = 0) by lia. subst a.
    exists 0%Q, 0%Q. change (0 ^ 2) with 0.
    rewrite int_true_div_0 by (unfold Prices.Q192; lia).
    repeat split. apply Qle_refl.
  - destruct (price_value (b ^ 2)) as (pb & Epb & Hpb).
    { split; [apply Hsq; lia | apply square_bound; lia]. }
    destruct (Z.eq_dec a 0) as [-> | Ha0].
    + exists 0%Q, pb. change (0 ^ 2) with 0.
      rewrite int_true_div_0 by (unfold Prices.Q192; lia).
      repeat split; [exact Epb|].
      rewrite Hpb. unfold Qle. cbn [Qnum Qden].
      pose proof (rounded_numerator_nonneg (b ^ 2)
                    ltac:(apply Hsq; lia) ltac:(apply square_bound; lia)).
      lia.
    + destruct (price_value (a ^ 2)) as (pa & Epa & Hpa).
      { split; [apply Hsq; lia | apply square_bound; lia]. }
      exists pa, pb. repeat split; [exact Epa | exact Epb |].
      rewrite Hpa, Hpb. unfold Qle. cbn [Qnum Qden].
      apply Z.mul_le_mono_nonneg_r; [lia|].
      apply rounded_numerator_mono.
      * apply Hsq; lia.
      * rewrite !Z.pow_2_r. nia.
      * apply square_bound; lia.
Qed.

(** The unit price and its successor. *)
Lemma sqrtPriceX96_to_price_monotone_witness :
  exists pa pb : Q,
    Prices.sqrtPriceX96_to_price (2 ^ 96) = Ok pa
    /\ Prices.sqrtPriceX96_to_price (2 ^ 96 + 1) = Ok pb
    /\ (pa <= pb)%Q.
Proof.
  apply (sqrtPriceX96_to_price_monotone (2 ^ 96) (2 ^ 96 + 1)); lia.
Defined.

(** C7, as stated, fails: [2^96] and [2^96 + 1] both have price [1.0]. *)
Lemma sqrtPriceX96_to_price_not_strict :
  ~ (forall a b : Z,
        0 <= a -> a < b -> b < 2 ^ 160 ->
        exists pa pb : Q,
          Prices.sqrtPriceX96_to_price a = Ok pa
          /\ Prices.sqrtPriceX96_to_price b = Ok pb
          /\ (pa < pb)%Q).
Proof.
  intros H.
  destruct (H (2 ^ 96) (2 ^ 96 + 1)) as (pa & pb & Ea & Eb & Hlt); try lia.
  assert (Ea' : Prices.sqrtPriceX96_to_price (2 ^ 96) = Ok 1%Q)
    by (vm_compute; reflexivity).
  assert (Eb' : Prices.sqrtPriceX96_to_price (2 ^ 96 + 1) = Ok 1%Q)
    by (vm_compute; reflexivity).
  rewrite Ea' in Ea. rewrite Eb' in Eb.
  inversion Ea; inversion Eb; subst.
  revert Hlt. unfold Qlt. cbn. lia.
Qed.

(** ** The retrying storage read *)

Section RetryLoop.

Import Prices.

Variable getStorageAt : nat -> string -> string -> Z -> result (list byte).
Variables (address slot : string) (block retries delay : Z).

Local Abbreviation loop := (retry_loop getStorageAt address slot block retries delay).
Local Abbreviation fails i :=
  (exists e, getStorageAt i address slot block = Raise e).

Local Abbreviation failed_attempts k :=
  (failed_attempts address slot block delay k).

Lemma remote_calls_failed_attempts (k : nat) (rest : list effect) :
  remote_calls (failed_attempts k ++ rest) = (k + remote_calls rest)%nat.
Proof.
  unfold remote_calls, failed_attempts.
  induction k as [| k IH]; [reflexivity|].
  cbn [repeat concat app filter is_remote_call length]. rewrite IH. reflexivity.
Qed.

Lemma time_sleep_returns (seconds : Z) :
  0 <= seconds <= 9223372036 -> time_sleep seconds = Ok tt.
Proof.
  intros H. unfold time_sleep.
  destruct (Z.ltb_spec seconds (-9223372036)); [lia|].
  destruct (Z.ltb_spec 9223372036 seconds); [lia|].
  destruct (Z.ltb_spec seconds 0); [lia|]. reflexivity.
Qed.

Lemma time_sleep_negative (seconds : Z) :
  seconds < 0 ->
  time_sleep seconds
  = Raise (if seconds <? -9223372036 then OverflowError else ValueError).
Proof.
  intros H. unfold time_sleep.
  destruct (Z.ltb_spec seconds (-9223372036)); [reflexivity|].
  destruct (Z.ltb_spec 9223372036 seconds); [lia|].
  destruct (Z.ltb_spec seconds 0); [reflexivity | lia].
Qed.

Hypothesis Hsleep : time_sleep delay = Ok tt.

Lemma retry_loop_success (k : nat) (data : list byte) :
  forall remaining attempt : nat,
    (k < remaining)%nat ->
    (forall i, (i < k)%nat -> fails (attempt + i)%nat) ->
    getStorageAt (attempt + k)%nat address slot block = Ok data ->
    loop remaining attempt
    = (Ok (int_from_bytes_big data),
       failed_attempts k ++ [GetStorageAt address slot block]).
Proof.
  induction k as [| k IH]; intros remaining attempt Hk Hfail Hok.
  - destruct remaining as [| remaining]; [lia|].
    cbn [retry_loop]. rewrite Nat.add_0_r in Hok. rewrite Hok. reflexivity.
  - destruct remaining as [| remaining]; [lia|].
    cbn [retry_loop].
    destruct (Hfail 0%nat ltac:(lia)) as [e He].
    rewrite Nat.add_0_r in He. rewrite He, Hsleep.
    rewrite (IH remaining (S attempt)).
    + reflexivity.
    + lia.
    + intros i Hi. replace (S attempt + i)%nat with (attempt + S i)%nat by lia.
      apply Hfail. lia.
    + replace (S attempt + k)%nat with (attempt + S k)%nat by lia. exact Hok.
Qed.

Lemma retry_loop_exhausted :
  forall remaining attempt : nat,
    (forall i, (i < remaining)%nat -> fails (attempt + i)%nat) ->
    loop remaining attempt
    = (Raise (RuntimeError slot retries), failed_attempts remaining).
Proof.
  induction remaining as [| remaining IH]; intros attempt Hfail.
  - reflexivity.
  - cbn [retry_loop].
    destruct (Hfail 0%nat ltac:(lia)) as [e He].
    rewrite Nat.add_0_r in He. rewrite He, Hsleep.
    rewrite (IH (S attempt)); [reflexivity|].
    intros i Hi. replace (S attempt + i)%nat with (attempt + S i)%nat by lia.
    apply Hfail. lia.
Qed.

End RetryLoop.

Section RetryLoopAnyDelay.

Import Prices.

Variable getStorageAt : nat -> string -> string -> Z -> result (list byte).
Variables (address slot : string) (block retries delay : Z).

Local Abbreviation loop := (retry_loop getStorageAt address slot block retries delay).

Lemma retry_loop_calls :
  forall remaining attempt : nat,
    (remote_calls (snd (loop remaining attempt)) <= remaining)%nat.
Proof.
  induction remaining as [| remaining IH]; intros attempt.
  - cbn. lia.
  - cbn [retry_loop].
    destruct (getStorageAt attempt address slot block) as [data | e].
    + cbn. lia.
    + destruct (time_sleep delay) as [[] | e']; [| cbn; lia].
      specialize (IH (S attempt)).
      destruct (loop remaining (S attempt)) as [r trace].
      cbn [snd] in *. unfold remote_calls in *.
      cbn [filter is_remote_call length]. lia.
Qed.

(** A sleep that raises ends the call after the first failed read. *)
Lemma retry_loop_sleep_raises (e e' : exn) :
  forall remaining attempt : nat,
    getStorageAt attempt address slot block = Raise e ->
    time_sleep delay = Raise e' ->
    loop (S remaining) attempt
    = (Raise e', [GetStorageAt address slot block]).
Proof.
  intros remaining attempt He Hs. cbn [retry_loop]. rewrite He, Hs.
  reflexivity.
Qed.

End RetryLoopAnyDelay.

(** C6.  With the default five retries [get_storage_with_retry] reads the
    slot at most five times.  If attempt [k + 1] is the first to succeed,
    the call returns the big-endian integer of the bytes that attempt
    fetched, after exactly [k + 1] reads; if all five attempts fail, it
    raises the error that carries the slot and the count 5, after exactly
    five reads. *)
Theorem get_storage_with_retry_five_attempts
    (getStorageAt : nat -> string -> string -> Z -> result (list byte))
    (address slot : string) (block : Z) :
  let run :=
    Prices.get_storage_with_retry getStorageAt address slot block 5 2 in
  (remote_calls (snd run) <= 5)%nat
  /\ (forall (k : nat) (data : list byte),
         (k < 5)%nat ->
         (forall i, (i < k)%nat ->
                    exists e, getStorageAt i address slot block = Raise e) ->
         getStorageAt k address slot block = Ok data ->
         fst run = Ok (int_from_bytes_big data)
         /\ remote_calls (snd run) = S k)
  /\ ((forall i, (i < 5)%nat ->
                 exists e, getStorageAt i address slot block = Raise e) ->
      fst run = Raise (RuntimeError slot 5)
      /\ remote_calls (snd run) = 5%nat).
Proof.
  intros run. subst run. unfold Prices.get_storage_with_retry.
  change (Z.to_nat 5) with 5%nat.
  split; [apply retry_loop_calls|]. split.
  - intros k data Hk Hfail Hok.
    rewrite (retry_loop_success getStorageAt address slot block 5 2
               eq_refl k data 5 0) by assumption.
    cbn [fst snd]. split; [reflexivity|].
    rewrite remote_calls_failed_attempts. cbn. lia.
  - intros Hfail.
    rewrite (retry_loop_exhausted getStorageAt address slot block 5 2
               eq_refl 5 0) by assumption.
    cbn [fst snd]. split; [reflexivity|].
    rewrite <- (app_nil_r (failed_attempts _ _ _ _ _)).
    rewrite remote_calls_failed_attempts. reflexivity.
Qed.

(** A node that fails three times and then answers the two bytes [01 00]:
    the fourth attempt returns 256 and no fifth read is made. *)
Lemma get_storage_with_retry_five_attempts_witness :
  let run :=
    Prices.get_storage_with_retry
      (fun attempt _ _ _ =>
         if (attempt <? 3)%nat then Raise RpcError else Ok [x01; x00]%byte)
      "pool_manager" "pool_slot" 34582182 5 2 in
  fst run = Ok 256 /\ remote_calls (snd run) = 4%nat.
Proof.
  refine (proj1 (proj2 (get_storage_with_retry_five_attempts
    (fun attempt _ _ _ =>
       if (attempt <? 3)%nat then Raise RpcError else Ok [x01; x00]%byte)
    "pool_manager" "pool_slot" 34582182)) 3%nat [x01; x00]%byte _ _ _).
  - lia.
  - intros i Hi. exists RpcError.
    destruct i as [| [| [| i]]]; try reflexivity; lia.
  - reflexivity.
Defined.

(** ** The block estimate *)

Section Estimate.

Import Float64 Prices.

Lemma Qred_inject_Z (n : Z) : Qred (inject_Z n) = inject_Z n.
Proof.
  unfold Qred, inject_Z.
  pose proof (Z.ggcd_gcd n 1) as Hg.
  pose proof (Z.ggcd_correct_divisors n 1) as Hd.
  destruct (Z.ggcd n 1) as [g [aa bb]]. cbn [fst snd] in *.
  rewrite Z.gcd_1_r in Hg. subst g. destruct Hd as [Ha Hb].
  f_equal; [lia|]. replace bb with 1 by lia. reflexivity.
Qed.

(** The values [scale] produces are in lowest terms. *)
Lemma scale_canonical (m q : Z) (x : Q) :
  (scale m q == x)%Q -> scale m q = Qred x.
Proof.
  unfold scale. destruct (0 <=? q); intros H.
  - rewrite <- Qred_inject_Z. apply Qred_complete, H.
  - apply Qred_complete. rewrite <- H. symmetry. apply Qred_correct.
Qed.

(** An integer of at most 53 bits over a power of two is a binary64
    value: rounding leaves it alone. *)
Lemma round_pos_dyadic (n j : Z) :
  0 < n < 2 ^ 53 -> 0 <= j <= 1000 ->
  exists m q,
    round_pos n (2 ^ j) = (m, q)
    /\ overflows m q = false
    /\ scale m q = Qred (n # Z.to_pos (2 ^ j)).
Proof.
  intros [Hn Hhi] Hj.
  assert (HL : 0 <= Z.log2 n < 53).
  { split; [apply Z.log2_nonneg | apply Z.log2_lt_pow2; lia]. }
  set (L := Z.log2 n) in *.
  exists (n * 2 ^ (52 - L)), (L - j - 52).
  assert (Hm : rne_div (n * 2 ^ (j + 53 - L)) (2 ^ (j + 53 - 52))
               = n * 2 ^ (52 - L)).
  { replace (n * 2 ^ (j + 53 - L))
      with (n * 2 ^ (52 - L) * 2 ^ (j + 53 - 52)).
    - apply rne_div_exact, pow2_gt0. lia.
    - rewrite <- Z.mul_assoc, <- Z.pow_add_r by lia. f_equal. f_equal. lia. }
  repeat split.
  - rewrite (round_pos_pow2 n j (j + 53)) by (fold L; lia).
    fold L. rewrite Hm. reflexivity.
  - unfold overflows.
    destruct (Z.ltb_spec 971 (L - j - 52)); [lia|].
    destruct (Z.eqb_spec (L - j - 52) 971); [lia|]. reflexivity.
  - apply scale_canonical.
    rewrite (scale_spec _ _ (j + 52)) by lia.
    unfold Qeq. cbn [Qnum Qden].
    rewrite !Z2Pos.id by (apply pow2_gt0; lia).
    replace (L - j - 52 + (j + 52)) with L by lia.
    rewrite <- !Z.mul_assoc, <- !Z.pow_add_r by lia.
    f_equal. f_equal. lia.
Qed.

Lemma round_dyadic (k j : Z) :
  Z.abs k < 2 ^ 53 -> 0 <= j <= 1000 ->
  round (k # Z.to_pos (2 ^ j)) = Finite (Qred (k # Z.to_pos (2 ^ j))).
Proof.
  intros Hk Hj.
  assert (Hd : Z.pos (Z.to_pos (2 ^ j)) = 2 ^ j)
    by (apply Z2Pos.id, pow2_gt0; lia).
  unfold round. cbn [Qnum Qden]. rewrite Hd.
  destruct k as [| p | p].
  - reflexivity.
  - destruct (round_pos_dyadic (Z.pos p) j ltac:(lia) ltac:(lia))
      as (m & q & -> & -> & ->).
    reflexivity.
  - destruct (round_pos_dyadic (Z.pos p) j ltac:(lia) ltac:(lia))
      as (m & q & -> & -> & ->).
    rewrite <- Qred_opp. reflexivity.
Qed.

Lemma quot_Qeq (x y : Q) :
  (x == y)%Q ->
  Z.quot (Qnum x) (Z.pos (Qden x)) = Z.quot (Qnum y) (Z.pos (Qden y)).
Proof.
  destruct x as [a b], y as [c d]. unfold Qeq. cbn [Qnum Qden]. intros H.
  rewrite <- (Z.quot_mul_cancel_r a (Z.pos b) (Z.pos d)) by lia.
  rewrite H, (Z.mul_comm (Z.pos b) (Z.pos d)).
  apply Z.quot_mul_cancel_r; lia.
Qed.

Lemma float_of_int_exact (a : Z) :
  Z.abs a < 2 ^ 53 -> float_of_int a = Ok (inject_Z a).
Proof.
  intros Ha. unfold float_of_int, inject_Z.
  change 1%positive with (Z.to_pos (2 ^ 0)).
  rewrite round_dyadic by lia. cbn [finite]. f_equal.
  apply (Qred_inject_Z a).
Qed.

Lemma int_true_div_two (a : Z) :
  Z.abs a < 2 ^ 53 ->
  exists half : Q,
    int_true_div a 2 = Ok half
    /\ int_of_float (Finite half) = Ok (Z.quot a 2).
Proof.
  intros Ha. exists (Qred (a # 2)). unfold int_true_div.
  change 2%positive with (Z.to_pos (2 ^ 1)).
  rewrite round_dyadic by lia. split; [reflexivity|].
  unfold int_of_float. f_equal.
  apply (quot_Qeq (Qred (a # Z.to_pos (2 ^ 1))) (a # 2)), Qred_correct.
Qed.

(** At two seconds per block the block distance is half the time
    distance, truncated. *)
Lemma blocks_between_two (time_diff : Z) :
  Z.abs time_diff < 2 ^ 53 ->
  blocks_between time_diff 2 = Ok (Z.quot time_diff 2).
Proof.
  intros Ha. unfold blocks_between.
  rewrite float_of_int_exact by exact Ha. cbn [bind].
  unfold float_div. change (Qeq_bool 2 0) with false. cbv iota.
  cbn [bind].
  assert (E : (inject_Z time_diff / 2)%Q = (time_diff * 1 # Z.to_pos (2 ^ 1))%Q)
    by reflexivity.
  rewrite E, Z.mul_1_r, round_dyadic by lia.
  unfold int_of_float. f_equal.
  apply (quot_Qeq (Qred (time_diff # Z.to_pos (2 ^ 1))) (time_diff # 2)),
    Qred_correct.
Qed.

(** A true division of [int]s below [2^1000] in magnitude returns. *)
Lemma int_true_div_returns (n d : Z) :
  0 < n < 2 ^ 1000 -> 0 < d -> exists v, int_true_div n d = Ok v.
Proof.
  intros [Hn Hhi] Hd. rewrite int_true_div_pos by assumption.
  unfold round_pos.
  assert (He : exponent n d <= Z.log2 n).
  { unfold exponent. pose proof (Z.log2_nonneg d).
    destruct (if 0 <=? Z.log2 n - Z.log2 d
              then d * 2 ^ (Z.log2 n - Z.log2 d) <=? n
              else d <=? n * 2 ^ (- (Z.log2 n - Z.log2 d))); lia. }
  assert (HL : Z.log2 n < 1000) by (apply Z.log2_lt_pow2; lia).
  set (q := Z.max (exponent n d - 52) (-1074)).
  assert (Hq : q < 971) by (subst q; lia).
  unfold overflows.
  destruct (Z.ltb_spec 971 q); [lia|].
  destruct (Z.eqb_spec q 971); [lia|].
  cbn [orb andb finite]. eexists. reflexivity.
Qed.

Lemma estimate_block_except_value (target_timestamp current_block current_timestamp : Z) :
  Z.abs (current_timestamp - target_timestamp) < 2 ^ 53 ->
  estimate_block_except target_timestamp current_block current_timestamp
  = Ok (Z.max 1 (current_block
                 - Z.quot (current_timestamp - target_timestamp) 2)).
Proof.
  intros Ha. unfold estimate_block_except.
  destruct (int_true_div_two _ Ha) as (half & -> & Hq).
  cbn [bind]. rewrite Hq. reflexivity.
Qed.

(** The prefix of the [try] block up to the read of the reference
    block. *)
Lemma estimate_block_try_unfold (getBlock : Z -> result Z)
    (target_timestamp current_block current_timestamp : Z) :
  estimate_block_try getBlock target_timestamp current_block current_timestamp
  = (sample_timestamp_24h_ago <- getBlock (Z.max 1 (current_block - 43200)) ;;
     rate <- seconds_per_block
               (current_timestamp - sample_timestamp_24h_ago)
               (current_block - Z.max 1 (current_block - 43200)) ;;
     blocks_diff <-
       blocks_between (current_timestamp - target_timestamp) rate ;;
     Ok (Z.max 1 (current_block - blocks_diff))).
Proof.
  unfold estimate_block_try.
  assert (E : int_true_div (24 * 60 * 60) 2 = Ok 43200%Q)
    by (vm_compute; reflexivity).
  rewrite E. reflexivity.
Qed.

End Estimate.

(** C8, as the code has it.  [estimate_block_from_timestamp] reads the
    reference block [max(1, current_block - 43200)].  Whenever that read
    fails, or the block difference or the time difference to the reference
    is not positive, the rate is 2 seconds per block and the estimate is
    [max(1, current_block - trunc(time_diff / 2))].  When both differences
    are positive the rate is their rounded quotient, and the estimate is
    [max(1, current_block - int(time_diff / rate))], [int] truncating
    toward zero (falling back to the 2-second estimate should that
    quotient not convert).  In every case a block number of at least 1 is
    returned.  With [current_block = 1000], the reference block read 1998
    seconds before the head and a target 100 seconds back, the estimate
    is block 950. *)
Theorem estimate_block_from_timestamp_rates
    (getBlock : Z -> result Z)
    (target_timestamp current_block current_timestamp : Z) :
  let reference_block := Z.max 1 (current_block - 43200) in
  let time_diff := current_timestamp - target_timestamp in
  let estimate :=
    Prices.estimate_block_from_timestamp getBlock target_timestamp
      current_block current_timestamp in
  let two_second_estimate :=
    Ok (Z.max 1 (current_block - Z.quot time_diff 2)) in
  Z.abs time_diff < 2 ^ 53 ->
  (exists estimated_block, estimate = Ok estimated_block /\ 1 <= estimated_block)
  /\ (forall e, getBlock reference_block = Raise e ->
                estimate = two_second_estimate)
  /\ (forall reference_timestamp,
         getBlock reference_block = Ok reference_timestamp ->
         current_block - reference_block <= 0
         \/ current_timestamp - reference_timestamp <= 0 ->
         estimate = two_second_estimate)
  /\ (forall reference_timestamp,
         getBlock reference_block = Ok reference_timestamp ->
         0 < current_block - reference_block ->
         0 < current_timestamp - reference_timestamp < 2 ^ 1000 ->
         exists rate : Q,
           Float64.int_true_div (current_timestamp - reference_timestamp)
             (current_block - reference_block) = Ok rate
           /\ (forall k, Prices.blocks_between time_diff rate = Ok k ->
                         estimate = Ok (Z.max 1 (current_block - k)))
           /\ (forall e, Prices.blocks_between time_diff rate = Raise e ->
                         estimate = two_second_estimate))
  /\ (forall reference_timestamp,
         getBlock reference_block = Ok reference_timestamp ->
         current_block = 1000 ->
         current_timestamp - reference_timestamp = 1998 ->
         time_diff = 100 ->
         estimate = Ok 950).
Proof.
  intros reference_block time_diff estimate two_second_estimate Habs.
  assert (Hexcept :
    Prices.estimate_block_except target_timestamp current_block
      current_timestamp = two_second_estimate)
    by (apply estimate_block_except_value, Habs).
  subst estimate. unfold Prices.estimate_block_from_timestamp.
  rewrite estimate_block_try_unfold. fold reference_block time_diff.
  split; [|split; [|split; [|split]]].
  - rewrite Hexcept.
    destruct (getBlock reference_block) as [rts|];
      [|eexists; split; [reflexivity | lia]].
    cbn [bind].
    destruct (Prices.seconds_per_block _ _) as [rate|];
      [|eexists; split; [reflexivity | lia]].
    cbn [bind].
    destruct (Prices.blocks_between time_diff rate) as [k|];
      eexists; (split; [reflexivity | lia]).
  - intros e He. rewrite He. cbn [bind]. exact Hexcept.
  - intros rts Hget Hguard. rewrite Hget. cbn [bind].
    unfold Prices.seconds_per_block.
    assert (G : (current_block - reference_block >? 0)
                && (current_timestamp - rts >? 0) = false).
    { apply andb_false_iff.
      destruct Hguard; [left | right]; rewrite Z.gtb_ltb; apply Z.ltb_ge; lia. }
    rewrite G. cbn [bind].
    rewrite (blocks_between_two time_diff Habs). reflexivity.
  - intros rts Hget Hblocks Htime. rewrite Hget. cbn [bind].
    unfold Prices.seconds_per_block.
    assert (G : (current_block - reference_block >? 0)
                && (current_timestamp - rts >? 0) = true).
    { apply andb_true_iff. split; rewrite Z.gtb_ltb; apply Z.ltb_lt; lia. }
    rewrite G.
    destruct (int_true_div_returns (current_timestamp - rts)
                (current_block - reference_block) Htime Hblocks)
      as (rate & Erate).
    destruct (int_true_div_returns (current_timestamp - rts) 3600
                Htime ltac:(lia)) as (hours & Ehours).
    exists rate. rewrite Erate, Ehours. cbn [bind].
    split; [reflexivity|]. split.
    + intros k Ek. rewrite Ek. reflexivity.
    + intros e Ee. rewrite Ee. exact Hexcept.
  - intros rts Hget Hcb Hdiff Htd. rewrite Hget. cbn [bind].
    subst reference_block. subst current_block.
    change (Z.max 1 (1000 - 43200)) with 1.
    rewrite Hdiff, Htd. reflexivity.
Qed.

(** A chain with two seconds between blocks, the head at block 1000. *)
Lemma estimate_block_from_timestamp_rates_witness :
  Prices.estimate_block_from_timestamp
    (fun b => Ok (1700000000 - 2 * (1000 - b)))
    (1700000000 - 100) 1000 1700000000
  = Ok 950.
Proof.
  refine (proj2 (proj2 (proj2 (proj2 (estimate_block_from_timestamp_rates
    (fun b => Ok (1700000000 - 2 * (1000 - b)))
    (1700000000 - 100) 1000 1700000000 _)))) (1700000000 - 1998) _ _ _ _).
  - cbn. lia.
  - reflexivity.
  - reflexivity.
  - reflexivity.
  - reflexivity.
Defined.

(** C8, as stated, fails twice over.  The reference block is the code's
    choice, block 1 under a head at block 1000: on a chain that reached
    block 900 two hundred seconds before the head and block 1 some 9990
    seconds before it, the estimate for a target 100 seconds back is block
    990, not 950.  And the 2-second rate is also taken when the time
    difference is not positive: with the reference block stamped 999
    seconds after the head the code answers 950, where the stated rule
    divides by the negative rate and answers 1100. *)
Lemma estimate_block_from_timestamp_guards_time :
  ~ (forall (getBlock : Z -> result Z) (T : Z),
        getBlock 900 = Ok (T - 200) ->
        Prices.estimate_block_from_timestamp getBlock (T - 100) 1000 T
        = Ok 950)
  /\ ~ (forall (getBlock : Z -> result Z)
               (target_timestamp current_block current_timestamp
                reference_timestamp : Z),
           getBlock (Z.max 1 (current_block - 43200)) = Ok reference_timestamp ->
           Prices.estimate_block_from_timestamp getBlock target_timestamp
             current_block current_timestamp
           = Ok (Prices.specified_estimate target_timestamp current_block
                   current_timestamp (Z.max 1 (current_block - 43200))
                   reference_timestamp)).
Proof.
  split.
  - intros H.
    specialize (H (fun b => if b =? 900 then Ok (1700000000 - 200)
                            else Ok (1700000000 - 9990))
                  1700000000 eq_refl).
    vm_compute in H. discriminate H.
  - intros H.
    specialize (H (fun _ => Ok 1700000999) 1699999900 1000 1700000000
                  1700000999 eq_refl).
    vm_compute in H. discriminate H.
Qed.

(** ** The mined-block scan *)

Section ProcessTransaction.

Import Fetcher.

Lemma hex_byte_digits (b : byte) : forallb is_hex_digit (hex_byte b) = true.
Proof. destruct b; reflexivity. Qed.

Lemma hex_digits_all (bs : list byte) :
  Forall (fun c => is_hex_digit c = true) (flat_map hex_byte bs).
Proof.
  induction bs as [| b bs IH]; [constructor|].
  cbn [flat_map]. apply Forall_app. split; [|exact IH].
  apply Forall_forall. apply forallb_forall. exact (hex_byte_digits b).
Qed.

Lemma hex_value_range (c : ascii) (v : Z) :
  hex_value c = Some v -> 0 <= v < 16.
Proof.
  unfold hex_value. set (code := Z.of_N (N_of_ascii c)).
  destruct (Z.leb_spec 48 code), (Z.leb_spec code 57),
           (Z.leb_spec 97 code), (Z.leb_spec code 102),
           (Z.leb_spec 65 code), (Z.leb_spec code 70);
    cbn [andb]; intros Hv; try discriminate Hv; inversion Hv; lia.
Qed.

Lemma int16_digits_returns (s : str) :
  Forall (fun c => is_hex_digit c = true) s ->
  forall acc, 0 <= acc ->
    exists n, int16_digits s acc = Ok n
              /\ 0 <= n < (acc + 1) * 16 ^ Z.of_nat (length s).
Proof.
  induction 1 as [| c s Hc _ IH]; intros acc Hacc.
  - exists acc. cbn. split; [reflexivity | lia].
  - cbn [int16_digits]. unfold is_hex_digit in Hc.
    destruct (hex_value c) as [v|] eqn:Ev; [|discriminate].
    apply hex_value_range in Ev.
    destruct (IH (acc * 16 + v) ltac:(lia)) as (n & En & Hn).
    exists n. split; [exact En|].
    cbn [length]. rewrite Nat2Z.inj_succ, Z.pow_succ_r by lia.
    assert (0 < 16 ^ Z.of_nat (length s)) by (apply Z.pow_pos_nonneg; lia).
    nia.
Qed.

Lemma Forall_firstn {A : Type} (P : A -> Prop) (n : nat) (s : list A) :
  Forall P s -> Forall P (firstn n s).
Proof.
  intros H. rewrite <- (firstn_skipn n s) in H.
  apply Forall_app in H. apply H.
Qed.

(** The amount field of a payload always decodes. *)
Lemma data_amt_returns (payload : list byte) :
  exists data_amt,
    (if (66 <=? length (hex payload))%nat then
       wei <- int16 (slice 2 66 (hex payload)) ;;
       eth <- Float64.int_true_div wei (10 ^ 18) ;;
       Ok (FloatAmount eth)
     else Ok (IntAmount 0)) = Ok data_amt
    /\ data_amt <> IntAmount (-1).
Proof.
  destruct (Nat.leb_spec 66 (length (hex payload))) as [Hlen | Hlen].
  2:{ exists (IntAmount 0). split; [reflexivity | discriminate]. }
  assert (Hdigits : Forall (fun c => is_hex_digit c = true)
                      (slice 2 66 (hex payload))).
  { change (slice 2 66 (hex payload))
      with (firstn 64 (flat_map hex_byte payload)).
    apply Forall_firstn, hex_digits_all. }
  assert (Hl : length (slice 2 66 (hex payload)) = 64%nat).
  { unfold slice. rewrite length_firstn, length_skipn. lia. }
  destruct (int16_digits_returns _ Hdigits 0 ltac:(lia)) as (wei & Ewei & Hwei).
  rewrite Hl in Hwei.
  assert (E16 : int16 (slice 2 66 (hex payload)) = Ok wei).
  { unfold int16. destruct (slice 2 66 (hex payload)); [discriminate Hl | exact Ewei]. }
  rewrite E16. cbn [bind].
  destruct (Z.eq_dec wei 0) as [-> | Hnz].
  - rewrite int_true_div_0 by lia. cbn [bind].
    exists (FloatAmount 0). split; [reflexivity | discriminate].
  - destruct (int_true_div_returns wei (10 ^ 18)) as (eth & ->).
    + split; [lia|].
      apply Z.lt_trans with ((0 + 1) * 16 ^ Z.of_nat 64); [lia|].
      vm_compute. reflexivity.
    + lia.
    + cbn [bind]. exists (FloatAmount eth). split; [reflexivity | discriminate].
Qed.

Lemma str_eqb_eq (a b : str) : str_eqb a b = true <-> a = b.
Proof.
  unfold str_eqb. destruct (list_eq_dec ascii_dec a b); split; congruence.
Qed.

(** One call of [process_transaction] on an event with a miner topic:
    it returns, having put the event's entry at the head of
    [mined_blocks], with the marker behind it if the challenge changed. *)
Lemma process_transaction_returns (self : fetcher) (tx : transaction) :
  (2 <= length (topics tx))%nat ->
  exists real : entry,
    entry_block real = blockNumber tx
    /\ entry_amount real <> IntAmount (-1)
    /\ process_transaction self tx
       = Ok {| mined_blocks :=
                 real :: markers_added self tx ++ mined_blocks self;
               previous_challenge :=
                 match challenge_of tx with
                 | Some challenger => Some challenger
                 | None => previous_challenge self
                 end |}.
Proof.
  intros Htopics. unfold process_transaction, getitem.
  destruct (topics tx) as [| topic0 [| topic1 more]] eqn:Et;
    cbn [length] in Htopics; try lia.
  cbn [nth_error of_option bind].
  destruct (data_amt_returns (data tx)) as (data_amt & -> & Hamt).
  cbn [bind].
  exists (blockNumber tx, hex (transactionHash tx),
          get_miner_address_from_topic (hex topic1), data_amt).
  split; [reflexivity|]. split; [exact Hamt|].
  unfold markers_added, challenge_of, marker_for, miner_of, first_block_num_of.
  rewrite Et. cbn [nth].
  destruct (194 <=? length (hex (data tx)))%nat; [|reflexivity].
  destruct (previous_challenge self) as [previous|] eqn:Ep; [|reflexivity].
  destruct (str_eqb previous (slice 130 194 (hex (data tx)))) eqn:Eq.
  - apply str_eqb_eq in Eq. subst previous.
    rewrite Ep. cbn [app].
    destruct self as [blocks prev]. cbn in *. subst prev. reflexivity.
  - reflexivity.
Qed.

Lemma process_all_app (self : fetcher) (logs1 logs2 : list transaction)
    (self1 : fetcher) :
  process_all self logs1 = (self1, None) ->
  process_all self (logs1 ++ logs2) = process_all self1 logs2.
Proof.
  revert self. induction logs1 as [| tx logs1 IH]; intros self H.
  - cbn in H. inversion H. reflexivity.
  - cbn [process_all app] in *.
    destruct (process_transaction self tx) as [self'|]; [|discriminate].
    apply IH, H.
Qed.

Lemma process_all_snoc (self : fetcher) (logs : list transaction)
    (tx : transaction) (self1 : fetcher) :
  process_all self (logs ++ [tx]) = (self1, None) ->
  exists self0,
    process_all self logs = (self0, None)
    /\ process_transaction self0 tx = Ok self1.
Proof.
  revert self. induction logs as [| tx' logs IH]; intros self H.
  - cbn [app process_all] in H.
    destruct (process_transaction self tx) as [self'|] eqn:E; [|discriminate].
    inversion H; subst. exists self. split; [reflexivity | exact E].
  - cbn [app process_all] in *.
    destruct (process_transaction self tx') as [self'|]; [|discriminate].
    apply IH, H.
Qed.

End ProcessTransaction.

Section RunOnce.

Import Fetcher.

Lemma process_transaction_topics (self self' : fetcher) (tx : transaction) :
  process_transaction self tx = Ok self' -> (2 <= length (topics tx))%nat.
Proof.
  unfold process_transaction, getitem.
  destruct (topics tx) as [| topic0 [| topic1 more]]; cbn; try discriminate.
  intros _. lia.
Qed.

Lemma scan_loop_unfold (fuel : nat) (w3 : node)
    (batch_size current_block current_start : Z) (s : scan) :
  scan_loop fuel w3 batch_size current_block current_start s =
  if current_start <=? current_block then
    match fuel with
    | O => None
    | S fuel' =>
        let current_end :=
          Z.min (current_start + batch_size - 1) current_block in
        match process_all (self_of s)
                (fetch_logs w3 current_start current_end) with
        | (self', Some _) =>
            Some {| self_of := self';
                    checkpoint := checkpoint s;
                    fetched := fetched s ++ [(current_start, current_end)] |}
        | (self', None) =>
            scan_loop fuel' w3 batch_size current_block (current_end + 1)
              {| self_of := self';
                 checkpoint := save_last_processed_block current_end;
                 fetched := fetched s ++ [(current_start, current_end)] |}
        end
    end
  else Some s.
Proof. destruct fuel; reflexivity. Qed.

(** The ranges already fetched stay, in order, at the front. *)
Lemma scan_loop_fetched (fuel : nat) (w3 : node) (batch_size current_block : Z) :
  forall (current_start : Z) (s s' : scan),
    scan_loop fuel w3 batch_size current_block current_start s = Some s' ->
    exists rest, fetched s' = fetched s ++ rest.
Proof.
  induction fuel as [| fuel IH]; intros current_start s s' H;
    rewrite scan_loop_unfold in H;
    destruct (current_start <=? current_block).
  - discriminate.
  - inversion H; subst. exists []. now rewrite app_nil_r.
  - cbv zeta in H.
    destruct (process_all _ _) as [self' [e|]].
    + inversion H; subst. cbn [fetched]. eexists. reflexivity.
    + apply IH in H. destruct H as [rest Hrest]. cbn [fetched] in Hrest.
      rewrite <- app_assoc in Hrest. eexists. exact Hrest.
  - inversion H; subst. exists []. now rewrite app_nil_r.
Qed.

(** With a positive batch size the loop ends within one iteration per
    block. *)
Lemma scan_loop_returns (w3 : node) (batch_size current_block : Z) :
  1 <= batch_size ->
  forall (fuel : nat) (current_start : Z) (s : scan),
    (Z.to_nat (current_block - current_start + 1) <= fuel)%nat ->
    exists s', scan_loop fuel w3 batch_size current_block current_start s
               = Some s'.
Proof.
  intros Hbatch. induction fuel as [| fuel IH]; intros current_start s Hfuel;
    rewrite scan_loop_unfold;
    destruct (Z.leb_spec current_start current_block) as [Hle | Hgt];
    try (eexists; reflexivity).
  - lia.
  - cbv zeta. destruct (process_all _ _) as [self' [e|]].
    + eexists. reflexivity.
    + apply IH. lia.
Qed.

(** [run_once] opens with the range that starts at the loaded
    checkpoint itself. *)
Lemma run_once_first_window (fuel : nat) (w3 : node)
    (batch_size current_block : Z) (s s' : scan) :
  latest_block_number w3 = Ok current_block ->
  load_last_processed_block (checkpoint s) <= current_block ->
  run_once fuel w3 batch_size s = Some s' ->
  exists rest,
    fetched s'
    = fetched s
      ++ (load_last_processed_block (checkpoint s),
          Z.min (load_last_processed_block (checkpoint s) + batch_size - 1)
            current_block) :: rest.
Proof.
  intros Hhead Hle H. unfold run_once in H. rewrite Hhead in H.
  destruct (Z.gtb_spec (load_last_processed_block (checkpoint s)) current_block);
    [lia|].
  rewrite scan_loop_unfold in H.
  destruct (Z.leb_spec (load_last_processed_block (checkpoint s)) current_block);
    [|lia].
  destruct fuel as [| fuel]; [discriminate|]. cbv zeta in H.
  destruct (process_all _ _) as [self' [e|]].
  - inversion H; subst. cbn [fetched]. exists []. reflexivity.
  - apply scan_loop_fetched in H. destruct H as [rest Hrest].
    cbn [fetched] in Hrest. rewrite <- app_assoc in Hrest.
    exists rest. exact Hrest.
Qed.

End RunOnce.

(** C5, as the code has it.  Folding events through
    [process_transaction] in order: when
    event [e2] follows event [e1] and both carry a challenge field, [e2]
    is processed and its entry goes to the head of [mined_blocks]; if the
    two challenges differ, exactly one marker with amount [-1] sits behind
    that entry, carrying [first_block_num]: the block of the first entry
    of [mined_blocks] before the change, an entry of the previous
    challenge, namely [e1]'s; if they agree, there is no marker.
    An event processed while the challenge is still unset adds its entry
    and no marker. *)
Theorem challenge_change_marker :
  (forall (self0 self1 : Fetcher.fetcher)
          (earlier : list Fetcher.transaction) (e1 e2 : Fetcher.transaction)
          (c1 c2 : Fetcher.str),
      Fetcher.process_all self0 (earlier ++ [e1]) = (self1, None) ->
      challenge_of e1 = Some c1 ->
      challenge_of e2 = Some c2 ->
      (2 <= length (Fetcher.topics e2))%nat ->
      exists (self2 : Fetcher.fetcher) (real : Fetcher.entry),
        Fetcher.process_all self0 (earlier ++ [e1; e2]) = (self2, None)
        /\ Fetcher.entry_block real = Fetcher.blockNumber e2
        /\ Fetcher.entry_amount real <> Fetcher.IntAmount (-1)
        /\ Fetcher.previous_challenge self2 = Some c2
        /\ (exists first : Fetcher.entry,
               hd_error (Fetcher.mined_blocks self1) = Some first
               /\ Fetcher.entry_block first = Fetcher.blockNumber e1)
        /\ (c1 <> c2 ->
            Fetcher.mined_blocks self2
            = real :: marker_for (Fetcher.blockNumber e1) e2
                   :: Fetcher.mined_blocks self1)
        /\ (c1 = c2 ->
            Fetcher.mined_blocks self2 = real :: Fetcher.mined_blocks self1))
  /\ (forall (self : Fetcher.fetcher) (e : Fetcher.transaction),
         Fetcher.previous_challenge self = None ->
         (2 <= length (Fetcher.topics e))%nat ->
         exists (self' : Fetcher.fetcher) (real : Fetcher.entry),
           Fetcher.process_transaction self e = Ok self'
           /\ Fetcher.entry_amount real <> Fetcher.IntAmount (-1)
           /\ Fetcher.mined_blocks self' = real :: Fetcher.mined_blocks self
           /\ Fetcher.previous_challenge self' = challenge_of e).
Proof.
  split.
  - intros self0 self1 earlier e1 e2 c1 c2 Hfold Hc1 Hc2 Htopics.
    apply process_all_snoc in Hfold. destruct Hfold as (self & Hearlier & He1).
    pose proof (process_transaction_topics _ _ _ He1) as Htopics1.
    destruct (process_transaction_returns self e1 Htopics1)
      as (real1 & Hblock1 & _ & Eself1).
    rewrite Hc1 in Eself1.
    assert (Hself1 :
      self1 = {| Fetcher.mined_blocks :=
                   real1 :: markers_added self e1 ++ Fetcher.mined_blocks self;
                 Fetcher.previous_challenge := Some c1 |}) by congruence.
    destruct (process_transaction_returns self1 e2 Htopics)
      as (real & Hblock & Hamount & Eself2).
    rewrite Hc2 in Eself2.
    exists {| Fetcher.mined_blocks :=
                real :: markers_added self1 e2 ++ Fetcher.mined_blocks self1;
              Fetcher.previous_challenge := Some c2 |}, real.
    split.
    { replace (earlier ++ [e1; e2]) with ((earlier ++ [e1]) ++ [e2])
        by (rewrite <- app_assoc; reflexivity).
      rewrite (process_all_app self0 (earlier ++ [e1]) [e2] self1).
      - cbn [Fetcher.process_all]. rewrite Eself2. reflexivity.
      - rewrite (process_all_app self0 earlier [e1] self Hearlier).
        cbn [Fetcher.process_all]. rewrite He1. reflexivity. }
    assert (Hprev1 : Fetcher.previous_challenge self1 = Some c1)
      by (rewrite Hself1; reflexivity).
    assert (Hfirst : first_block_num_of self1 e2 = Fetcher.blockNumber e1)
      by (unfold first_block_num_of; rewrite Hself1; exact Hblock1).
    assert (Hhead : exists first : Fetcher.entry,
               hd_error (Fetcher.mined_blocks self1) = Some first
               /\ Fetcher.entry_block first = Fetcher.blockNumber e1).
    { exists real1. rewrite Hself1. split; [reflexivity | exact Hblock1]. }
    clear Hself1 Eself1 Eself2.
    cbn [Fetcher.mined_blocks Fetcher.previous_challenge].
    unfold markers_added. rewrite Hc2, Hprev1, Hfirst.
    repeat split; try assumption.
    + intros Hne.
      destruct (Fetcher.str_eqb c1 c2) eqn:Eq;
        [apply str_eqb_eq in Eq; contradiction | reflexivity].
    + intros Heq. apply str_eqb_eq in Heq. rewrite Heq. reflexivity.
  - intros self e Hunset Htopics.
    destruct (process_transaction_returns self e Htopics)
      as (real & _ & Hamount & Eself').
    eexists. exists real. split; [exact Eself'|].
    cbn [Fetcher.mined_blocks Fetcher.previous_challenge].
    unfold markers_added. rewrite Hunset.
    destruct (challenge_of e); repeat split; assumption.
Qed.

(** Two mint events under challenge [01..] in blocks 5 and 6, then one
    under challenge [02..] in block 9: the marker refers to block 6. *)
Lemma challenge_change_marker_witness :
  exists (self2 : Fetcher.fetcher) (real : Fetcher.entry),
    Fetcher.process_all fresh_fetcher
      ([mint_event 5 x01 x01] ++ [mint_event 6 x01 x02; mint_event 9 x02 x03])
    = (self2, None)
    /\ Fetcher.entry_block real = 9
    /\ Fetcher.mined_blocks self2
       = real :: marker_for 6 (mint_event 9 x02 x03)
              :: Fetcher.mined_blocks
                   (fst (Fetcher.process_all fresh_fetcher
                           [mint_event 5 x01 x01; mint_event 6 x01 x02])).
Proof.
  destruct (proj1 challenge_change_marker fresh_fetcher
              (fst (Fetcher.process_all fresh_fetcher
                      [mint_event 5 x01 x01; mint_event 6 x01 x02]))
              [mint_event 5 x01 x01]
              (mint_event 6 x01 x02) (mint_event 9 x02 x03)
              (repeat "0"%char 1 ++ repeat "1"%char 1
               ++ flat_map (fun _ => ["0"; "1"]%char) (seq 0 31))
              (repeat "0"%char 1 ++ repeat "2"%char 1
               ++ flat_map (fun _ => ["0"; "2"]%char) (seq 0 31)))
    as (self2 & real & Hfold & Hblock & _ & _ & _ & Hmarker & _).
  - vm_compute. reflexivity.
  - vm_compute. reflexivity.
  - vm_compute. reflexivity.
  - cbn. lia.
  - exists self2, real. split; [exact Hfold|]. split; [exact Hblock|].
    apply Hmarker. vm_compute. discriminate.
Defined.

(** C5, as stated, fails where it names the block the marker refers to.
    Two mint events under challenge [01..] in blocks 5 and 6, then one
    under challenge [02..] in block 9: the list ends up holding, newest
    first, the entry of block 9, the marker, and the entries of blocks 6
    and 5.  The marker carries block 6, the block of the entry that was
    at the head of [mined_blocks] when the challenge changed, and not
    block 5, the first block of the previous challenge: no marker for
    block 5 is in the list. *)
Lemma challenge_change_marker_not_first_block :
  (exists self2 : Fetcher.fetcher,
      Fetcher.process_all fresh_fetcher
        [mint_event 5 x01 x01; mint_event 6 x01 x02; mint_event 9 x02 x03]
      = (self2, None)
      /\ map Fetcher.entry_block (Fetcher.mined_blocks self2) = [9; 6; 6; 5]
      /\ nth_error (Fetcher.mined_blocks self2) 1
         = Some (marker_for 6 (mint_event 9 x02 x03)))
  /\ ~ (forall (first e1 e2 : Fetcher.transaction) (c1 c2 : Fetcher.str)
               (self2 : Fetcher.fetcher),
           challenge_of first = Some c1 ->
           challenge_of e1 = Some c1 ->
           challenge_of e2 = Some c2 ->
           c1 <> c2 ->
           Fetcher.process_all fresh_fetcher [first; e1; e2] = (self2, None) ->
           In (marker_for (Fetcher.blockNumber first) e2)
              (Fetcher.mined_blocks self2)).
Proof.
  assert (Hrun : exists self2 : Fetcher.fetcher,
             Fetcher.process_all fresh_fetcher
               [mint_event 5 x01 x01; mint_event 6 x01 x02;
                mint_event 9 x02 x03]
             = (self2, None)
             /\ map Fetcher.entry_block (Fetcher.mined_blocks self2)
                = [9; 6; 6; 5]
             /\ nth_error (Fetcher.mined_blocks self2) 1
                = Some (marker_for 6 (mint_event 9 x02 x03))).
  { eexists. split; [vm_compute; reflexivity|].
    split; vm_compute; reflexivity. }
  split; [exact Hrun|].
  intros H. destruct Hrun as (self2 & Hfold & Hblocks & _).
  specialize (H (mint_event 5 x01 x01) (mint_event 6 x01 x02)
                (mint_event 9 x02 x03) _ _ self2
                eq_refl eq_refl eq_refl
                ltac:(vm_compute; discriminate) Hfold).
  apply (f_equal fst) in Hfold. cbn [fst] in Hfold. subst self2.
  apply (in_map (fun e => (Fetcher.entry_block e, Fetcher.entry_amount e)))
    in H.
  vm_compute in H.
  destruct H as [H | [H | [H | [H | []]]]]; discriminate H.
Qed.

(** C1, on the code.  With the checkpoint file at block 100, the head at
    block 1000 and the default batch size, [run_once] asks for the ranges
    [100..598] and [599..1000]: the first range starts at the committed
    block 100 itself, not at block 101.  The same read-back makes a second
    run record again the mint event of the block the first run ended on. *)
Theorem run_once_refetches_checkpoint_block :
  (exists s' : Fetcher.scan,
      Fetcher.run_once 2 (quiet_node 1000) 499 (scan_from 100) = Some s'
      /\ Fetcher.fetched s' = [(100, 598); (599, 1000)]
      /\ Fetcher.checkpoint s' = Fetcher.JsonObject (Some 1000))
  /\ (exists s1 s2 : Fetcher.scan,
         Fetcher.run_once 1 (node_with_mint 100) 499 (scan_from 99) = Some s1
         /\ Fetcher.checkpoint s1 = Fetcher.JsonObject (Some 100)
         /\ map Fetcher.entry_block (Fetcher.mined_blocks (Fetcher.self_of s1))
            = [100]
         /\ Fetcher.run_once 1 (node_with_mint 101) 499 s1 = Some s2
         /\ Fetcher.fetched s2 = [(99, 100); (100, 101)]
         /\ map Fetcher.entry_block (Fetcher.mined_blocks (Fetcher.self_of s2))
            = [100; 100]).
Proof.
  split.
  - eexists. split; [vm_compute; reflexivity|]. split; reflexivity.
  - eexists. eexists.
    split; [vm_compute; reflexivity|].
    split; [reflexivity|].
    split; [reflexivity|].
    split; [vm_compute; reflexivity|].
    split; reflexivity.
Qed.

(** * Bytes, hexadecimal text and the fields of a mint event *)

Section BytesAndHex.

Import Fetcher.

Lemma from_bytes_acc (data : list byte) :
  forall acc : Z,
    fold_left (fun acc b => acc * 256 + Z.of_N (Byte.to_N b)) data acc
    = acc * 256 ^ Z.of_nat (length data) + int_from_bytes_big data.
Proof.
  unfold int_from_bytes_big.
  induction data as [|b data IH]; intros acc.
  - simpl. lia.
  - cbn [fold_left length]. rewrite IH, (IH (0 * 256 + _)).
    rewrite Nat2Z.inj_succ, Z.pow_succ_r by lia. ring.
Qed.

Lemma int_from_bytes_big_cons (b : byte) (data : list byte) :
  int_from_bytes_big (b :: data)
  = Z.of_N (Byte.to_N b) * 256 ^ Z.of_nat (length data)
    + int_from_bytes_big data.
Proof.
  unfold int_from_bytes_big at 1. cbn [fold_left].
  rewrite from_bytes_acc. ring.
Qed.

Lemma int_from_bytes_big_app (a b : list byte) :
  int_from_bytes_big (a ++ b)
  = int_from_bytes_big a * 256 ^ Z.of_nat (length b) + int_from_bytes_big b.
Proof.
  unfold int_from_bytes_big at 1. rewrite fold_left_app.
  fold (int_from_bytes_big a). apply from_bytes_acc.
Qed.

Lemma byte_range (b : byte) : 0 <= Z.of_N (Byte.to_N b) < 256.
Proof.
  pose proof (Byte.to_N_bounded b) as H. lia.
Qed.

Lemma int_from_bytes_big_range (data : list byte) :
  0 <= int_from_bytes_big data < 256 ^ Z.of_nat (length data).
Proof.
  induction data as [|b data IH].
  - cbn. lia.
  - rewrite int_from_bytes_big_cons. cbn [length].
    rewrite Nat2Z.inj_succ, Z.pow_succ_r by lia.
    pose proof (byte_range b). nia.
Qed.

Lemma hex_value_hex_digit (n : N) :
  (n < 16)%N -> hex_value (hex_digit n) = Some (Z.of_N n).
Proof.
  intros H. destruct n as [|p]; [reflexivity|].
  do 4 (try (destruct p as [p|p|]; try reflexivity)); lia.
Qed.

Lemma int16_digits_hex_byte (b : byte) (rest : str) (acc : Z) :
  int16_digits (hex_byte b ++ rest) acc
  = int16_digits rest (acc * 256 + Z.of_N (Byte.to_N b)).
Proof.
  pose proof (Byte.to_N_bounded b) as Hb.
  unfold hex_byte. cbn [app int16_digits].
  rewrite !hex_value_hex_digit.
  - f_equal.
    rewrite (N.div_mod (Byte.to_N b) 16) at 3 by lia.
    rewrite N2Z.inj_add, N2Z.inj_mul. change (Z.of_N 16) with 16. ring.
  - apply N.mod_lt. lia.
  - apply N.Div0.div_lt_upper_bound. lia.
Qed.

Lemma int16_digits_hex (bs : list byte) :
  forall acc : Z,
    int16_digits (flat_map hex_byte bs) acc
    = Ok (acc * 256 ^ Z.of_nat (length bs) + int_from_bytes_big bs).
Proof.
  induction bs as [|b bs IH]; intros acc.
  - cbn. f_equal. lia.
  - cbn [flat_map]. rewrite int16_digits_hex_byte, IH.
    rewrite int_from_bytes_big_cons. cbn [length].
    rewrite Nat2Z.inj_succ, Z.pow_succ_r by lia. f_equal. ring.
Qed.

Lemma hex_digits_length (bs : list byte) :
  length (flat_map hex_byte bs) = (2 * length bs)%nat.
Proof.
  induction bs as [|b bs IH]; [reflexivity|].
  cbn [flat_map length hex_byte app]. lia.
Qed.

Lemma hex_length (bs : list byte) : length (hex bs) = (2 + 2 * length bs)%nat.
Proof.
  unfold hex. rewrite length_app, hex_digits_length. reflexivity.
Qed.

Lemma hex_digits_firstn (k : nat) :
  forall bs : list byte,
    firstn (2 * k) (flat_map hex_byte bs) = flat_map hex_byte (firstn k bs).
Proof.
  induction k as [|k IH]; intros bs.
  - reflexivity.
  - destruct bs as [|b bs]; [reflexivity|].
    replace (2 * S k)%nat with (S (S (2 * k))) by lia.
    cbn [flat_map firstn hex_byte app]. rewrite IH. reflexivity.
Qed.

Lemma hex_digits_skipn (k : nat) :
  forall bs : list byte,
    skipn (2 * k) (flat_map hex_byte bs) = flat_map hex_byte (skipn k bs).
Proof.
  induction k as [|k IH]; intros bs.
  - reflexivity.
  - destruct bs as [|b bs]; [reflexivity|].
    replace (2 * S k)%nat with (S (S (2 * k))) by lia.
    cbn [flat_map skipn hex_byte app]. rewrite IH. reflexivity.
Qed.

(** A slice of the hexadecimal text at even offsets is the text of a
    slice of the bytes. *)
Lemma slice_hex (i j : nat) (bs : list byte) :
  (i <= j)%nat ->
  slice (2 + 2 * i) (2 + 2 * j) (hex bs)
  = flat_map hex_byte (firstn (j - i) (skipn i bs)).
Proof.
  intros Hij. unfold slice, hex.
  replace (2 + 2 * j - (2 + 2 * i))%nat with (2 * (j - i))%nat by lia.
  change (skipn (2 + 2 * i) (["0"; "x"]%char ++ flat_map hex_byte bs))
    with (skipn (2 * i) (flat_map hex_byte bs)).
  rewrite hex_digits_skipn, hex_digits_firstn. reflexivity.
Qed.

Lemma int16_hex_digits (bs : list byte) :
  bs <> [] -> int16 (flat_map hex_byte bs) = Ok (int_from_bytes_big bs).
Proof.
  intros Hne. destruct bs as [|b bs]; [contradiction|].
  unfold int16. cbn [flat_map hex_byte app].
  change (int16_digits (hex_digit (Byte.to_N b / 16)
                        :: hex_digit (Byte.to_N b mod 16)
                        :: flat_map hex_byte bs) 0)
    with (int16_digits (flat_map hex_byte (b :: bs)) 0).
  rewrite int16_digits_hex. f_equal.
Qed.

End BytesAndHex.

(** * What [process_transaction] reads from an event, byte by byte *)

Section Decoding.

Import Fetcher.

Lemma data_amt_bytes (payload : list byte) :
  (if (66 <=? length (hex payload))%nat then
     wei <- int16 (slice 2 66 (hex payload)) ;;
     eth <- Float64.int_true_div wei (10 ^ 18) ;;
     Ok (FloatAmount eth)
   else Ok (IntAmount 0))
  = if (32 <=? length payload)%nat then
      eth <- Float64.int_true_div
               (int_from_bytes_big (firstn 32 payload)) (10 ^ 18) ;;
      Ok (FloatAmount eth)
    else Ok (IntAmount 0).
Proof.
  rewrite hex_length.
  destruct (Nat.leb_spec 32 (length payload)) as [Hlen | Hlen].
  - replace (66 <=? 2 + 2 * length payload)%nat with true
      by (symmetry; apply Nat.leb_le; lia).
    change (slice 2 66 (hex payload))
      with (slice (2 + 2 * 0) (2 + 2 * 32) (hex payload)).
    rewrite slice_hex by lia. cbn [skipn Nat.sub].
    rewrite int16_hex_digits; [reflexivity|].
    destruct payload; [cbn in Hlen; lia | discriminate].
  - replace (66 <=? 2 + 2 * length payload)%nat with false
      by (symmetry; apply Nat.leb_gt; lia).
    reflexivity.
Qed.

Lemma process_transaction_value (self : fetcher) (tx : transaction)
    (data_amt : amount) :
  (2 <= length (topics tx))%nat ->
  (if (32 <=? length (data tx))%nat then
     eth <- Float64.int_true_div
              (int_from_bytes_big (firstn 32 (data tx))) (10 ^ 18) ;;
     Ok (FloatAmount eth)
   else Ok (IntAmount 0)) = Ok data_amt ->
  process_transaction self tx
  = Ok {| mined_blocks :=
            (blockNumber tx, hex (transactionHash tx), miner_of tx, data_amt)
            :: markers_added self tx ++ mined_blocks self;
          previous_challenge :=
            match challenge_of tx with
            | Some challenger => Some challenger
            | None => previous_challenge self
            end |}.
Proof.
  intros Htopics Hamt. unfold process_transaction, getitem.
  destruct (topics tx) as [| topic0 [| topic1 more]] eqn:Et;
    cbn [length] in Htopics; try lia.
  cbn [nth_error of_option bind].
  rewrite data_amt_bytes, Hamt. cbn [bind].
  unfold markers_added, challenge_of, marker_for, miner_of, first_block_num_of.
  rewrite Et. cbn [nth].
  destruct (194 <=? length (hex (data tx)))%nat; [|reflexivity].
  destruct (previous_challenge self) as [previous|] eqn:Ep; [|reflexivity].
  destruct (str_eqb previous (slice 130 194 (hex (data tx)))) eqn:Eq.
  - apply str_eqb_eq in Eq. subst previous.
    rewrite Ep. cbn [app].
    destruct self as [blocks prev]. cbn in *. subst prev. reflexivity.
  - reflexivity.
Qed.

Lemma amount_word_returns (payload : list byte) :
  exists eth : Q,
    Float64.int_true_div (int_from_bytes_big (firstn 32 payload)) (10 ^ 18)
    = Ok eth.
Proof.
  pose proof (int_from_bytes_big_range (firstn 32 payload)) as Hr.
  assert (Hl : (length (firstn 32 payload) <= 32)%nat)
    by (rewrite length_firstn; lia).
  assert (Hb : 256 ^ Z.of_nat (length (firstn 32 payload)) <= 256 ^ 32).
  { apply Z.pow_le_mono_r; lia. }
  destruct (Z.eq_dec (int_from_bytes_big (firstn 32 payload)) 0) as [-> | Hnz].
  - exists 0%Q. apply int_true_div_0. lia.
  - apply int_true_div_returns; [|lia].
    split; [lia|].
    apply Z.lt_le_trans with (256 ^ 32); [lia|].
    vm_compute. discriminate.
Qed.

(** X1 (process_transaction, amount): on an event with a miner topic the
    call returns and puts at the head of [mined_blocks] the entry of the
    event; its amount is the big-endian integer held in the first 32
    bytes of the payload, divided by [10 ** 18] as a float, when the
    payload has at least 32 bytes, and the [int] 0 when it is shorter. *)
Theorem process_transaction_amount_bytes
    (self : Fetcher.fetcher) (tx : Fetcher.transaction) :
  (2 <= length (Fetcher.topics tx))%nat ->
  exists data_amt : Fetcher.amount,
    Fetcher.process_transaction self tx
    = Ok {| Fetcher.mined_blocks :=
              (Fetcher.blockNumber tx, Fetcher.hex (Fetcher.transactionHash tx),
               miner_of tx, data_amt)
              :: markers_added self tx ++ Fetcher.mined_blocks self;
            Fetcher.previous_challenge :=
              match challenge_of tx with
              | Some challenger => Some challenger
              | None => Fetcher.previous_challenge self
              end |}
    /\ ((32 <= length (Fetcher.data tx))%nat ->
        exists eth : Q,
          Float64.int_true_div
            (int_from_bytes_big (firstn 32 (Fetcher.data tx))) (10 ^ 18)
          = Ok eth
          /\ data_amt = Fetcher.FloatAmount eth)
    /\ ((length (Fetcher.data tx) < 32)%nat ->
        data_amt = Fetcher.IntAmount 0).
Proof.
  intros Htopics.
  destruct (Nat.leb_spec 32 (length (data tx))) as [Hlen | Hlen].
  - destruct (amount_word_returns (data tx)) as (eth & Eeth).
    exists (FloatAmount eth). split; [|split].
    + apply process_transaction_value; [exact Htopics|].
      replace (32 <=? length (data tx))%nat with true
        by (symmetry; apply Nat.leb_le; lia).
      rewrite Eeth. reflexivity.
    + intros _. exists eth. split; [exact Eeth | reflexivity].
    + intros Hlt. lia.
  - exists (IntAmount 0). split; [|split].
    + apply process_transaction_value; [exact Htopics|].
      replace (32 <=? length (data tx))%nat with false
        by (symmetry; apply Nat.leb_gt; lia).
      reflexivity.
    + intros Hge. lia.
    + intros _. reflexivity.
Qed.

Lemma process_transaction_amount_bytes_witness :
  exists data_amt : Fetcher.amount,
    Fetcher.process_transaction fresh_fetcher (mint_event 5 x01 x02)
    = Ok {| Fetcher.mined_blocks :=
              (5, Fetcher.hex [xaa]%byte, miner_of (mint_event 5 x01 x02),
               data_amt)
              :: markers_added fresh_fetcher (mint_event 5 x01 x02)
                 ++ Fetcher.mined_blocks fresh_fetcher;
            Fetcher.previous_challenge :=
              match challenge_of (mint_event 5 x01 x02) with
              | Some challenger => Some challenger
              | None => Fetcher.previous_challenge fresh_fetcher
              end |}
    /\ ((32 <= length (Fetcher.data (mint_event 5 x01 x02)))%nat ->
        exists eth : Q,
          Float64.int_true_div
            (int_from_bytes_big
               (firstn 32 (Fetcher.data (mint_event 5 x01 x02)))) (10 ^ 18)
          = Ok eth
          /\ data_amt = Fetcher.FloatAmount eth)
    /\ ((length (Fetcher.data (mint_event 5 x01 x02)) < 32)%nat ->
        data_amt = Fetcher.IntAmount 0).
Proof.
  apply (process_transaction_amount_bytes fresh_fetcher (mint_event 5 x01 x02)).
  cbn. lia.
Defined.

(** X2 (get_miner_address_from_topic): on the hexadecimal text of a
    topic of at least 20 bytes the miner address is the text, behind
    [0x], of the last 20 bytes, 42 characters in all; a shorter topic
    gives its digits without the prefix. *)
Theorem miner_address_last_20_bytes (topic : list byte) :
  Fetcher.get_miner_address_from_topic (Fetcher.hex topic)
  = (if (20 <=? length topic)%nat
     then Fetcher.hex (skipn (length topic - 20) topic)
     else flat_map Fetcher.hex_byte topic)
  /\ ((20 <= length topic)%nat ->
      length (Fetcher.get_miner_address_from_topic (Fetcher.hex topic))
      = 42%nat).
Proof.
  assert (E : get_miner_address_from_topic (hex topic)
              = if (20 <=? length topic)%nat
                then hex (skipn (length topic - 20) topic)
                else flat_map hex_byte topic).
  { unfold get_miner_address_from_topic, hex. cbn [app].
    rewrite hex_digits_length.
    destruct (Nat.leb_spec 20 (length topic)) as [Hlen | Hlen].
    - replace (40 <=? 2 * length topic)%nat with true
        by (symmetry; apply Nat.leb_le; lia).
      replace (2 * length topic - 40)%nat with (2 * (length topic - 20))%nat
        by lia.
      rewrite hex_digits_skipn. reflexivity.
    - replace (40 <=? 2 * length topic)%nat with false
        by (symmetry; apply Nat.leb_gt; lia).
      reflexivity. }
  split; [exact E|].
  intros Hlen. rewrite E.
  replace (20 <=? length topic)%nat with true
    by (symmetry; apply Nat.leb_le; lia).
  rewrite hex_length, length_skipn. lia.
Qed.

Lemma miner_address_last_20_bytes_witness :
  length (Fetcher.get_miner_address_from_topic
            (Fetcher.hex (repeat x00 12 ++ repeat xbb 20))) = 42%nat.
Proof.
  apply (proj2 (miner_address_last_20_bytes (repeat x00 12 ++ repeat xbb 20))).
  cbn. lia.
Defined.

(** X3 (process_transaction, challenge): after a call that returns, the
    remembered challenge is the hexadecimal text of bytes 64 to 95 of the
    payload when the payload has at least 96 bytes, and is left as it
    was on a shorter payload. *)
Theorem process_transaction_challenge_bytes
    (self self' : Fetcher.fetcher) (tx : Fetcher.transaction) :
  Fetcher.process_transaction self tx = Ok self' ->
  Fetcher.previous_challenge self'
  = if (96 <=? length (Fetcher.data tx))%nat
    then Some (flat_map Fetcher.hex_byte
                 (firstn 32 (skipn 64 (Fetcher.data tx))))
    else Fetcher.previous_challenge self.
Proof.
  intros Hrun.
  pose proof (process_transaction_topics _ _ _ Hrun) as Htopics.
  destruct (process_transaction_returns self tx Htopics)
    as (real & _ & _ & Eq).
  rewrite Eq in Hrun. inversion Hrun; subst self'; clear Hrun.
  cbn [previous_challenge]. unfold challenge_of.
  rewrite hex_length.
  destruct (Nat.leb_spec 96 (length (data tx))) as [Hlen | Hlen].
  - replace (194 <=? 2 + 2 * length (data tx))%nat with true
      by (symmetry; apply Nat.leb_le; lia).
    change (slice 130 194 (hex (data tx)))
      with (slice (2 + 2 * 64) (2 + 2 * 96) (hex (data tx))).
    rewrite slice_hex by lia. reflexivity.
  - replace (194 <=? 2 + 2 * length (data tx))%nat with false
      by (symmetry; apply Nat.leb_gt; lia).
    reflexivity.
Qed.

Lemma process_transaction_challenge_bytes_witness :
  exists self' : Fetcher.fetcher,
    Fetcher.process_transaction fresh_fetcher (mint_event 5 x01 x02) = Ok self'
    /\ Fetcher.previous_challenge self'
       = Some (flat_map Fetcher.hex_byte (repeat x01 32)).
Proof.
  eexists. split.
  - vm_compute. reflexivity.
  - apply (process_transaction_challenge_bytes fresh_fetcher _
             (mint_event 5 x01 x02)).
    vm_compute. reflexivity.
Defined.

(** X4 (process_transaction, failure): the call raises exactly when the
    event has fewer than two topics, and what it raises then is the
    [IndexError] of [topics[1]]; no payload makes it raise. *)
Theorem process_transaction_raises_iff
    (self : Fetcher.fetcher) (tx : Fetcher.transaction) (e : exn) :
  Fetcher.process_transaction self tx = Raise e
  <-> (e = IndexError /\ (length (Fetcher.topics tx) < 2)%nat).
Proof.
  split.
  - intros Hrun.
    destruct (Nat.leb_spec 2 (length (topics tx))) as [Hlen | Hlen].
    + destruct (process_transaction_returns self tx Hlen) as (real & _ & _ & Eq).
      rewrite Eq in Hrun. discriminate.
    + split; [|exact Hlen].
      unfold process_transaction, getitem in Hrun.
      destruct (topics tx) as [| topic0 [| topic1 more]];
        cbn [length] in Hlen; try lia;
        cbn [nth_error of_option bind] in Hrun; congruence.
  - intros [-> Hlen].
    unfold process_transaction, getitem.
    destruct (topics tx) as [| topic0 [| topic1 more]];
      cbn [length] in Hlen; try lia; reflexivity.
Qed.

End Decoding.

(** * The windows of [run_once] *)

Section Windows.

Import Fetcher.

Lemma real_entry_not_marker (e : entry) :
  entry_amount e <> IntAmount (-1) -> is_marker e = false.
Proof.
  unfold is_marker. intros H.
  destruct (entry_amount e) as [v | [| p | [p | p |]]]; try reflexivity.
  contradiction.
Qed.

Lemma markers_added_markers (self : fetcher) (tx : transaction) :
  filter (fun e => negb (is_marker e)) (markers_added self tx) = [].
Proof.
  unfold markers_added.
  destruct (challenge_of tx) as [challenger|]; [|reflexivity].
  destruct (previous_challenge self) as [previous|]; [|reflexivity].
  destruct (str_eqb previous challenger); reflexivity.
Qed.

Lemma markers_added_length (self : fetcher) (tx : transaction) :
  (length (markers_added self tx) <= 1)%nat.
Proof.
  unfold markers_added.
  destruct (challenge_of tx) as [challenger|]; [|cbn; lia].
  destruct (previous_challenge self) as [previous|]; [|cbn; lia].
  destruct (str_eqb previous challenger); cbn; lia.
Qed.

Lemma process_transaction_event (self : fetcher) (tx : transaction) :
  has_miner_topic tx ->
  exists self',
    process_transaction self tx = Ok self'
    /\ event_blocks self' = blockNumber tx :: event_blocks self
    /\ (length (mined_blocks self) < length (mined_blocks self')
        <= length (mined_blocks self) + 2)%nat.
Proof.
  intros Htx.
  destruct (process_transaction_returns self tx Htx)
    as (real & Hblock & Hamt & Eq).
  eexists. split; [exact Eq|]. split.
  - unfold event_blocks. cbn [mined_blocks filter].
    rewrite (real_entry_not_marker real Hamt). cbn [negb map].
    rewrite filter_app, markers_added_markers, Hblock. reflexivity.
  - cbn [mined_blocks length]. rewrite length_app.
    pose proof (markers_added_length self tx). lia.
Qed.

Lemma process_all_events (logs : list transaction) :
  Forall has_miner_topic logs ->
  forall self : fetcher,
    exists self',
      process_all self logs = (self', None)
      /\ event_blocks self' = rev (map blockNumber logs) ++ event_blocks self
      /\ (length (mined_blocks self) + length logs
          <= length (mined_blocks self')
          <= length (mined_blocks self) + 2 * length logs)%nat.
Proof.
  induction 1 as [| tx logs Htx _ IH]; intros self.
  - exists self. cbn. repeat split; lia.
  - destruct (process_transaction_event self tx Htx)
      as (self1 & E1 & Hev1 & Hlen1).
    destruct (IH self1) as (self' & E & Hev & Hlen).
    exists self'. cbn [process_all]. rewrite E1. split; [exact E|]. split.
    + rewrite Hev, Hev1. cbn [map rev]. rewrite <- app_assoc. reflexivity.
    + cbn [length]. lia.
Qed.

Lemma process_all_stops (self : fetcher) (good rest : list transaction)
    (bad : transaction) :
  Forall has_miner_topic good ->
  (length (topics bad) < 2)%nat ->
  exists self',
    process_all self good = (self', None)
    /\ process_all self (good ++ bad :: rest) = (self', Some IndexError)
    /\ event_blocks self' = rev (map blockNumber good) ++ event_blocks self.
Proof.
  intros Hgood Hbad.
  destruct (process_all_events good Hgood self) as (self' & E & Hev & _).
  exists self'. split; [exact E|]. split; [|exact Hev].
  rewrite (process_all_app _ _ _ _ E). cbn [process_all].
  unfold process_transaction, getitem.
  destruct (topics bad) as [| topic0 [| topic1 more]];
    cbn [length] in Hbad; try lia; reflexivity.
Qed.

Lemma fetch_logs_well_formed (w3 : node) (start_block end_block : Z) :
  well_formed_node w3 ->
  Forall has_miner_topic (fetch_logs w3 start_block end_block).
Proof.
  intros Hwf. unfold fetch_logs.
  destruct (get_logs w3 start_block end_block) as [logs|] eqn:E.
  - exact (Hwf _ _ _ E).
  - constructor.
Qed.

(** The events of the windows [ws], window by window. *)
Local Abbreviation window_blocks w3 ws :=
  (flat_map (fun w : Z * Z => map blockNumber (fetch_logs w3 (fst w) (snd w)))
     ws).

Lemma scan_loop_tiles (w3 : node) (batch_size current_block : Z) :
  1 <= batch_size ->
  well_formed_node w3 ->
  forall (fuel : nat) (current_start : Z) (s : scan),
    current_start <= current_block + 1 ->
    (Z.to_nat (current_block - current_start + 1) <= fuel)%nat ->
    exists (s' : scan) (ws : list (Z * Z)),
      scan_loop fuel w3 batch_size current_block current_start s = Some s'
      /\ fetched s' = fetched s ++ ws
      /\ tiles batch_size current_start current_block ws
      /\ event_blocks (self_of s')
         = rev (window_blocks w3 ws) ++ event_blocks (self_of s)
      /\ match ws with
         | [] => s' = s
         | _ :: _ => checkpoint s' = JsonObject (Some current_block)
         end.
Proof.
  intros Hbatch Hwf.
  induction fuel as [| fuel IH]; intros current_start s Hstart Hfuel;
    rewrite scan_loop_unfold.
  - replace (current_start <=? current_block) with false
      by (symmetry; apply Z.leb_gt; lia).
    exists s, []. cbn. rewrite app_nil_r. repeat split; lia.
  - destruct (Z.leb_spec current_start current_block) as [Hle | Hgt].
    2:{ exists s, []. cbn. rewrite app_nil_r. repeat split; lia. }
    cbv zeta.
    set (current_end := Z.min (current_start + batch_size - 1) current_block).
    assert (Hend : current_start <= current_end <= current_block)
      by (unfold current_end; lia).
    destruct (process_all_events
                (fetch_logs w3 current_start current_end)
                (fetch_logs_well_formed w3 _ _ Hwf) (self_of s))
      as (self1 & E1 & Hev1 & _).
    rewrite E1.
    destruct (IH (current_end + 1)
                {| self_of := self1;
                   checkpoint := save_last_processed_block current_end;
                   fetched := fetched s ++ [(current_start, current_end)] |})
      as (s' & ws & E & Hf & Ht & Hev & Hcp); [lia | lia |].
    exists s', ((current_start, current_end) :: ws).
    split; [exact E|]. split; [|split; [|split]].
    + rewrite Hf. cbn [fetched]. rewrite <- app_assoc. reflexivity.
    + cbn [tiles]. split; [reflexivity|]. split; [lia|].
      split; [unfold current_end; lia | exact Ht].
    + rewrite Hev. cbn [self_of flat_map fst snd].
      rewrite Hev1, rev_app_distr, <- app_assoc. reflexivity.
    + destruct ws as [| w ws'].
      * subst s'. cbn [checkpoint save_last_processed_block].
        cbn [tiles] in Ht.
        replace current_end with current_block by lia. reflexivity.
      * exact Hcp.
Qed.

Lemma scan_loop_no_events (w3 : node) (batch_size current_block : Z) :
  (forall a b, fetch_logs w3 a b = []) ->
  forall (fuel : nat) (current_start : Z) (s s' : scan),
    scan_loop fuel w3 batch_size current_block current_start s = Some s' ->
    self_of s' = self_of s.
Proof.
  intros Hquiet.
  induction fuel as [| fuel IH]; intros current_start s s';
    rewrite scan_loop_unfold;
    destruct (current_start <=? current_block); try discriminate;
    try (intros H; inversion H; reflexivity).
  cbv zeta. rewrite Hquiet. cbn [process_all].
  intros H. apply IH in H. exact H.
Qed.


Lemma scan_loop_diverges (w3 : node) (batch_size current_block : Z) :
  batch_size <= 0 ->
  well_formed_node w3 ->
  forall (fuel : nat) (current_start : Z) (s : scan),
    current_start <= current_block ->
    scan_loop fuel w3 batch_size current_block current_start s = None.
Proof.
  intros Hbatch Hwf.
  induction fuel as [| fuel IH]; intros current_start s Hle;
    rewrite scan_loop_unfold;
    (replace (current_start <=? current_block) with true
       by (symmetry; apply Z.leb_le; lia)); [reflexivity|].
  cbv zeta.
  destruct (process_all_events
              (fetch_logs w3 current_start
                 (Z.min (current_start + batch_size - 1) current_block))
              (fetch_logs_well_formed w3 _ _ Hwf) (self_of s))
    as (self1 & E1 & _).
  rewrite E1. apply IH. lia.
Qed.

(** X5 (run_once, windows): with [batch_size >= 1], a head at or above
    the checkpoint and a node whose events all have a miner topic, the
    run returns once the fuel covers the range; the ranges it has asked
    for tile the blocks from the checkpoint to the head in order, without
    gap or overlap, each [batch_size] wide but the last; every event of
    every range is recorded once, newest first; and the checkpoint it
    leaves is the head. *)
Theorem run_once_tiles_range (fuel : nat) (w3 : Fetcher.node)
    (batch_size current_block : Z) (s : Fetcher.scan) :
  let start_block := Fetcher.load_last_processed_block (Fetcher.checkpoint s) in
  1 <= batch_size ->
  well_formed_node w3 ->
  Fetcher.latest_block_number w3 = Ok current_block ->
  start_block <= current_block ->
  (Z.to_nat (current_block - start_block + 1) <= fuel)%nat ->
  exists (s' : Fetcher.scan) (ws : list (Z * Z)),
    Fetcher.run_once fuel w3 batch_size s = Some s'
    /\ Fetcher.fetched s' = Fetcher.fetched s ++ ws
    /\ tiles batch_size start_block current_block ws
    /\ event_blocks (Fetcher.self_of s')
       = rev (flat_map
                (fun w : Z * Z =>
                   map Fetcher.blockNumber
                     (Fetcher.fetch_logs w3 (fst w) (snd w))) ws)
         ++ event_blocks (Fetcher.self_of s)
    /\ Fetcher.checkpoint s' = Fetcher.JsonObject (Some current_block).
Proof.
  intros start_block Hbatch Hwf Hhead Hstart Hfuel.
  destruct (scan_loop_tiles w3 batch_size current_block Hbatch Hwf
              fuel start_block s ltac:(lia) Hfuel)
    as (s' & ws & E & Hf & Ht & Hev & Hcp).
  exists s', ws. unfold run_once. rewrite Hhead. fold start_block.
  replace (start_block >? current_block) with false
    by (symmetry; rewrite Z.gtb_ltb; apply Z.ltb_ge; lia).
  repeat (split; [assumption|]).
  destruct ws as [| w ws']; [|exact Hcp].
  cbn [tiles] in Ht. lia.
Qed.

Lemma run_once_tiles_range_witness :
  exists (s' : Fetcher.scan) (ws : list (Z * Z)),
    Fetcher.run_once 4 (node_with_mint 103) 2 (scan_from 100) = Some s'
    /\ Fetcher.fetched s' = Fetcher.fetched (scan_from 100) ++ ws
    /\ tiles 2 100 103 ws
    /\ event_blocks (Fetcher.self_of s')
       = rev (flat_map
                (fun w : Z * Z =>
                   map Fetcher.blockNumber
                     (Fetcher.fetch_logs (node_with_mint 103) (fst w) (snd w)))
                ws)
         ++ event_blocks (Fetcher.self_of (scan_from 100))
    /\ Fetcher.checkpoint s' = Fetcher.JsonObject (Some 103).
Proof.
  apply (run_once_tiles_range 4 (node_with_mint 103) 2 103 (scan_from 100)).
  - lia.
  - intros a b logs. cbn.
    destruct ((a <=? 100) && (100 <=? b)); intros H; inversion H; subst.
    + constructor; [cbn; unfold has_miner_topic; cbn; lia | constructor].
    + constructor.
  - reflexivity.
  - cbn. lia.
  - cbn. lia.
Defined.

(** X6 (fetch_logs inside run_once): when every log query fails, the
    failures are swallowed: the run still returns, records nothing, and
    moves the checkpoint to the head, so the blocks it skipped below the
    head are not asked for again: the next run starts at the head. *)
Theorem run_once_skips_failed_queries (fuel : nat) (w3 : Fetcher.node)
    (batch_size current_block : Z) (s : Fetcher.scan) :
  let start_block := Fetcher.load_last_processed_block (Fetcher.checkpoint s) in
  1 <= batch_size ->
  (forall a b, exists e, Fetcher.get_logs w3 a b = Raise e) ->
  Fetcher.latest_block_number w3 = Ok current_block ->
  start_block <= current_block ->
  (Z.to_nat (current_block - start_block + 1) <= fuel)%nat ->
  exists s' : Fetcher.scan,
    Fetcher.run_once fuel w3 batch_size s = Some s'
    /\ Fetcher.self_of s' = Fetcher.self_of s
    /\ Fetcher.checkpoint s' = Fetcher.JsonObject (Some current_block)
    /\ Fetcher.load_last_processed_block (Fetcher.checkpoint s')
       = current_block.
Proof.
  intros start_block Hbatch Hfail Hhead Hstart Hfuel.
  assert (Hquiet : forall a b, fetch_logs w3 a b = []).
  { intros a b. unfold fetch_logs. destruct (Hfail a b) as (e & ->).
    reflexivity. }
  assert (Hwf : well_formed_node w3).
  { intros a b logs E. destruct (Hfail a b) as (e & E'). congruence. }
  destruct (scan_loop_tiles w3 batch_size current_block Hbatch Hwf
              fuel start_block s ltac:(lia) Hfuel)
    as (s' & ws & E & _ & Ht & _ & Hcp).
  assert (Hcp' : checkpoint s' = JsonObject (Some current_block)).
  { destruct ws as [| w ws']; [cbn [tiles] in Ht; lia | exact Hcp]. }
  exists s'. unfold run_once. rewrite Hhead. fold start_block.
  replace (start_block >? current_block) with false
    by (symmetry; rewrite Z.gtb_ltb; apply Z.ltb_ge; lia).
  split; [exact E|]. split; [|split].
  - exact (scan_loop_no_events w3 batch_size current_block Hquiet _ _ _ _ E).
  - exact Hcp'.
  - rewrite Hcp'. reflexivity.
Qed.

Lemma run_once_skips_failed_queries_witness :
  exists s' : Fetcher.scan,
    Fetcher.run_once 901 (deaf_node 1000) 499 (scan_from 100) = Some s'
    /\ Fetcher.self_of s' = Fetcher.self_of (scan_from 100)
    /\ Fetcher.checkpoint s' = Fetcher.JsonObject (Some 1000)
    /\ Fetcher.load_last_processed_block (Fetcher.checkpoint s') = 1000.
Proof.
  apply (run_once_skips_failed_queries 901 (deaf_node 1000) 499 1000
           (scan_from 100)).
  - lia.
  - intros a b. exists RpcError. reflexivity.
  - reflexivity.
  - cbn. lia.
  - cbn. lia.
Defined.

End Windows.

(** * Edge behaviour of the scan *)

Section ScanEdges.

Import Fetcher.

Lemma run_once_malformed_step (fuel : nat) (w3 : node)
    (batch_size current_block : Z) (s : scan)
    (good rest : list transaction) (bad : transaction) :
  let start_block := load_last_processed_block (checkpoint s) in
  let current_end := Z.min (start_block + batch_size - 1) current_block in
  latest_block_number w3 = Ok current_block ->
  start_block <= current_block ->
  get_logs w3 start_block current_end = Ok (good ++ bad :: rest) ->
  Forall has_miner_topic good ->
  (length (topics bad) < 2)%nat ->
  exists self' : fetcher,
    run_once (S fuel) w3 batch_size s
    = Some {| self_of := self';
              checkpoint := checkpoint s;
              fetched := fetched s ++ [(start_block, current_end)] |}
    /\ event_blocks self'
       = rev (map blockNumber good) ++ event_blocks (self_of s).
Proof.
  intros start_block current_end Hhead Hstart Hlogs Hgood Hbad.
  destruct (process_all_stops (self_of s) good rest bad Hgood Hbad)
    as (self' & _ & E & Hev).
  exists self'. split; [|exact Hev].
  unfold run_once. rewrite Hhead. fold start_block.
  replace (start_block >? current_block) with false
    by (symmetry; rewrite Z.gtb_ltb; apply Z.ltb_ge; lia).
  rewrite scan_loop_unfold.
  replace (start_block <=? current_block) with true
    by (symmetry; apply Z.leb_le; lia).
  cbv zeta. fold current_end.
  unfold fetch_logs. rewrite Hlogs, E. reflexivity.
Qed.

(** X7 (run_once, a malformed event): when the first range holds an event
    without a miner topic, the run ends there with the checkpoint
    unchanged, keeping in memory the entries of the events before it; a
    second run against the same node asks for the same range again and
    records those events a second time. *)
Theorem run_once_repeats_after_malformed_event (fuel : nat) (w3 : Fetcher.node)
    (batch_size current_block : Z) (s : Fetcher.scan)
    (good rest : list Fetcher.transaction) (bad : Fetcher.transaction) :
  let start_block := Fetcher.load_last_processed_block (Fetcher.checkpoint s) in
  let current_end := Z.min (start_block + batch_size - 1) current_block in
  Fetcher.latest_block_number w3 = Ok current_block ->
  start_block <= current_block ->
  Fetcher.get_logs w3 start_block current_end = Ok (good ++ bad :: rest) ->
  Forall has_miner_topic good ->
  (length (Fetcher.topics bad) < 2)%nat ->
  exists s1 s2 : Fetcher.scan,
    Fetcher.run_once (S fuel) w3 batch_size s = Some s1
    /\ Fetcher.checkpoint s1 = Fetcher.checkpoint s
    /\ Fetcher.fetched s1 = Fetcher.fetched s ++ [(start_block, current_end)]
    /\ event_blocks (Fetcher.self_of s1)
       = rev (map Fetcher.blockNumber good)
         ++ event_blocks (Fetcher.self_of s)
    /\ Fetcher.run_once (S fuel) w3 batch_size s1 = Some s2
    /\ Fetcher.checkpoint s2 = Fetcher.checkpoint s
    /\ Fetcher.fetched s2
       = Fetcher.fetched s
         ++ [(start_block, current_end); (start_block, current_end)]
    /\ event_blocks (Fetcher.self_of s2)
       = rev (map Fetcher.blockNumber good)
         ++ rev (map Fetcher.blockNumber good)
         ++ event_blocks (Fetcher.self_of s).
Proof.
  intros start_block current_end Hhead Hstart Hlogs Hgood Hbad.
  destruct (run_once_malformed_step fuel w3 batch_size current_block s
              good rest bad Hhead Hstart Hlogs Hgood Hbad)
    as (self1 & E1 & Hev1).
  fold start_block current_end in E1.
  set (s1 := {| self_of := self1;
                checkpoint := checkpoint s;
                fetched := fetched s ++ [(start_block, current_end)] |}) in *.
  destruct (run_once_malformed_step fuel w3 batch_size current_block s1
              good rest bad Hhead Hstart Hlogs Hgood Hbad)
    as (self2 & E2 & Hev2).
  cbn [checkpoint self_of fetched s1] in E2, Hev2.
  fold start_block current_end in E2.
  eexists s1, _. split; [exact E1|].
  split; [reflexivity|]. split; [reflexivity|]. split; [exact Hev1|].
  split; [exact E2|].
  split; [reflexivity|]. split.
  - cbn [fetched]. rewrite <- app_assoc. reflexivity.
  - cbn [self_of]. rewrite Hev2, Hev1. reflexivity.
Qed.

Lemma run_once_repeats_after_malformed_event_witness :
  exists s1 s2 : Fetcher.scan,
    Fetcher.run_once 1
      {| Fetcher.latest_block_number := Ok 1000;
         Fetcher.get_logs := fun _ _ =>
           Ok ([mint_event 101 x01 x02] ++ event_without_miner 102 :: []) |}
      499 (scan_from 100) = Some s1
    /\ Fetcher.checkpoint s1 = Fetcher.checkpoint (scan_from 100)
    /\ Fetcher.fetched s1 = Fetcher.fetched (scan_from 100) ++ [(100, 598)]
    /\ event_blocks (Fetcher.self_of s1)
       = rev (map Fetcher.blockNumber [mint_event 101 x01 x02])
         ++ event_blocks (Fetcher.self_of (scan_from 100))
    /\ Fetcher.run_once 1
         {| Fetcher.latest_block_number := Ok 1000;
            Fetcher.get_logs := fun _ _ =>
              Ok ([mint_event 101 x01 x02] ++ event_without_miner 102 :: []) |}
         499 s1 = Some s2
    /\ Fetcher.checkpoint s2 = Fetcher.checkpoint (scan_from 100)
    /\ Fetcher.fetched s2
       = Fetcher.fetched (scan_from 100) ++ [(100, 598); (100, 598)]
    /\ event_blocks (Fetcher.self_of s2)
       = rev (map Fetcher.blockNumber [mint_event 101 x01 x02])
         ++ rev (map Fetcher.blockNumber [mint_event 101 x01 x02])
         ++ event_blocks (Fetcher.self_of (scan_from 100)).
Proof.
  apply (run_once_repeats_after_malformed_event 0
           {| Fetcher.latest_block_number := Ok 1000;
              Fetcher.get_logs := fun _ _ =>
                Ok ([mint_event 101 x01 x02] ++ event_without_miner 102 :: []) |}
           499 1000 (scan_from 100)
           [mint_event 101 x01 x02] [] (event_without_miner 102)).
  - reflexivity.
  - cbn. lia.
  - reflexivity.
  - constructor; [unfold has_miner_topic; cbn; lia | constructor].
  - cbn. lia.
Defined.



(** X9 (run_once, batch_size below 1): with [batch_size <= 0], a head at
    or above the checkpoint and a node whose events all have a miner
    topic, the loop never ends: no amount of fuel lets the run return. *)
Theorem run_once_diverges_without_batch (w3 : Fetcher.node)
    (batch_size current_block : Z) (s : Fetcher.scan) :
  batch_size <= 0 ->
  well_formed_node w3 ->
  Fetcher.latest_block_number w3 = Ok current_block ->
  Fetcher.load_last_processed_block (Fetcher.checkpoint s) <= current_block ->
  forall fuel : nat, Fetcher.run_once fuel w3 batch_size s = None.
Proof.
  intros Hbatch Hwf Hhead Hstart fuel.
  unfold run_once. rewrite Hhead.
  replace (load_last_processed_block (checkpoint s) >? current_block)
    with false
    by (symmetry; rewrite Z.gtb_ltb; apply Z.ltb_ge; lia).
  apply scan_loop_diverges; assumption.
Qed.

Lemma run_once_diverges_without_batch_witness :
  Fetcher.run_once 1000 (quiet_node 1000) 0 (scan_from 100) = None.
Proof.
  apply (run_once_diverges_without_batch (quiet_node 1000) 0 1000
           (scan_from 100)).
  - lia.
  - intros a b logs H. inversion H. constructor.
  - reflexivity.
  - cbn. lia.
Defined.

(** X10 (process_transaction, order of mined_blocks): a list of events
    that all have a miner topic is processed to the end; the entries
    that stand for events then list the blocks of the events newest
    first, in front of the earlier ones, and each event has added its
    entry and at most one marker. *)
Theorem process_all_newest_first
    (self : Fetcher.fetcher) (logs : list Fetcher.transaction) :
  Forall has_miner_topic logs ->
  exists self' : Fetcher.fetcher,
    Fetcher.process_all self logs = (self', None)
    /\ event_blocks self'
       = rev (map Fetcher.blockNumber logs) ++ event_blocks self
    /\ (length (Fetcher.mined_blocks self) + length logs
        <= length (Fetcher.mined_blocks self')
        <= length (Fetcher.mined_blocks self) + 2 * length logs)%nat.
Proof.
  intros Hlogs. exact (process_all_events logs Hlogs self).
Qed.

Lemma process_all_newest_first_witness :
  exists self' : Fetcher.fetcher,
    Fetcher.process_all fresh_fetcher
      [mint_event 5 x01 x01; mint_event 6 x01 x02; mint_event 9 x02 x03]
    = (self', None)
    /\ event_blocks self'
       = rev (map Fetcher.blockNumber
                [mint_event 5 x01 x01; mint_event 6 x01 x02;
                 mint_event 9 x02 x03])
         ++ event_blocks fresh_fetcher
    /\ (length (Fetcher.mined_blocks fresh_fetcher) + 3
        <= length (Fetcher.mined_blocks self')
        <= length (Fetcher.mined_blocks fresh_fetcher) + 2 * 3)%nat.
Proof.
  apply (process_all_newest_first fresh_fetcher
           [mint_event 5 x01 x01; mint_event 6 x01 x02; mint_event 9 x02 x03]).
  repeat constructor; unfold has_miner_topic; cbn; lia.
Defined.

End ScanEdges.

(** * Storage words and their fields *)

Section SlotFields.

Import Prices.

Lemma land_ones_mod (a n : Z) :
  0 <= n -> Z.land a (Z.shiftl 1 n - 1) = a mod 2 ^ n.
Proof.
  intros Hn. rewrite Z.shiftl_1_l, Z.sub_1_r, <- Z.ones_equiv.
  apply Z.land_ones, Hn.
Qed.

Lemma field_mod (packed i : Z) :
  0 <= i ->
  Z.land (Z.shiftr packed i) (Z.shiftl 1 24 - 1) = (packed / 2 ^ i) mod 2 ^ 24.
Proof.
  intros Hi. rewrite land_ones_mod by lia. rewrite Z.shiftr_div_pow2 by lia.
  reflexivity.
Qed.

Lemma unpack_slot0_fields (packed : Z) :
  unpack_slot0 packed
  = (packed mod 2 ^ 160,
     (let field := (packed / 2 ^ 160) mod 2 ^ 24 in
      if field <? 2 ^ 23 then field else field - 2 ^ 24),
     (packed / 2 ^ 184) mod 2 ^ 24,
     (packed / 2 ^ 208) mod 2 ^ 24).
Proof.
  unfold unpack_slot0.
  rewrite !field_mod, land_ones_mod by lia.
  set (field := (packed / 2 ^ 160) mod 2 ^ 24).
  assert (Hfield : 0 <= field < 2 ^ 24) by (apply Z.mod_pos_bound; lia).
  cbv zeta. f_equal. f_equal. f_equal.
  rewrite Z.shiftl_1_l, land_pow2_testbit by lia.
  assert (Hbit : Z.testbit field 23 = (2 ^ 23 <=? field)).
  { apply testbit_top; [lia|]. exact Hfield. }
  rewrite Hbit.
  destruct (Z.leb_spec (2 ^ 23) field) as [Hn | Hp].
  - replace (field <? 2 ^ 23) with false by (symmetry; apply Z.ltb_ge; lia).
    reflexivity.
  - replace (field <? 2 ^ 23) with true by (symmetry; apply Z.ltb_lt; lia).
    reflexivity.
Qed.

Lemma split_low_232 (packed : Z) :
  packed mod 2 ^ 232
  = packed mod 2 ^ 160
    + ((packed / 2 ^ 160) mod 2 ^ 24
       + ((packed / 2 ^ 184) mod 2 ^ 24
          + (packed / 2 ^ 208) mod 2 ^ 24 * 2 ^ 24) * 2 ^ 24) * 2 ^ 160.
Proof.
  replace (2 ^ 232) with (2 ^ 160 * 2 ^ 72) by (rewrite <- Z.pow_add_r; lia).
  rewrite Z.rem_mul_r by lia.
  replace (2 ^ 72) with (2 ^ 24 * 2 ^ 48) by (rewrite <- Z.pow_add_r; lia).
  rewrite Z.rem_mul_r by lia.
  replace (2 ^ 48) with (2 ^ 24 * 2 ^ 24) by (rewrite <- Z.pow_add_r; lia).
  rewrite Z.rem_mul_r by lia.
  rewrite !Z.div_div by lia.
  replace (2 ^ 160 * 2 ^ 24) with (2 ^ 184) by (rewrite <- Z.pow_add_r; lia).
  replace (2 ^ 184 * 2 ^ 24) with (2 ^ 208) by (rewrite <- Z.pow_add_r; lia).
  ring.
Qed.

(** X11 (unpack_slot0, any word): whatever integer is decoded, the price
    field lies in [0, 2^160), the tick in [-2^23, 2^23) and both fees in
    [0, 2^24); the fields are the digits of the word in the mixed radix
    2^160, 2^24, 2^24, 2^24; and packing them again gives the word
    modulo 2^232, so that the decoding loses nothing below bit 232 and
    ignores everything from bit 232 on. *)
Theorem unpack_slot0_total (packed : Z) :
  let '(sqrtPriceX96, tick, protocolFee, lpFee) := Prices.unpack_slot0 packed in
  0 <= sqrtPriceX96 < 2 ^ 160
  /\ - 2 ^ 23 <= tick < 2 ^ 23
  /\ 0 <= protocolFee < 2 ^ 24
  /\ 0 <= lpFee < 2 ^ 24
  /\ sqrtPriceX96 = packed mod 2 ^ 160
  /\ tick mod 2 ^ 24 = (packed / 2 ^ 160) mod 2 ^ 24
  /\ protocolFee = (packed / 2 ^ 184) mod 2 ^ 24
  /\ lpFee = (packed / 2 ^ 208) mod 2 ^ 24
  /\ Prices.pack_slot0 sqrtPriceX96 tick protocolFee lpFee = packed mod 2 ^ 232
  /\ Prices.unpack_slot0 (packed mod 2 ^ 232) = Prices.unpack_slot0 packed.
Proof.
  rewrite unpack_slot0_fields. cbv zeta.
  set (sq := packed mod 2 ^ 160).
  set (field := (packed / 2 ^ 160) mod 2 ^ 24).
  set (pf := (packed / 2 ^ 184) mod 2 ^ 24).
  set (lf := (packed / 2 ^ 208) mod 2 ^ 24).
  assert (Hsq : 0 <= sq < 2 ^ 160) by (apply Z.mod_pos_bound; lia).
  assert (Hfield : 0 <= field < 2 ^ 24) by (apply Z.mod_pos_bound; lia).
  assert (Hpf : 0 <= pf < 2 ^ 24) by (apply Z.mod_pos_bound; lia).
  assert (Hlf : 0 <= lf < 2 ^ 24) by (apply Z.mod_pos_bound; lia).
  assert (Htick : (if field <? 2 ^ 23 then field else field - 2 ^ 24) mod 2 ^ 24
                  = field).
  { destruct (Z.ltb_spec field (2 ^ 23)).
    - apply Z.mod_small. lia.
    - replace (field - 2 ^ 24) with (field + (-1) * 2 ^ 24) by ring.
      rewrite Z.mod_add by lia. apply Z.mod_small. lia. }
  assert (Hpack : pack_slot0 sq
                    (if field <? 2 ^ 23 then field else field - 2 ^ 24) pf lf
                  = packed mod 2 ^ 232).
  { rewrite pack_slot0_sum by lia. rewrite Htick, split_low_232. reflexivity. }
  split; [exact Hsq|].
  split; [destruct (Z.ltb_spec field (2 ^ 23)); lia|].
  split; [exact Hpf|]. split; [exact Hlf|].
  split; [reflexivity|]. split; [exact Htick|].
  split; [reflexivity|]. split; [reflexivity|].
  split; [exact Hpack|].
  rewrite (unpack_slot0_fields (packed mod 2 ^ 232)).
  assert (Hlow : forall i, 0 <= i <= 208 ->
            ((packed mod 2 ^ 232) / 2 ^ i) mod 2 ^ 24
            = (packed / 2 ^ i) mod 2 ^ 24).
  { intros i Hi.
    rewrite <- !Z.shiftr_div_pow2 by lia.
    rewrite <- !Z.land_ones by lia.
    apply Z.bits_inj'. intros n Hn.
    rewrite !Z.land_spec, !Z.shiftr_spec by lia.
    rewrite Z.land_spec, !Z.testbit_ones_nonneg by lia.
    destruct (Z.ltb_spec n 24); [|rewrite !andb_false_r; reflexivity].
    replace (n + i <? 232) with true by (symmetry; apply Z.ltb_lt; lia).
    rewrite !andb_true_r. reflexivity. }
  rewrite !Hlow by lia.
  replace ((packed mod 2 ^ 232) mod 2 ^ 160) with (packed mod 2 ^ 160).
  - reflexivity.
  - symmetry.
    replace (2 ^ 232) with (2 ^ 160 * 2 ^ 72) by (rewrite <- Z.pow_add_r; lia).
    rewrite Z.rem_mul_r by lia.
    rewrite (Z.mul_comm (2 ^ 160) ((packed / 2 ^ 160) mod 2 ^ 72)).
    rewrite Z.mod_add by lia. apply Z.mod_mod. lia.
Qed.

(** X12 (get_storage_with_retry and unpack_slot0): the price field of a
    word read from storage is the big-endian integer of its last 20
    bytes, whatever the length of the answer. *)
Theorem sqrtPriceX96_last_20_bytes (data : list byte) :
  let '(sqrtPriceX96, _, _, _) :=
    Prices.unpack_slot0 (int_from_bytes_big data) in
  sqrtPriceX96 = int_from_bytes_big (skipn (length data - 20) data).
Proof.
  rewrite unpack_slot0_fields.
  rewrite <- (firstn_skipn (length data - 20) data) at 1.
  rewrite int_from_bytes_big_app.
  set (low := skipn (length data - 20) data).
  assert (Hlen : (length low <= 20)%nat)
    by (unfold low; rewrite length_skipn; lia).
  pose proof (int_from_bytes_big_range low) as Hlow.
  destruct (Nat.eq_dec (length low) 20) as [E | Hne].
  - rewrite E in *.
    replace (256 ^ Z.of_nat 20) with (2 ^ 160) in * by reflexivity.
    rewrite Z.add_comm, Z.mod_add by lia. apply Z.mod_small. exact Hlow.
  - assert (Hall : (length data - 20 = 0)%nat).
    { unfold low in Hlen, Hne. rewrite length_skipn in *. lia. }
    rewrite Hall. cbn [firstn]. change (int_from_bytes_big []) with 0.
    rewrite Z.mul_0_l, Z.add_0_l. apply Z.mod_small.
    split; [lia|].
    apply Z.lt_le_trans with (256 ^ Z.of_nat (length low)); [lia|].
    replace (2 ^ 160) with (256 ^ 20) by reflexivity.
    apply Z.pow_le_mono_r; lia.
Qed.

End SlotFields.

Section RetryAnyCount.

Import Prices.

(** X13 (get_storage_with_retry, any retries and delay): with [retries]
    at or below 0 the call raises at once without a read, whatever the
    delay.  For a delay the sleep accepts, from 0 to 4294967 seconds:
    when the read succeeds first on attempt [k] below [retries], the
    call returns the big-endian integer of the answer, which lies below
    [256 ** len], after [k] failed reads each followed by a sleep of
    [delay]; when every attempt fails, the trace is [retries] reads,
    each followed by a sleep, the last one too, and the error carries
    the slot and the count.  For a negative delay and a positive
    [retries] there is one read only: its answer is returned, and when
    it fails the sleep in the handler raises, [ValueError] down to
    -9223372036 and [OverflowError] below, and that error ends the call
    with no sleep taken and no second attempt. *)
Theorem get_storage_with_retry_trace
    (getStorageAt : nat -> string -> string -> Z -> result (list byte))
    (address slot : string) (block retries delay : Z) :
  let run :=
    Prices.get_storage_with_retry getStorageAt address slot block retries delay in
  (retries <= 0 -> run = (Raise (RuntimeError slot retries), []))
  /\ (0 <= delay <= 4294967 ->
      (forall (k : nat) (data : list byte),
          Z.of_nat k < retries ->
          (forall i, (i < k)%nat ->
                     exists e, getStorageAt i address slot block = Raise e) ->
          getStorageAt k address slot block = Ok data ->
          run = (Ok (int_from_bytes_big data),
                 failed_attempts address slot block delay k
                 ++ [GetStorageAt address slot block])
          /\ 0 <= int_from_bytes_big data < 256 ^ Z.of_nat (length data))
      /\ ((forall i, Z.of_nat i < retries ->
                     exists e, getStorageAt i address slot block = Raise e) ->
          run = (Raise (RuntimeError slot retries),
                 failed_attempts address slot block delay (Z.to_nat retries))))
  /\ (delay < 0 -> 0 < retries ->
      (forall data : list byte,
          getStorageAt 0%nat address slot block = Ok data ->
          run = (Ok (int_from_bytes_big data),
                 [GetStorageAt address slot block]))
      /\ (forall e : exn,
             getStorageAt 0%nat address slot block = Raise e ->
             run = (Raise (if delay <? -9223372036 then OverflowError
                           else ValueError),
                    [GetStorageAt address slot block]))).
Proof.
  cbv zeta. unfold get_storage_with_retry. split; [|split].
  - intros Hle. replace (Z.to_nat retries) with 0%nat by lia. reflexivity.
  - intros Hdelay.
    assert (Hsleep : time_sleep delay = Ok tt)
      by (apply time_sleep_returns; lia).
    split.
    + intros k data Hk Hfail Hok. split.
      * apply (retry_loop_success getStorageAt address slot block retries
                 delay Hsleep k data (Z.to_nat retries) 0);
          [lia | exact Hfail | exact Hok].
      * apply int_from_bytes_big_range.
    + intros Hfail.
      apply (retry_loop_exhausted getStorageAt address slot block retries
               delay Hsleep (Z.to_nat retries) 0).
      intros i Hi. apply Hfail. lia.
  - intros Hdelay Hretries.
    destruct (Z.to_nat retries) as [| remaining] eqn:E; [lia|].
    split.
    + intros data Hok. cbn [retry_loop]. rewrite Hok. reflexivity.
    + intros e He.
      apply (retry_loop_sleep_raises getStorageAt address slot block retries
               delay e _ remaining 0%nat He).
      apply time_sleep_negative. exact Hdelay.
Qed.

End RetryAnyCount.

(** A node that fails three times and then answers [01 00]: with seven
    retries and a delay of 3 the call returns 256 after three failed
    reads and three sleeps; with a delay of -1 the same node makes the
    call raise [ValueError] after its first read. *)
Lemma get_storage_with_retry_trace_witness :
  (Prices.get_storage_with_retry
     (fun attempt _ _ _ =>
        if (attempt <? 3)%nat then Raise RpcError else Ok [x01; x00]%byte)
     "pool_manager" "pool_slot" 34582182 7 3
   = (Ok 256,
      failed_attempts "pool_manager" "pool_slot" 34582182 3 3
      ++ [GetStorageAt "pool_manager" "pool_slot" 34582182])
   /\ 0 <= 256 < 256 ^ 2)
  /\ Prices.get_storage_with_retry
       (fun attempt _ _ _ =>
          if (attempt <? 3)%nat then Raise RpcError else Ok [x01; x00]%byte)
       "pool_manager" "pool_slot" 34582182 7 (-1)
     = (Raise ValueError, [GetStorageAt "pool_manager" "pool_slot" 34582182]).
Proof.
  split.
  - apply (proj1 (proj1 (proj2 (get_storage_with_retry_trace
                           (fun attempt _ _ _ =>
                              if (attempt <? 3)%nat then Raise RpcError
                              else Ok [x01; x00]%byte)
                           "pool_manager" "pool_slot" 34582182 7 3))
                    ltac:(lia))
             3%nat [x01; x00]%byte).
    + lia.
    + intros i Hi. exists RpcError.
      destruct i as [| [| [| i]]]; try reflexivity. lia.
    + reflexivity.
  - apply (proj2 (proj2 (proj2 (get_storage_with_retry_trace
                           (fun attempt _ _ _ =>
                              if (attempt <? 3)%nat then Raise RpcError
                              else Ok [x01; x00]%byte)
                           "pool_manager" "pool_slot" 34582182 7 (-1)))
                    ltac:(lia) ltac:(lia))
             RpcError).
    reflexivity.
Defined.

(** * Target anchors: the day's targets, the next one, the missing ones *)

Section Anchors.

Import Prices.

Lemma in_range_dec (ts : Z) :
  in_datetime_range ts ->
  (datetime_min <=? ts) && (ts <=? datetime_max) = true.
Proof.
  unfold in_datetime_range. intros H.
  apply andb_true_intro. split; apply Z.leb_le; lia.
Qed.

Lemma out_of_range_dec (ts : Z) :
  ~ in_datetime_range ts ->
  (datetime_min <=? ts) && (ts <=? datetime_max) = false.
Proof.
  unfold in_datetime_range. intros H.
  destruct (Z.leb_spec datetime_min ts), (Z.leb_spec ts datetime_max);
    cbn; try reflexivity. lia.
Qed.

Lemma day_targets_in_range (day_timestamp : Z) :
  in_datetime_range day_timestamp ->
  get_target_timestamps_for_day day_timestamp
  = Ok [86400 * (day_timestamp / 86400);
        86400 * (day_timestamp / 86400) + 21600;
        86400 * (day_timestamp / 86400) + 43200;
        86400 * (day_timestamp / 86400) + 64800].
Proof.
  intros Hr. unfold get_target_timestamps_for_day.
  rewrite (in_range_dec _ Hr). cbv zeta. unfold TARGET_HOURS. cbn [map].
  replace (day_timestamp - day_timestamp mod 86400)
    with (86400 * (day_timestamp / 86400))
    by (pose proof (Z.div_mod day_timestamp 86400 ltac:(lia)); lia).
  change (0 * 3600) with 0. change (6 * 3600) with 21600.
  change (12 * 3600) with 43200. change (18 * 3600) with 64800.
  rewrite Z.add_0_r. reflexivity.
Qed.

Lemma start_of_day_in_range (ts offset : Z) :
  in_datetime_range ts -> 0 <= offset < 86400 ->
  in_datetime_range (86400 * (ts / 86400) + offset).
Proof.
  unfold in_datetime_range, datetime_min, datetime_max. intros Hr Ho.
  Z.div_mod_to_equations. lia.
Qed.

(** A multiple of six hours is accepted by [is_target_time]. *)
Lemma anchor_target (t : Z) : t mod 21600 = 0 -> target_b t = true.
Proof.
  intros Hmod.
  assert (Hcases : t mod 86400 = 0 \/ t mod 86400 = 21600
                   \/ t mod 86400 = 43200 \/ t mod 86400 = 64800)
    by (Z.div_mod_to_equations; lia).
  unfold target_b, TARGET_HOURS, in_window, seconds_since_anchor.
  cbn [existsb].
  destruct Hcases as [E | [E | [E | E]]]; rewrite E; reflexivity.
Qed.

Lemma anchor_is_target_time (t : Z) :
  in_datetime_range t -> t mod 21600 = 0 -> is_target_time t 30 = Ok true.
Proof.
  intros Hr Hmod. rewrite (is_target_time_in_range t Hr).
  rewrite (anchor_target t Hmod). reflexivity.
Qed.

(** X14 (get_target_timestamps_for_day): for a timestamp that [datetime]
    can represent the result is the four instants 00:00, 06:00, 12:00
    and 18:00 UTC of its own day, in increasing order; each is a
    multiple of six hours that [is_target_time] accepts; outside that
    range the call raises. *)
Theorem get_target_timestamps_for_day_anchors (day_timestamp : Z) :
  let start_of_day := 86400 * (day_timestamp / 86400) in
  (in_datetime_range day_timestamp ->
   Prices.get_target_timestamps_for_day day_timestamp
   = Ok [start_of_day; start_of_day + 21600;
         start_of_day + 43200; start_of_day + 64800]
   /\ start_of_day <= day_timestamp < start_of_day + 86400
   /\ Forall (fun t => t mod 21600 = 0
                       /\ Prices.is_target_time t 30 = Ok true)
        [start_of_day; start_of_day + 21600;
         start_of_day + 43200; start_of_day + 64800])
  /\ (~ in_datetime_range day_timestamp ->
      Prices.get_target_timestamps_for_day day_timestamp
      = Raise DateRangeError).
Proof.
  cbv zeta. split.
  - intros Hr. split; [apply day_targets_in_range, Hr|].
    split; [Z.div_mod_to_equations; lia|].
    assert (Hanchor : forall offset,
               0 <= offset < 86400 -> offset mod 21600 = 0 ->
               (86400 * (day_timestamp / 86400) + offset) mod 21600 = 0
               /\ is_target_time (86400 * (day_timestamp / 86400) + offset) 30
                  = Ok true).
    { intros offset Ho Hmod.
      assert (Hm : (86400 * (day_timestamp / 86400) + offset) mod 21600 = 0)
        by (Z.div_mod_to_equations; lia).
      split; [exact Hm|].
      apply anchor_is_target_time; [|exact Hm].
      apply start_of_day_in_range; assumption. }
    repeat constructor.
    + rewrite <- (Z.add_0_r (86400 * (day_timestamp / 86400))).
      apply Hanchor; [lia | reflexivity].
    + rewrite <- (Z.add_0_r (86400 * (day_timestamp / 86400))).
      apply Hanchor; [lia | reflexivity].
    + apply Hanchor; [lia | reflexivity].
    + apply Hanchor; [lia | reflexivity].
    + apply Hanchor; [lia | reflexivity].
    + apply Hanchor; [lia | reflexivity].
    + apply Hanchor; [lia | reflexivity].
    + apply Hanchor; [lia | reflexivity].
  - intros Hr. unfold get_target_timestamps_for_day.
    rewrite (out_of_range_dec _ Hr). reflexivity.
Qed.

Lemma get_target_timestamps_for_day_anchors_witness :
  Prices.get_target_timestamps_for_day 1700000000
  = Ok [1699920000; 1699941600; 1699963200; 1699984800].
Proof.
  apply (proj1 (get_target_timestamps_for_day_anchors 1700000000)).
  unfold in_datetime_range, datetime_min, datetime_max. lia.
Defined.

(** X15 (get_next_target_time): for a timestamp that [datetime] can
    represent the result is the smallest multiple of six hours strictly
    after it, at most six hours away; the call raises only when that
    instant lies beyond the last second of the year 9999. *)
Theorem get_next_target_time_next_anchor (current_timestamp : Z) :
  in_datetime_range current_timestamp ->
  let next := 21600 * (current_timestamp / 21600 + 1) in
  Prices.get_next_target_time current_timestamp
  = (if next <=? Prices.datetime_max then Ok next else Raise DateRangeError)
  /\ current_timestamp < next <= current_timestamp + 21600
  /\ (forall t, current_timestamp < t -> t mod 21600 = 0 -> next <= t).
Proof.
  intros Hr next. split; [|split].
  - unfold get_next_target_time.
    pose proof Hr as Hr'. unfold in_datetime_range in Hr'.
    rewrite (utc_hour_minute_in_range _ Hr). cbn [bind].
    rewrite (day_targets_in_range _ Hr). cbn [bind find].
    set (d := 86400 * (current_timestamp / 86400)).
    assert (Hd : d <= current_timestamp < d + 86400)
      by (unfold d; Z.div_mod_to_equations; lia).
    assert (Hdmax : d + 86400 <= datetime_max + 1).
    { unfold d, datetime_max in *. Z.div_mod_to_equations. lia. }
    assert (Hnext : forall k, 0 <= k < 4 ->
               d + 21600 * k <= current_timestamp < d + 21600 * (k + 1) ->
               next = d + 21600 * (k + 1)).
    { intros k Hk Hc. unfold next, d in *. Z.div_mod_to_equations. lia. }
    destruct (Z.gtb_spec d current_timestamp) as [H0 | H0]; [lia|].
    destruct (Z.gtb_spec (d + 21600) current_timestamp) as [H1 | H1].
    { rewrite (Hnext 0) by lia.
      replace (d + 21600 * (0 + 1) <=? datetime_max) with true
        by (symmetry; apply Z.leb_le; lia).
      f_equal; lia. }
    destruct (Z.gtb_spec (d + 43200) current_timestamp) as [H2 | H2].
    { rewrite (Hnext 1) by lia.
      replace (d + 21600 * (1 + 1) <=? datetime_max) with true
        by (symmetry; apply Z.leb_le; lia).
      f_equal; lia. }
    destruct (Z.gtb_spec (d + 64800) current_timestamp) as [H3 | H3].
    { rewrite (Hnext 2) by lia.
      replace (d + 21600 * (2 + 1) <=? datetime_max) with true
        by (symmetry; apply Z.leb_le; lia).
      f_equal; lia. }
    rewrite (Hnext 3) by lia. cbv zeta.
    assert (Hmin : datetime_min <= current_timestamp + 24 * 60 * 60)
      by (unfold datetime_min in *; lia).
    destruct (Z.leb_spec (d + 21600 * (3 + 1)) datetime_max) as [Hin | Hout].
    + assert (Hr2 : in_datetime_range (current_timestamp + 24 * 60 * 60)).
      { unfold in_datetime_range. split; [exact Hmin|].
        unfold d, datetime_max in *. Z.div_mod_to_equations. lia. }
      rewrite (day_targets_in_range _ Hr2). cbn [bind getitem nth_error of_option].
      f_equal. unfold d. Z.div_mod_to_equations. lia.
    + assert (Hr2 : ~ in_datetime_range (current_timestamp + 24 * 60 * 60)).
      { unfold in_datetime_range. intros [_ Hle].
        unfold d, datetime_max in *. Z.div_mod_to_equations. lia. }
      unfold get_target_timestamps_for_day.
      rewrite (out_of_range_dec _ Hr2). reflexivity.
  - unfold next. Z.div_mod_to_equations. lia.
  - intros t Ht Hmod. unfold next. Z.div_mod_to_equations. lia.
Qed.

Lemma get_next_target_time_next_anchor_witness :
  Prices.get_next_target_time 1700000000 = Ok 1700006400.
Proof.
  apply (get_next_target_time_next_anchor 1700000000).
  unfold in_datetime_range, datetime_min, datetime_max. lia.
Defined.

End Anchors.

(** * The missing target timestamps *)

Section Missing.

Import Prices.

Lemma sort_insert_int_In (x y : Z) (l : list Z) :
  In y (sort_insert_int x l) <-> y = x \/ In y l.
Proof.
  induction l as [| a l IH]; cbn [sort_insert_int In].
  - intuition.
  - destruct (x <=? a); cbn [In]; rewrite ?IH; intuition.
Qed.

Lemma sort_ints_In (y : Z) (l : list Z) : In y (sort_ints l) <-> In y l.
Proof.
  induction l as [| a l IH]; cbn [sort_ints In]; [reflexivity|].
  rewrite sort_insert_int_In, IH. intuition.
Qed.

Lemma sort_insert_int_sorted (x : Z) (l : list Z) :
  StronglySorted Z.le l -> StronglySorted Z.le (sort_insert_int x l).
Proof.
  induction 1 as [| a l Hs IH Ha]; cbn [sort_insert_int].
  - repeat constructor.
  - destruct (Z.leb_spec x a) as [Hle | Hgt].
    + constructor; [constructor; assumption|].
      constructor; [exact Hle|].
      eapply Forall_impl; [|exact Ha]. cbv beta. intros b Hb. lia.
    + constructor; [exact IH|].
      apply Forall_forall. intros b Hb.
      apply sort_insert_int_In in Hb. destruct Hb as [-> | Hb]; [lia|].
      rewrite Forall_forall in Ha. apply Ha, Hb.
Qed.

Lemma sort_ints_sorted (l : list Z) : StronglySorted Z.le (sort_ints l).
Proof.
  induction l as [| a l IH]; cbn [sort_ints]; [constructor|].
  apply sort_insert_int_sorted, IH.
Qed.

Lemma sort_insert_int_NoDup (x : Z) (l : list Z) :
  NoDup l -> ~ In x l -> NoDup (sort_insert_int x l).
Proof.
  induction 1 as [| a l Ha Hl IH]; cbn [sort_insert_int]; intros Hx.
  - repeat constructor. intros [].
  - destruct (x <=? a).
    + constructor; [exact Hx|]. constructor; assumption.
    + cbn [In] in Hx. constructor.
      * rewrite sort_insert_int_In. intuition.
      * apply IH. intuition.
Qed.

Lemma sort_ints_NoDup (l : list Z) : NoDup l -> NoDup (sort_ints l).
Proof.
  induction 1 as [| a l Ha Hl IH]; cbn [sort_ints]; [constructor|].
  apply sort_insert_int_NoDup; [exact IH|].
  rewrite sort_ints_In. exact Ha.
Qed.

Lemma sorted_NoDup_lt (l : list Z) :
  StronglySorted Z.le l -> NoDup l -> StronglySorted Z.lt l.
Proof.
  induction 1 as [| a l Hs IH Ha]; intros Hnd; [constructor|].
  inversion Hnd as [| ? ? Hnotin Hnd']; subst.
  constructor; [apply IH, Hnd'|].
  apply Forall_forall. intros b Hb.
  rewrite Forall_forall in Ha. specialize (Ha b Hb).
  assert (a <> b) by (intros ->; contradiction). lia.
Qed.

Lemma existing_target_times_in_range (timestamps : list Z) :
  Forall in_datetime_range timestamps ->
  existing_target_times timestamps = Ok (filter target_b timestamps).
Proof.
  induction 1 as [| ts rest Hts _ IH]; [reflexivity|].
  cbn [existing_target_times filter].
  rewrite (is_target_time_in_range ts Hts), IH. cbn [bind].
  destruct (target_b ts); reflexivity.
Qed.

(** The targets of the day that lies [days_back] days before the day
    that starts at [d0]. *)
Local Abbreviation day_anchors d0 days_back :=
  [d0 - 86400 * days_back; d0 - 86400 * days_back + 21600;
   d0 - 86400 * days_back + 43200; d0 - 86400 * days_back + 64800].

Lemma day_targets_back (current_timestamp days_back : Z) :
  in_datetime_range (current_timestamp - days_back * 24 * 60 * 60) ->
  get_target_timestamps_for_day (current_timestamp - days_back * 24 * 60 * 60)
  = Ok (day_anchors (86400 * (current_timestamp / 86400)) days_back).
Proof.
  intros Hr. rewrite (day_targets_in_range _ Hr).
  replace (86400 * ((current_timestamp - days_back * 24 * 60 * 60) / 86400))
    with (86400 * (current_timestamp / 86400) - 86400 * days_back);
    [reflexivity|].
  replace (current_timestamp - days_back * 24 * 60 * 60)
    with (current_timestamp + (- days_back) * 86400) by ring.
  rewrite Z.div_add by lia. ring.
Qed.

Lemma missing_loop_in_range (existing : list Z) (current_timestamp : Z)
    (days : list Z) :
  Forall (fun days_back =>
            in_datetime_range (current_timestamp - days_back * 24 * 60 * 60))
    days ->
  forall missing : list Z,
    missing_loop existing current_timestamp days missing
    = Ok (missing
          ++ flat_map
               (fun days_back =>
                  filter (is_missing existing current_timestamp)
                    (day_anchors (86400 * (current_timestamp / 86400))
                       days_back))
               days).
Proof.
  induction 1 as [| days_back days Hd _ IH]; intros missing.
  - cbn. rewrite app_nil_r. reflexivity.
  - cbn [missing_loop flat_map]. cbv zeta.
    rewrite (day_targets_back _ _ Hd). cbn [bind].
    rewrite IH, <- app_assoc. reflexivity.
Qed.

Lemma range_In (n d : Z) : In d (range n) <-> 0 <= d < n.
Proof.
  unfold range. rewrite in_map_iff. split.
  - intros (k & <- & Hk). apply in_seq in Hk. lia.
  - intros Hd. exists (Z.to_nat d). split; [lia|]. apply in_seq. lia.
Qed.

(** What [is_missing] tests, on the set of stored target timestamps. *)
Lemma is_missing_spec (timestamps : list Z) (current_timestamp t : Z) :
  is_missing (filter target_b timestamps) current_timestamp t = true
  <-> (t < current_timestamp
       /\ forall e, In e timestamps -> target_b e = true ->
                    1800 <= Z.abs (e - t)).
Proof.
  unfold is_missing. rewrite !andb_true_iff, !negb_true_iff. split.
  - intros [[Hlt _] Hclose]. split; [apply Z.ltb_lt, Hlt|].
    intros e He Ht.
    destruct (Z.lt_ge_cases (Z.abs (e - t)) 1800) as [Hc | Hc]; [|lia].
    assert (Hex : existsb (fun existing_ts => Z.abs (existing_ts - t) <? 30 * 60)
                    (filter target_b timestamps) = true).
    { apply existsb_exists. exists e. split.
      - apply filter_In. split; assumption.
      - apply Z.ltb_lt. lia. }
    congruence.
  - intros [Hlt Hfar]. split; [split|].
    + apply Z.ltb_lt, Hlt.
    + apply not_true_is_false. intros Hex.
      apply existsb_exists in Hex. destruct Hex as (e & He & Heq).
      apply filter_In in He. apply Z.eqb_eq in Heq. subst e.
      specialize (Hfar t (proj1 He) (proj2 He)). lia.
    + apply not_true_is_false. intros Hex.
      apply existsb_exists in Hex. destruct Hex as (e & He & Hc).
      apply filter_In in He. apply Z.ltb_lt in Hc.
      specialize (Hfar e (proj1 He) (proj2 He)). lia.
Qed.

Lemma day_anchors_In (d0 days_back t : Z) :
  In t (day_anchors d0 days_back)
  <-> exists k, 0 <= k < 4 /\ t = d0 - 86400 * days_back + 21600 * k.
Proof.
  cbn [In]. split.
  - intros [H | [H | [H | [H | []]]]];
      [exists 0 | exists 1 | exists 2 | exists 3]; lia.
  - intros (k & Hk & ->).
    assert (Hc : k = 0 \/ k = 1 \/ k = 2 \/ k = 3) by lia.
    destruct Hc as [-> | [-> | [-> | ->]]]; lia.
Qed.

Lemma collected_In (P : Z -> bool) (d0 n t : Z) :
  d0 mod 86400 = 0 ->
  In t (flat_map (fun days_back => filter P (day_anchors d0 days_back))
          (range n))
  <-> (t mod 21600 = 0 /\ d0 - 86400 * (n - 1) <= t < d0 + 86400
       /\ P t = true).
Proof.
  intros Hd0. rewrite in_flat_map. split.
  - intros (days_back & Hd & Ht).
    apply range_In in Hd. apply filter_In in Ht. destruct Ht as [Ht HP].
    apply day_anchors_In in Ht. destruct Ht as (k & Hk & ->).
    split; [|split; [lia | exact HP]].
    Z.div_mod_to_equations. lia.
  - intros (Hmod & Hrange & HP).
    exists ((d0 - 86400 * (t / 86400)) / 86400).
    assert (Hq : (d0 - 86400 * (t / 86400)) / 86400 = d0 / 86400 - t / 86400).
    { replace (d0 - 86400 * (t / 86400))
        with (d0 + (- (t / 86400)) * 86400) by ring.
      rewrite Z.div_add by lia. ring. }
    rewrite Hq. split.
    + apply range_In. Z.div_mod_to_equations. lia.
    + apply filter_In. split; [|exact HP].
      apply day_anchors_In. exists ((t mod 86400) / 21600).
      Z.div_mod_to_equations. lia.
Qed.

Lemma day_anchors_NoDup (P : Z -> bool) (d0 days_back : Z) :
  NoDup (filter P (day_anchors d0 days_back)).
Proof.
  apply NoDup_filter.
  repeat constructor; cbn [In]; lia.
Qed.

Lemma collected_NoDup (P : Z -> bool) (d0 : Z) (k : nat) :
  forall first : nat,
    NoDup (flat_map (fun days_back => filter P (day_anchors d0 days_back))
             (map Z.of_nat (seq first k))).
Proof.
  induction k as [| k IH]; intros first; [constructor|].
  cbn [seq map flat_map].
  apply NoDup_app; [apply day_anchors_NoDup | apply IH |].
  intros t Ht Hlater.
  apply filter_In in Ht. destruct Ht as [Ht _].
  apply day_anchors_In in Ht. destruct Ht as (j & Hj & ->).
  apply in_flat_map in Hlater. destruct Hlater as (later & Hl & Ht).
  apply in_map_iff in Hl. destruct Hl as (i & <- & Hi). apply in_seq in Hi.
  apply filter_In in Ht. destruct Ht as [Ht _].
  apply day_anchors_In in Ht. destruct Ht as (j' & Hj' & Heq). lia.
Qed.

(** The missing timestamps, characterised. *)
Lemma missing_timestamps_char
    (timestamps : list Z) (current_timestamp target_days : Z) :
  Forall in_datetime_range timestamps ->
  in_datetime_range current_timestamp ->
  in_datetime_range (current_timestamp - (target_days - 1) * 86400) ->
  1 <= target_days ->
  exists missing : list Z,
    get_missing_timestamps timestamps current_timestamp target_days
    = Ok missing
    /\ StronglySorted Z.lt missing
    /\ forall t : Z,
         In t missing
         <-> (t mod 21600 = 0
              /\ 86400 * (current_timestamp / 86400)
                 - 86400 * (target_days - 1) <= t < current_timestamp
              /\ forall e, In e timestamps ->
                           is_target_time e 30 = Ok true ->
                           1800 <= Z.abs (e - t)).
Proof.
  intros Hts Hcur Hold Hdays.
  unfold get_missing_timestamps.
  rewrite (existing_target_times_in_range _ Hts). cbn [bind].
  rewrite missing_loop_in_range.
  2:{ apply Forall_forall. intros d Hd. apply range_In in Hd.
      unfold in_datetime_range in *. nia. }
  cbn [bind app]. eexists. split; [reflexivity|]. split.
  - apply sorted_NoDup_lt; [apply sort_ints_sorted|].
    apply sort_ints_NoDup. apply collected_NoDup.
  - intros t. rewrite sort_ints_In.
    rewrite collected_In by (Z.div_mod_to_equations; lia).
    rewrite is_missing_spec.
    assert (Hd0 : 86400 * (current_timestamp / 86400) <= current_timestamp
                  < 86400 * (current_timestamp / 86400) + 86400)
      by (Z.div_mod_to_equations; lia).
    split.
    + intros (Hmod & Hrange & Hlt & Hfar).
      split; [exact Hmod|]. split; [lia|].
      intros e He Ht. apply Hfar; [exact He|].
      apply is_target_time_result in Ht. destruct Ht as [_ Ht]. congruence.
    + intros (Hmod & Hrange & Hfar).
      split; [exact Hmod|]. split; [lia|]. split; [lia|].
      intros e He Ht. apply Hfar; [exact He|].
      rewrite Forall_forall in Hts.
      rewrite (is_target_time_in_range e (Hts e He)), Ht. reflexivity.
Qed.

(** X16 (get_missing_timestamps): when every timestamp involved is one
    [datetime] can represent and [target_days >= 1], the call returns a
    strictly increasing list that holds exactly the multiples of six
    hours that are earlier than [current_timestamp], not earlier than
    the midnight that starts the day [target_days - 1] days before, and
    at least 30 minutes away from every stored timestamp that
    [is_target_time] accepts. *)
Theorem get_missing_timestamps_exact
    (timestamps : list Z) (current_timestamp target_days : Z) :
  Forall in_datetime_range timestamps ->
  in_datetime_range current_timestamp ->
  in_datetime_range (current_timestamp - (target_days - 1) * 86400) ->
  1 <= target_days ->
  exists missing : list Z,
    Prices.get_missing_timestamps timestamps current_timestamp target_days
    = Ok missing
    /\ StronglySorted Z.lt missing
    /\ forall t : Z,
         In t missing
         <-> (t mod 21600 = 0
              /\ 86400 * (current_timestamp / 86400)
                 - 86400 * (target_days - 1) <= t < current_timestamp
              /\ forall e, In e timestamps ->
                           Prices.is_target_time e 30 = Ok true ->
                           1800 <= Z.abs (e - t)).
Proof.
  exact (missing_timestamps_char timestamps current_timestamp target_days).
Qed.

Lemma get_missing_timestamps_exact_witness :
  exists missing : list Z,
    Prices.get_missing_timestamps [1699920000; 1699963200; 1699970000]
      1700000000 2
    = Ok missing
    /\ StronglySorted Z.lt missing
    /\ forall t : Z,
         In t missing
         <-> (t mod 21600 = 0
              /\ 86400 * (1700000000 / 86400) - 86400 * (2 - 1) <= t
                 < 1700000000
              /\ forall e, In e [1699920000; 1699963200; 1699970000] ->
                           Prices.is_target_time e 30 = Ok true ->
                           1800 <= Z.abs (e - t)).
Proof.
  apply (get_missing_timestamps_exact [1699920000; 1699963200; 1699970000]
           1700000000 2).
  - repeat constructor; unfold datetime_min, datetime_max; cbn; lia.
  - unfold in_datetime_range, datetime_min, datetime_max. lia.
  - unfold in_datetime_range, datetime_min, datetime_max. lia.
  - lia.
Defined.

End Missing.

(** * Which samples the store keeps *)

Section StoreContents.

Import Prices.
Context {price : Type}.

Local Abbreviation sample := (@sample price).
Local Abbreviation store := (@store price).
Local Abbreviation non_target_sample :=
  (fun s : sample => negb (is_target_sample s)).

Lemma insert_row_In (s r : sample) (rows : list sample) :
  In r (insert_row s rows) <-> r = s \/ In r rows.
Proof.
  unfold insert_row. apply list_insert_In.
Qed.

Lemma update_current_price_rows (rows : list sample) (t b : Z) (p : price) :
  Forall in_datetime_range (map sample_timestamp rows) ->
  update_current_price (map sample_timestamp rows) (map sample_block rows)
    (map sample_price rows) t b p
  = Ok (columns (insert_row (t, b, p) (filter is_target_sample rows))).
Proof.
  intros Hr. unfold update_current_price.
  rewrite (keep_targets_loop_rows (map sample_timestamp rows) 0
             (map sample_block rows) (map sample_price rows) [] [] [] rows)
    by (cbn [skipn]; first [apply zip3_columns | exact Hr]).
  cbn [app bind]. rewrite insert_row_columns. reflexivity.
Qed.

Lemma sort_insert_sorted (s : sample) (l : list sample) :
  StronglySorted (fun a b => sample_timestamp a <= sample_timestamp b) l ->
  StronglySorted (fun a b => sample_timestamp a <= sample_timestamp b)
    (sort_insert s l).
Proof.
  induction 1 as [| a l Hs IH Ha]; cbn [sort_insert].
  - repeat constructor.
  - destruct (Z.leb_spec (sample_timestamp s) (sample_timestamp a))
      as [Hle | Hgt].
    + constructor; [constructor; assumption|].
      constructor; [exact Hle|].
      eapply Forall_impl; [|exact Ha]. cbv beta. intros c Hc. lia.
    + constructor; [exact IH|].
      apply Forall_forall. intros c Hc.
      apply sort_insert_In in Hc. destruct Hc as [-> | Hc]; [lia|].
      rewrite Forall_forall in Ha. apply Ha, Hc.
Qed.

Lemma sort_by_timestamp_sorted (l : list sample) :
  StronglySorted (fun a b => sample_timestamp a <= sample_timestamp b)
    (sort_by_timestamp l).
Proof.
  induction l as [| a l IH]; cbn [sort_by_timestamp]; [constructor|].
  apply sort_insert_sorted, IH.
Qed.

Lemma strongly_sorted_last (l : list sample) (last : sample) :
  StronglySorted (fun a b => sample_timestamp a <= sample_timestamp b)
    (l ++ [last]) ->
  forall r, In r (l ++ [last]) -> sample_timestamp r <= sample_timestamp last.
Proof.
  induction l as [| a l IH]; cbn [app]; intros Hs r Hr.
  - destruct Hr as [<- | []]. lia.
  - inversion Hs as [| ? ? Hs' Ha]; subst.
    destruct Hr as [<- | Hr].
    + rewrite Forall_forall in Ha. apply Ha, in_or_app. right. left.
      reflexivity.
    + apply IH; assumption.
Qed.

Lemma most_recent_latest (l : list sample) (most_recent : sample)
    (others : list sample) :
  rev (sort_by_timestamp l) = most_recent :: others ->
  forall r, In r l -> sample_timestamp r <= sample_timestamp most_recent.
Proof.
  intros Hrev r Hr.
  assert (E : sort_by_timestamp l = rev others ++ [most_recent]).
  { rewrite <- (rev_involutive (sort_by_timestamp l)), Hrev. reflexivity. }
  apply (strongly_sorted_last (rev others) most_recent).
  - rewrite <- E. apply sort_by_timestamp_sorted.
  - rewrite <- E. apply sort_by_timestamp_In, Hr.
Qed.

(** X17 (update_current_price): on co-indexed lists of representable
    timestamps the result holds exactly the stored samples that
    [is_target_time] accepts, in their order, and the current sample,
    put before the first kept timestamp that exceeds its own; every
    other stored sample is dropped, and nothing is evicted, so that the
    result has one sample more than the store has target samples. *)
Theorem update_current_price_keeps_targets
    (rows : list (Z * Z * price)) (t b : Z) (p : price) :
  Forall in_datetime_range (map Prices.sample_timestamp rows) ->
  exists kept : list (Z * Z * price),
    Prices.update_current_price (map Prices.sample_timestamp rows)
      (map Prices.sample_block rows) (map Prices.sample_price rows) t b p
    = Ok (columns kept)
    /\ kept = insert_row (t, b, p) (filter is_target_sample rows)
    /\ (forall r, In r kept
                  <-> r = (t, b, p) \/ (In r rows /\ is_target_sample r = true))
    /\ length kept = S (length (filter is_target_sample rows))
    /\ (is_target_sample (t, b, p) = false ->
        filter is_target_sample kept = filter is_target_sample rows).
Proof.
  intros Hr. eexists. split; [apply update_current_price_rows, Hr|].
  split; [reflexivity|]. split; [|split].
  - intros r. rewrite insert_row_In, filter_In. reflexivity.
  - unfold insert_row. rewrite list_insert_length. reflexivity.
  - intros Hnt. unfold insert_row.
    rewrite list_insert_filter_keep by exact Hnt.
    apply filter_all, filter_target_idem.
Qed.

(** X18 (main, target branch with eviction): at a timestamp
    [is_target_time] accepts, one pass of the monitoring loop on
    co-indexed lists inserts the sample and then drops the oldest entries
    down to [MAX_DATA_POINTS]; it removes no sample otherwise, so the
    result has [min(len + 1, 120)] samples, and below the cap every
    stored timestamp is still there beside the new one: passes that fall
    in one window each add a sample of their own. *)
Theorem monitor_tick_target_accumulates
    (timestamps blocks : list Z) (prices : list price) (t b : Z) (p : price) :
  length blocks = length timestamps ->
  length prices = length timestamps ->
  Prices.is_target_time t 30 = Ok true ->
  let pos := Prices.insert_pos_after t timestamps in
  let k := (S (length timestamps) - 120)%nat in
  Prices.monitor_tick timestamps blocks prices t b p
  = Ok (skipn k (list_insert pos t timestamps),
        skipn k (list_insert pos b blocks),
        skipn k (list_insert pos p prices))
  /\ length (skipn k (list_insert pos t timestamps))
     = Nat.min (S (length timestamps)) 120
  /\ ((length timestamps < 120)%nat ->
      forall x, In x (skipn k (list_insert pos t timestamps))
                <-> x = t \/ In x timestamps).
Proof.
  intros Hb Hp Ht pos k.
  split; [|split].
  - unfold monitor_tick. rewrite Ht. cbn [bind]. unfold insert_target_point.
    fold pos.
    rewrite (evict_oldest_skipn MAX_DATA_POINTS (list_insert pos t timestamps))
      by (rewrite ?list_insert_length; unfold MAX_DATA_POINTS; lia).
    rewrite list_insert_length.
    replace (S (length timestamps) - Z.to_nat MAX_DATA_POINTS)%nat with k
      by (unfold k, MAX_DATA_POINTS; lia).
    reflexivity.
  - rewrite length_skipn, list_insert_length. unfold k. lia.
  - intros Hlen x. replace k with 0%nat by (unfold k; lia).
    cbn [skipn]. apply list_insert_In.
Qed.

(** X19 (clean_data_keep_targets_and_current, what survives): on
    co-indexed lists of representable timestamps the cleaning keeps
    every sample [is_target_time] accepts, in order, and of the others
    exactly one when there is any: a stored one whose timestamp no other
    rejected sample exceeds. *)
Theorem clean_keeps_latest_non_target (rows : list (Z * Z * price)) :
  Forall in_datetime_range (map Prices.sample_timestamp rows) ->
  exists kept : list (Z * Z * price),
    Prices.clean_data_keep_targets_and_current
      (map Prices.sample_timestamp rows) (map Prices.sample_block rows)
      (map Prices.sample_price rows)
    = Ok (columns kept)
    /\ filter is_target_sample kept = filter is_target_sample rows
    /\ length (filter (fun s => negb (is_target_sample s)) kept)
       = Nat.min 1 (length (filter (fun s => negb (is_target_sample s)) rows))
    /\ (forall r, In r kept -> is_target_sample r = false ->
                  In r rows
                  /\ forall r', In r' rows -> is_target_sample r' = false ->
                                Prices.sample_timestamp r'
                                <= Prices.sample_timestamp r).
Proof.
  intros Hr. exists (cleaned_rows rows).
  split; [apply clean_columns, Hr|].
  split; [apply cleaned_rows_targets|].
  pose proof (cleaned_rows_non_targets rows) as Hnt.
  destruct (rev (sort_by_timestamp (filter non_target_sample rows)))
    as [| most_recent others] eqn:Erev.
  - apply most_recent_none in Erev. split.
    + rewrite Hnt, Erev. reflexivity.
    + intros r Hin Hnon.
      assert (Hr' : In r (filter non_target_sample (cleaned_rows rows))).
      { apply filter_In. split; [exact Hin|]. cbv beta. rewrite Hnon.
        reflexivity. }
      rewrite Hnt in Hr'. destruct Hr'.
  - pose proof (most_recent_In _ _ _ Erev) as Hmr.
    split.
    + rewrite Hnt. cbn [length].
      destruct (filter non_target_sample rows); [destruct Hmr|].
      cbn [length]. lia.
    + intros r Hin Hnon.
      assert (Hr' : In r (filter non_target_sample (cleaned_rows rows))).
      { apply filter_In. split; [exact Hin|]. cbv beta. rewrite Hnon.
        reflexivity. }
      rewrite Hnt in Hr'. destruct Hr' as [<- | []].
      split; [apply filter_In in Hmr; apply Hmr|].
      intros r' Hin' Hnon'.
      apply (most_recent_latest _ _ _ Erev).
      apply filter_In. split; [exact Hin'|]. cbv beta. rewrite Hnon'.
      reflexivity.
Qed.

End StoreContents.

Lemma update_current_price_keeps_targets_witness :
  exists kept : list (Z * Z * Q),
    Prices.update_current_price
      (map Prices.sample_timestamp [(0, 1, 1%Q); (7200, 2, 2%Q); (21600, 3, 3%Q)])
      (map Prices.sample_block [(0, 1, 1%Q); (7200, 2, 2%Q); (21600, 3, 3%Q)])
      (map Prices.sample_price [(0, 1, 1%Q); (7200, 2, 2%Q); (21600, 3, 3%Q)])
      10800 4 4%Q
    = Ok (columns kept)
    /\ kept = insert_row (10800, 4, 4%Q)
                (filter is_target_sample
                   [(0, 1, 1%Q); (7200, 2, 2%Q); (21600, 3, 3%Q)])
    /\ (forall r, In r kept
                  <-> r = (10800, 4, 4%Q)
                      \/ (In r [(0, 1, 1%Q); (7200, 2, 2%Q); (21600, 3, 3%Q)]
                          /\ is_target_sample r = true))
    /\ length kept
       = S (length (filter is_target_sample
                      [(0, 1, 1%Q); (7200, 2, 2%Q); (21600, 3, 3%Q)]))
    /\ (is_target_sample (10800, 4, 4%Q) = false ->
        filter is_target_sample kept
        = filter is_target_sample
            [(0, 1, 1%Q); (7200, 2, 2%Q); (21600, 3, 3%Q)]).
Proof.
  apply (update_current_price_keeps_targets
           [(0, 1, 1%Q); (7200, 2, 2%Q); (21600, 3, 3%Q)] 10800 4 4%Q).
  cbn [map Prices.sample_timestamp fst].
  repeat (apply Forall_cons;
          [unfold in_datetime_range, Prices.datetime_min, Prices.datetime_max;
           lia|]).
  apply Forall_nil.
Defined.

Lemma monitor_tick_target_accumulates_witness :
  Prices.monitor_tick [0; 21600] [1; 2] [1%Q; 2%Q] 21900 3 3%Q
  = Ok ([0; 21600; 21900], [1; 2; 3], [1%Q; 2%Q; 3%Q]).
Proof.
  apply (monitor_tick_target_accumulates [0; 21600] [1; 2] [1%Q; 2%Q]
           21900 3 3%Q); reflexivity.
Defined.

Lemma clean_keeps_latest_non_target_witness :
  exists kept : list (Z * Z * Q),
    Prices.clean_data_keep_targets_and_current
      (map Prices.sample_timestamp
         [(0, 1, 1%Q); (7200, 2, 2%Q); (10800, 3, 3%Q); (21600, 4, 4%Q)])
      (map Prices.sample_block
         [(0, 1, 1%Q); (7200, 2, 2%Q); (10800, 3, 3%Q); (21600, 4, 4%Q)])
      (map Prices.sample_price
         [(0, 1, 1%Q); (7200, 2, 2%Q); (10800, 3, 3%Q); (21600, 4, 4%Q)])
    = Ok (columns kept)
    /\ filter is_target_sample kept
       = filter is_target_sample
           [(0, 1, 1%Q); (7200, 2, 2%Q); (10800, 3, 3%Q); (21600, 4, 4%Q)]
    /\ length (filter (fun s => negb (is_target_sample s)) kept)
       = Nat.min 1
           (length (filter (fun s => negb (is_target_sample s))
                      [(0, 1, 1%Q); (7200, 2, 2%Q); (10800, 3, 3%Q);
                       (21600, 4, 4%Q)]))
    /\ (forall r, In r kept -> is_target_sample r = false ->
                  In r [(0, 1, 1%Q); (7200, 2, 2%Q); (10800, 3, 3%Q);
                        (21600, 4, 4%Q)]
                  /\ forall r',
                       In r' [(0, 1, 1%Q); (7200, 2, 2%Q); (10800, 3, 3%Q);
                              (21600, 4, 4%Q)] ->
                       is_target_sample r' = false ->
                       Prices.sample_timestamp r'
                       <= Prices.sample_timestamp r).
Proof.
  apply (clean_keeps_latest_non_target
           [(0, 1, 1%Q); (7200, 2, 2%Q); (10800, 3, 3%Q); (21600, 4, 4%Q)]).
  cbn [map Prices.sample_timestamp fst].
  repeat (apply Forall_cons;
          [unfold in_datetime_range, Prices.datetime_min, Prices.datetime_max;
           lia|]).
  apply Forall_nil.
Defined.

(** * The range of rounded values *)

Section RoundingRange.

Import Float64.

Lemma pow2_split (u v : Z) : 0 <= u -> 0 <= v -> 2 ^ (u + v) = 2 ^ u * 2 ^ v.
Proof.
  intros. apply Z.pow_add_r; assumption.
Qed.

Lemma exponent_spec (n d K : Z) :
  0 < n -> 0 < d -> 0 <= K -> 0 <= K + exponent n d ->
  d * 2 ^ (K + exponent n d) <= n * 2 ^ K
  /\ n * 2 ^ K < d * 2 ^ (K + exponent n d + 1).
Proof.
  intros Hn Hd HK. unfold exponent.
  pose proof (Z.log2_spec n Hn) as Ha. pose proof (Z.log2_spec d Hd) as Hb.
  pose proof (Z.log2_nonneg n) as Ha0. pose proof (Z.log2_nonneg d) as Hb0.
  set (a := Z.log2 n) in *. set (b := Z.log2 d) in *.
  unfold Z.succ in Ha, Hb.
  assert (HpK : 0 < 2 ^ K) by (apply Z.pow_pos_nonneg; lia).
  cbv zeta.
  destruct (Z.leb_spec 0 (a - b)) as [He0 | He0].
  - destruct (Z.leb_spec (d * 2 ^ (a - b)) n) as [HT | HT]; intros HKe.
    + split.
      * rewrite pow2_split by lia. nia.
      * replace (K + (a - b) + 1) with ((a + 1 - b) + K) by lia.
        rewrite pow2_split by lia.
        assert (H1 : 2 ^ (a + 1) = 2 ^ b * 2 ^ (a + 1 - b))
          by (rewrite <- pow2_split by lia; f_equal; lia).
        assert (H2 : 0 < 2 ^ (a + 1 - b)) by (apply Z.pow_pos_nonneg; lia).
        assert (H3 : n < d * 2 ^ (a + 1 - b)) by nia.
        rewrite Z.mul_assoc. apply Z.mul_lt_mono_pos_r; assumption.
    + split.
      * assert (H1 : 2 ^ (b + 1) * 2 ^ (K + (a - b - 1)) = 2 ^ a * 2 ^ K)
          by (rewrite <- !pow2_split by lia; f_equal; lia).
        assert (H2 : 0 < 2 ^ (K + (a - b - 1)))
          by (apply Z.pow_pos_nonneg; lia).
        assert (H3 : d * 2 ^ (K + (a - b - 1))
                     <= 2 ^ (b + 1) * 2 ^ (K + (a - b - 1))) by nia.
        assert (H4 : 2 ^ a * 2 ^ K <= n * 2 ^ K) by nia.
        lia.
      * replace (K + (a - b - 1) + 1) with ((a - b) + K) by lia.
        rewrite pow2_split by lia.
        rewrite Z.mul_assoc. apply Z.mul_lt_mono_pos_r; assumption.
  - destruct (Z.leb_spec d (n * 2 ^ (- (a - b)))) as [HT | HT]; intros HKe.
    + split.
      * assert (H1 : 2 ^ K = 2 ^ (- (a - b)) * 2 ^ (K + (a - b)))
          by (rewrite <- pow2_split by lia; f_equal; lia).
        assert (H2 : 0 < 2 ^ (K + (a - b))) by (apply Z.pow_pos_nonneg; lia).
        rewrite H1, Z.mul_assoc. apply Z.mul_le_mono_nonneg_r; lia.
      * assert (H1 : 2 ^ (a + 1) * 2 ^ K = 2 ^ b * 2 ^ (K + (a - b) + 1))
          by (rewrite <- !pow2_split by lia; f_equal; lia).
        assert (H2 : 0 < 2 ^ (K + (a - b) + 1))
          by (apply Z.pow_pos_nonneg; lia).
        assert (H3 : n * 2 ^ K < 2 ^ (a + 1) * 2 ^ K) by nia.
        assert (H4 : 2 ^ b * 2 ^ (K + (a - b) + 1)
                     <= d * 2 ^ (K + (a - b) + 1)) by nia.
        lia.
    + split.
      * assert (H1 : 2 ^ (b + 1) * 2 ^ (K + (a - b - 1)) = 2 ^ a * 2 ^ K)
          by (rewrite <- !pow2_split by lia; f_equal; lia).
        assert (H2 : 0 < 2 ^ (K + (a - b - 1)))
          by (apply Z.pow_pos_nonneg; lia).
        assert (H3 : d * 2 ^ (K + (a - b - 1))
                     <= 2 ^ (b + 1) * 2 ^ (K + (a - b - 1))) by nia.
        assert (H4 : 2 ^ a * 2 ^ K <= n * 2 ^ K) by nia.
        lia.
      * replace (K + (a - b - 1) + 1) with (K + (a - b)) by lia.
        assert (H1 : 2 ^ K = 2 ^ (- (a - b)) * 2 ^ (K + (a - b)))
          by (rewrite <- pow2_split by lia; f_equal; lia).
        assert (H2 : 0 < 2 ^ (K + (a - b))) by (apply Z.pow_pos_nonneg; lia).
        rewrite H1, Z.mul_assoc. apply Z.mul_lt_mono_pos_r; assumption.
Qed.

Lemma between_Z (A B n : Z) (d : positive) :
  0 <= A -> 0 <= B ->
  between_pow2 A B (n # d) <-> (Zpos d <= n * 2 ^ A /\ n <= 2 ^ B * Zpos d).
Proof.
  intros HA HB. unfold between_pow2, Qle. cbn [Qnum Qden inject_Z].
  assert (0 < 2 ^ A) by (apply Z.pow_pos_nonneg; lia).
  rewrite Z2Pos.id by assumption. lia.
Qed.

Lemma exponent_between (n d A B : Z) :
  0 < n -> 0 < d -> 0 <= A -> 0 <= B ->
  d <= n * 2 ^ A -> n <= d * 2 ^ B ->
  - A <= exponent n d <= B.
Proof.
  intros Hn Hd HA HB Hlo Hhi.
  set (e := exponent n d).
  set (K := Z.abs e + A).
  destruct (exponent_spec n d K Hn Hd) as [Hl Hu]; [lia | fold e; lia |].
  fold e in Hl, Hu.
  assert (HpK : 0 < 2 ^ K) by (apply Z.pow_pos_nonneg; lia).
  assert (HpA : 0 < 2 ^ A) by (apply Z.pow_pos_nonneg; lia).
  split.
  - assert (H1 : d * 2 ^ K < d * 2 ^ (K + e + 1 + A)).
    { rewrite (pow2_split (K + e + 1) A) by lia.
      assert (d * 2 ^ K <= n * 2 ^ A * 2 ^ K) by nia.
      assert (n * 2 ^ K * 2 ^ A < d * 2 ^ (K + e + 1) * 2 ^ A) by nia.
      lia. }
    apply Z.mul_lt_mono_pos_l in H1; [|exact Hd].
    apply Z.pow_lt_mono_r_iff in H1; lia.
  - assert (H1 : d * 2 ^ (K + e) <= d * 2 ^ (B + K)).
    { rewrite (pow2_split B K) by lia.
      assert (n * 2 ^ K <= d * 2 ^ B * 2 ^ K) by nia. lia. }
    apply Z.mul_le_mono_pos_l in H1; [|exact Hd].
    apply Z.pow_le_mono_r_iff in H1; lia.
Qed.

Lemma round_pos_between (n d A B : Z) :
  0 < n -> 0 < d -> 0 <= A <= 1022 -> 0 <= B <= 1023 ->
  d <= n * 2 ^ A -> n <= d * 2 ^ B ->
  exists m q,
    round_pos n d = (m, q)
    /\ overflows m q = false
    /\ between_pow2 A B (scale m q).
Proof.
  intros Hn Hd HA HB Hlo Hhi.
  pose proof (exponent_between n d A B Hn Hd ltac:(lia) ltac:(lia) Hlo Hhi)
    as He.
  unfold round_pos. set (e := exponent n d) in *.
  replace (Z.max (e - 52) (-1074)) with (e - 52) by lia.
  set (q := e - 52).
  assert (HpA : 0 < 2 ^ A) by (apply Z.pow_pos_nonneg; lia).
  assert (HpB : 0 < 2 ^ B) by (apply Z.pow_pos_nonneg; lia).
  destruct (Z.leb_spec 0 q) as [Hq | Hq].
  - destruct (exponent_spec n d 0 Hn Hd) as [Hl Hu]; [lia | fold e; lia |].
    fold e in Hl, Hu. rewrite !Z.add_0_l, Z.pow_0_r, Z.mul_1_r in *.
    assert (Hpq : 0 < 2 ^ q) by (apply Z.pow_pos_nonneg; lia).
    assert (E1 : 2 ^ e = 2 ^ 52 * 2 ^ q)
      by (rewrite <- pow2_split by lia; f_equal; lia).
    assert (E2 : 2 ^ B = 2 ^ (B - q) * 2 ^ q)
      by (rewrite <- pow2_split by lia; f_equal; lia).
    assert (Hm1 : 2 ^ 52 <= rne_div n (d * 2 ^ q)).
    { apply rne_div_lower; [nia|]. rewrite E1 in Hl. nia. }
    assert (Hm2 : rne_div n (d * 2 ^ q) <= 2 ^ (B - q)).
    { apply rne_div_upper; [nia|]. rewrite E2 in Hhi. nia. }
    exists (rne_div n (d * 2 ^ q)), q. split; [reflexivity|]. split.
    + unfold overflows.
      destruct (Z.ltb_spec 971 q); [lia|]. cbn [orb].
      destruct (Z.eqb_spec q 971) as [E | _]; [|reflexivity]. cbn [andb].
      apply Z.leb_gt.
      assert (2 ^ (B - q) <= 2 ^ 52) by (apply Z.pow_le_mono_r; lia). lia.
    + unfold scale.
      replace (0 <=? q) with true by (symmetry; apply Z.leb_le; lia).
      unfold inject_Z. apply between_Z; [lia | lia |]. split; nia.
  - destruct (exponent_spec n d (- q) Hn Hd) as [Hl Hu];
      [lia | fold e; lia |].
    fold e in Hl, Hu.
    replace (- q + e) with 52 in * by lia.
    assert (Hpq : 0 < 2 ^ (- q)) by (apply Z.pow_pos_nonneg; lia).
    assert (E2 : 2 ^ (B - q) = 2 ^ B * 2 ^ (- q))
      by (rewrite <- pow2_split by lia; f_equal; lia).
    assert (Hm1 : 2 ^ 52 <= rne_div (n * 2 ^ (- q)) d).
    { apply rne_div_lower; [lia|]. lia. }
    assert (Hm2 : rne_div (n * 2 ^ (- q)) d <= 2 ^ (B - q)).
    { apply rne_div_upper; [lia|]. rewrite E2. nia. }
    exists (rne_div (n * 2 ^ (- q)) d), q. split; [reflexivity|]. split.
    + unfold overflows.
      destruct (Z.ltb_spec 971 q); [lia|]. cbn [orb].
      destruct (Z.eqb_spec q 971); [lia | reflexivity].
    + unfold scale.
      replace (0 <=? q) with false by (symmetry; apply Z.leb_gt; lia).
      unfold between_pow2. rewrite Qred_correct.
      apply between_Z; [lia | lia |].
      rewrite Z2Pos.id by exact Hpq. split.
      * assert (2 ^ (- q) <= 2 ^ (52 + A)) by (apply Z.pow_le_mono_r; lia).
        rewrite pow2_split in * by lia. nia.
      * rewrite <- E2. exact Hm2.
Qed.

Lemma round_between (A B : Z) (x : Q) :
  0 <= A <= 1022 -> 0 <= B <= 1023 ->
  between_pow2 A B x ->
  exists v, round x = Finite v /\ between_pow2 A B v.
Proof.
  intros HA HB Hx. destruct x as [n d].
  apply between_Z in Hx; [|lia|lia].
  assert (HpA : 0 < 2 ^ A) by (apply Z.pow_pos_nonneg; lia).
  assert (Hn : 0 < n) by nia.
  destruct (round_pos_between n (Zpos d) A B Hn ltac:(lia) HA HB)
    as (m & q & E & Ho & Hb); [lia | lia |].
  exists (scale m q). split; [|exact Hb].
  unfold round. cbn [Qnum Qden].
  destruct n as [| p | p]; try lia.
  rewrite E, Ho. reflexivity.
Qed.

End RoundingRange.

(** * The price [getSlot0] returns *)

Section SlotPrice.

Import Float64 Prices.

Lemma between_pow2_pos (A B : Z) (x : Q) : between_pow2 A B x -> (0 < x)%Q.
Proof.
  intros [Hlo _]. eapply Qlt_le_trans; [|exact Hlo]. reflexivity.
Qed.

Lemma between_pow2_inv (A B : Z) (x : Q) :
  0 <= A -> 0 <= B ->
  between_pow2 A B x -> between_pow2 B A (inject_Z 1 / x).
Proof.
  intros HA HB Hx. destruct x as [n d].
  apply between_Z in Hx; [|lia|lia].
  assert (HpA : 0 < 2 ^ A) by (apply Z.pow_pos_nonneg; lia).
  destruct n as [| p | p]; try lia.
  change (inject_Z 1 / (Z.pos p # d))%Q with (Z.pos d # p).
  apply between_Z; [lia | lia |]. lia.
Qed.

Lemma between_pow2_mul (A B A' B' : Z) (x y : Q) :
  0 <= A -> 0 <= B -> 0 <= A' -> 0 <= B' ->
  between_pow2 A B x -> between_pow2 A' B' y ->
  between_pow2 (A + A') (B + B') (x * y).
Proof.
  intros HA HB HA' HB' Hx Hy. destruct x as [n d], y as [n' d'].
  apply between_Z in Hx; [|lia|lia]. apply between_Z in Hy; [|lia|lia].
  assert (HpA : 0 < 2 ^ A) by (apply Z.pow_pos_nonneg; lia).
  assert (HpA' : 0 < 2 ^ A') by (apply Z.pow_pos_nonneg; lia).
  assert (HpB : 0 < 2 ^ B) by (apply Z.pow_pos_nonneg; lia).
  assert (HpB' : 0 < 2 ^ B') by (apply Z.pow_pos_nonneg; lia).
  unfold Qmult. cbn [Qnum Qden].
  apply between_Z; [lia | lia |].
  rewrite !Z.pow_add_r, Pos2Z.inj_mul by lia.
  assert (Hn : 0 < n) by nia. assert (Hn' : 0 < n') by nia.
  split.
  - assert (Z.pos d * Z.pos d' <= (n * 2 ^ A) * (n' * 2 ^ A')).
    { apply Z.mul_le_mono_nonneg; lia. }
    lia.
  - assert (n * n' <= (2 ^ B * Z.pos d) * (2 ^ B' * Z.pos d')).
    { apply Z.mul_le_mono_nonneg; lia. }
    lia.
Qed.

Lemma between_pow2_int (k B : Z) :
  0 <= B -> 1 <= k <= 2 ^ B -> between_pow2 0 B (inject_Z k).
Proof.
  intros HB Hk. unfold inject_Z. apply between_Z; [lia | lia |]. lia.
Qed.

Lemma price_between (sq : Z) :
  0 < sq < 2 ^ 160 ->
  exists v, sqrtPriceX96_to_price sq = Ok v /\ between_pow2 192 128 v.
Proof.
  intros Hsq. unfold sqrtPriceX96_to_price, Q192.
  assert (Hn : 0 < sq ^ 2) by nia.
  pose proof (square_bound sq ltac:(lia)) as Hb.
  rewrite int_true_div_pos by lia.
  destruct (round_pos_between (sq ^ 2) (2 ^ 192) 192 128)
    as (m & q & E & Ho & Hv); [lia | lia | lia | lia | nia | | ].
  - replace (2 ^ 192 * 2 ^ 128) with (2 ^ 320) by reflexivity. lia.
  - rewrite E, Ho. cbn [finite]. exists (scale m q). split; [reflexivity|].
    exact Hv.
Qed.

Lemma price_zero : sqrtPriceX96_to_price 0 = Ok 0%Q.
Proof.
  reflexivity.
Qed.

Lemma round_zero_l (y : Q) : round (0 * y) = Finite 0.
Proof.
  reflexivity.
Qed.

Lemma round_zero_r (x : Q) : round (x * 0) = Finite 0.
Proof.
  unfold round, Qmult. cbn [Qnum Qden]. rewrite Z.mul_0_r. reflexivity.
Qed.

Lemma actual_price_value (price : Q) (packed2 : Z) :
  between_pow2 192 128 price ->
  exists v,
    actual_price price packed2 = Ok (Num (Finite v))
    /\ (packed2 mod 2 ^ 160 = 0 -> v = 0%Q)
    /\ (packed2 mod 2 ^ 160 <> 0 -> between_pow2 320 360 v).
Proof.
  intros Hprice. unfold actual_price.
  rewrite unpack_slot0_fields.
  set (sq := packed2 mod 2 ^ 160).
  assert (Hsq : 0 <= sq < 2 ^ 160) by (apply Z.mod_pos_bound; lia).
  rewrite (float_of_int_exact (10 ^ 12)) by (cbn; lia).
  rewrite (float_of_int_exact 1) by (cbn; lia).
  assert (Hinv : exists inverse,
             float_div (inject_Z 1) price = Ok (Finite inverse)
             /\ between_pow2 128 192 inverse).
  { unfold float_div.
    pose proof (between_pow2_pos _ _ _ Hprice) as Hpos.
    destruct (Qeq_bool price 0) eqn:Ez.
    - apply Qeq_bool_eq in Ez. rewrite Ez in Hpos.
      exfalso. exact (Qlt_irrefl 0 Hpos).
    - destruct (round_between 128 192 (inject_Z 1 / price))
        as (inverse & E & Hb); [lia | lia | |].
      + apply between_pow2_inv; [lia | lia | exact Hprice].
      + exists inverse. rewrite E. split; [reflexivity | exact Hb]. }
  destruct Hinv as (inverse & Einv & Hinverse).
  destruct (Z.eq_dec sq 0) as [E0 | Hnz].
  - rewrite E0, price_zero. cbn [bind]. rewrite Einv. cbn [bind].
    cbv zeta. rewrite round_zero_l. unfold float_mul. rewrite round_zero_l.
    exists 0%Q. split; [reflexivity|]. split; [reflexivity | contradiction].
  - destruct (price_between sq ltac:(lia)) as (p & Ep & Hp).
    rewrite Ep. cbn [bind]. rewrite Einv. cbn [bind]. cbv zeta.
    destruct (round_between 192 168 (p * inject_Z (10 ^ 12)))
      as (price2 & E2 & Hprice2); [lia | lia | |].
    { apply (between_pow2_mul 192 128 0 40); try lia; [exact Hp|].
      apply between_pow2_int; [lia|]. split; [cbn; lia|].
      vm_compute. discriminate. }
    rewrite E2. unfold float_mul.
    destruct (round_between 320 360 (price2 * inverse))
      as (v & Ev & Hv); [lia | lia | |].
    { apply (between_pow2_mul 192 168 128 192); try lia; assumption. }
    rewrite Ev. exists v. split; [reflexivity|].
    split; [contradiction | intros _; exact Hv].
Qed.

Lemma remote_calls_app (t1 t2 : list effect) :
  remote_calls (t1 ++ t2) = (remote_calls t1 + remote_calls t2)%nat.
Proof.
  unfold remote_calls. rewrite filter_app, length_app. reflexivity.
Qed.

Lemma price_returns (sq : Z) :
  0 <= sq < 2 ^ 160 -> exists v, sqrtPriceX96_to_price sq = Ok v.
Proof.
  intros Hsq. destruct (Z.eq_dec sq 0) as [-> | Hnz].
  - exists 0%Q. apply price_zero.
  - destruct (price_between sq ltac:(lia)) as (v & E & _).
    exists v. exact E.
Qed.

Lemma actual_price_zero (packed2 : Z) :
  actual_price 0 packed2 = Raise ZeroDivisionError.
Proof.
  unfold actual_price. rewrite unpack_slot0_fields.
  destruct (price_returns (packed2 mod 2 ^ 160)) as (p & ->);
    [apply Z.mod_pos_bound; lia|].
  cbn [bind].
  rewrite (float_of_int_exact (10 ^ 12)) by (cbn; lia).
  rewrite (float_of_int_exact 1) by (cbn; lia).
  reflexivity.
Qed.

Variable getStorageAt : nat -> string -> string -> Z -> result (list byte).

Lemma getSlot0_unfold (block packed1 : Z) (trace1 : list effect) :
  get_storage_with_retry getStorageAt pool_manager bwork_weth_slot block 5 2
  = (Ok packed1, trace1) ->
  forall price : Q,
    sqrtPriceX96_to_price (packed1 mod 2 ^ 160) = Ok price ->
    getSlot0 getStorageAt block
    = (packed2 <-
         fst (get_storage_with_retry getStorageAt pool_manager weth_usd_slot
                block 5 2) ;;
       actual_price price packed2,
       trace1
       ++ snd (get_storage_with_retry getStorageAt pool_manager weth_usd_slot
                 block 5 2)).
Proof.
  intros E1 price Eprice. unfold getSlot0. rewrite E1.
  rewrite unpack_slot0_fields, Eprice.
  destruct (get_storage_with_retry getStorageAt pool_manager weth_usd_slot
              block 5 2) as [packed2 trace2].
  reflexivity.
Qed.

End SlotPrice.

(** X20 (getSlot0, the value): when both pools are read, the call raises
    [ZeroDivisionError] exactly when the price field of the BWORK/WETH
    word is 0, and that after the second pool has been read; otherwise
    it returns a finite float, never [inf] or [nan], which is 0 when the
    price field of the WETH/USD word is 0 and positive when it is
    not. *)
Theorem getSlot0_finite_price
    (getStorageAt : nat -> string -> string -> Z -> result (list byte))
    (block packed1 packed2 : Z) (trace1 trace2 : list effect) :
  Prices.get_storage_with_retry getStorageAt Prices.pool_manager
    Prices.bwork_weth_slot block 5 2 = (Ok packed1, trace1) ->
  Prices.get_storage_with_retry getStorageAt Prices.pool_manager
    Prices.weth_usd_slot block 5 2 = (Ok packed2, trace2) ->
  (packed1 mod 2 ^ 160 = 0 ->
   Prices.getSlot0 getStorageAt block
   = (Raise ZeroDivisionError, trace1 ++ trace2))
  /\ (packed1 mod 2 ^ 160 <> 0 ->
      exists v : Q,
        Prices.getSlot0 getStorageAt block
        = (Ok (Float64.Num (Float64.Finite v)), trace1 ++ trace2)
        /\ (packed2 mod 2 ^ 160 = 0 -> v = 0%Q)
        /\ (packed2 mod 2 ^ 160 <> 0 -> (0 < v)%Q)).
Proof.
  intros E1 E2. split.
  - intros Hz.
    rewrite (getSlot0_unfold getStorageAt block packed1 trace1 E1 0%Q)
      by (rewrite Hz; apply price_zero).
    rewrite E2. cbn [fst snd bind]. rewrite actual_price_zero. reflexivity.
  - intros Hnz.
    destruct (price_between (packed1 mod 2 ^ 160)) as (price & Eprice & Hprice).
    { pose proof (Z.mod_pos_bound packed1 (2 ^ 160) ltac:(lia)). lia. }
    rewrite (getSlot0_unfold getStorageAt block packed1 trace1 E1 price Eprice).
    rewrite E2. cbn [fst snd bind].
    destruct (actual_price_value price packed2 Hprice) as (v & Ev & Hv0 & Hv).
    exists v. rewrite Ev. split; [reflexivity|]. split; [exact Hv0|].
    intros Hnz2. exact (between_pow2_pos _ _ _ (Hv Hnz2)).
Qed.

Lemma getSlot0_finite_price_witness :
  exists v : Q,
    Prices.getSlot0
      (steady_storage (x01 :: repeat x00 12) (x02 :: repeat x00 12)) 7
    = (Ok (Float64.Num (Float64.Finite v)),
       [GetStorageAt Prices.pool_manager Prices.bwork_weth_slot 7]
       ++ [GetStorageAt Prices.pool_manager Prices.weth_usd_slot 7])
    /\ (2 ^ 97 mod 2 ^ 160 = 0 -> v = 0%Q)
    /\ (2 ^ 97 mod 2 ^ 160 <> 0 -> (0 < v)%Q).
Proof.
  apply (getSlot0_finite_price
           (steady_storage (x01 :: repeat x00 12) (x02 :: repeat x00 12))
           7 (2 ^ 96) (2 ^ 97)).
  - vm_compute. reflexivity.
  - vm_compute. reflexivity.
  - vm_compute. discriminate.
Defined.

(** X21 (getSlot0, the reads): one call issues at most ten reads; when
    the five attempts on the BWORK/WETH slot all fail it raises the
    [RuntimeError] of that slot without a read of the WETH/USD slot;
    and when the attempts on the WETH/USD slot all fail it raises the
    error of that slot, whatever the first word was. *)
Theorem getSlot0_reads
    (getStorageAt : nat -> string -> string -> Z -> result (list byte))
    (block : Z) :
  (remote_calls (snd (Prices.getSlot0 getStorageAt block)) <= 10)%nat
  /\ ((forall i, (i < 5)%nat ->
                 exists e,
                   getStorageAt i Prices.pool_manager Prices.bwork_weth_slot
                     block = Raise e) ->
      Prices.getSlot0 getStorageAt block
      = (Raise (RuntimeError Prices.bwork_weth_slot 5),
         failed_attempts Prices.pool_manager Prices.bwork_weth_slot block 2 5))
  /\ (forall (packed1 : Z) (trace1 : list effect),
         Prices.get_storage_with_retry getStorageAt Prices.pool_manager
           Prices.bwork_weth_slot block 5 2 = (Ok packed1, trace1) ->
         (forall i, (i < 5)%nat ->
                    exists e,
                      getStorageAt i Prices.pool_manager Prices.weth_usd_slot
                        block = Raise e) ->
         Prices.getSlot0 getStorageAt block
         = (Raise (RuntimeError Prices.weth_usd_slot 5),
            trace1
            ++ failed_attempts Prices.pool_manager Prices.weth_usd_slot
                 block 2 5)).
Proof.
  split; [|split].
  - unfold Prices.getSlot0.
    pose proof (retry_loop_calls getStorageAt Prices.pool_manager
                  Prices.bwork_weth_slot block 5 2 5 0) as H1.
    pose proof (retry_loop_calls getStorageAt Prices.pool_manager
                  Prices.weth_usd_slot block 5 2 5 0) as H2.
    unfold Prices.get_storage_with_retry.
    change (Z.to_nat 5) with 5%nat.
    destruct (Prices.retry_loop getStorageAt Prices.pool_manager
                Prices.bwork_weth_slot block 5 2 5 0) as [[packed1 | e] trace1];
      cbn [snd] in *; [|lia].
    destruct (Prices.unpack_slot0 packed1) as [[[sq tick] pf] lf].
    destruct (Prices.sqrtPriceX96_to_price sq); cbn [snd]; [|lia].
    destruct (Prices.retry_loop getStorageAt Prices.pool_manager
                Prices.weth_usd_slot block 5 2 5 0) as [packed2 trace2].
    cbn [snd] in *. rewrite remote_calls_app. lia.
  - intros Hfail. unfold Prices.getSlot0, Prices.get_storage_with_retry.
    change (Z.to_nat 5) with 5%nat.
    rewrite (retry_loop_exhausted getStorageAt Prices.pool_manager
               Prices.bwork_weth_slot block 5 2 eq_refl 5 0)
      by (intros i Hi; apply Hfail; lia).
    reflexivity.
  - intros packed1 trace1 E1 Hfail.
    destruct (price_returns (packed1 mod 2 ^ 160)) as (price & Eprice);
      [apply Z.mod_pos_bound; lia|].
    rewrite (getSlot0_unfold getStorageAt block packed1 trace1 E1 price Eprice).
    unfold Prices.get_storage_with_retry. change (Z.to_nat 5) with 5%nat.
    rewrite (retry_loop_exhausted getStorageAt Prices.pool_manager
               Prices.weth_usd_slot block 5 2 eq_refl 5 0)
      by (intros i Hi; apply Hfail; lia).
    reflexivity.
Qed.

Lemma getSlot0_reads_witness :
  Prices.getSlot0 (fun _ _ _ _ => Raise RpcError) 7
  = (Raise (RuntimeError Prices.bwork_weth_slot 5),
     failed_attempts Prices.pool_manager Prices.bwork_weth_slot 7 2 5).
Proof.
  apply (proj1 (proj2 (getSlot0_reads (fun _ _ _ _ => Raise RpcError) 7))).
  intros i Hi. exists RpcError. reflexivity.
Defined.

(** * Back-filling: the fine-tuning loop and what is stored *)

Section Refine.

Import Float64 Prices.

Variable getBlock : Z -> result Z.
Variables (t0 tau : Z).
Hypothesis Hchain : forall b, getBlock b = Ok (t0 + tau * b).
Hypothesis Htau : 1 <= tau <= 3.

Lemma refine_step (target est : Z) :
  1800 < Z.abs (t0 + tau * est - target) < 2 ^ 53 ->
  exists est1,
    (if t0 + tau * est <? target then
       half <- int_true_div (target - (t0 + tau * est)) 2 ;;
       step <- int_of_float (Finite half) ;;
       Ok (est + step)
     else
       half <- int_true_div (t0 + tau * est - target) 2 ;;
       step <- int_of_float (Finite half) ;;
       Ok (est - step)) = Ok est1
    /\ 2 * Z.abs (t0 + tau * est1 - target)
       <= Z.abs (t0 + tau * est - target) + tau.
Proof.
  intros Herr.
  destruct (Z.ltb_spec (t0 + tau * est) target) as [Hlt | Hge].
  - destruct (int_true_div_two (target - (t0 + tau * est)) ltac:(lia))
      as (half & E1 & E2).
    rewrite E1. cbn [bind]. rewrite E2. cbn [bind]. eexists. split; [reflexivity|].
    pose proof (Z.quot_rem' (target - (t0 + tau * est)) 2) as Hq.
    pose proof (Z.rem_bound_pos (target - (t0 + tau * est)) 2 ltac:(lia)
                  ltac:(lia)) as Hr.
    nia.
  - destruct (int_true_div_two (t0 + tau * est - target) ltac:(lia))
      as (half & E1 & E2).
    rewrite E1. cbn [bind]. rewrite E2. cbn [bind]. eexists. split; [reflexivity|].
    pose proof (Z.quot_rem' (t0 + tau * est - target) 2) as Hq.
    pose proof (Z.rem_bound_pos (t0 + tau * est - target) 2 ltac:(lia)
                  ltac:(lia)) as Hr.
    nia.
Qed.

Lemma refine_block_converges (target : Z) :
  forall (remaining : nat) (est : Z),
    Z.abs (t0 + tau * est - target) < 2 ^ 53 ->
    exists est',
      refine_block getBlock remaining target est (t0 + tau * est)
      = Ok (est', t0 + tau * est')
      /\ (Z.abs (t0 + tau * est' - target) <= 1800
          \/ 2 ^ Z.of_nat remaining * Z.abs (t0 + tau * est' - target)
             <= Z.abs (t0 + tau * est - target)
                + tau * (2 ^ Z.of_nat remaining - 1)).
Proof.
  induction remaining as [| remaining IH]; intros est Herr.
  - exists est. cbn [refine_block].
    destruct (Z.abs (t0 + tau * est - target) >? 30 * 60) eqn:E;
      (split; [reflexivity|]).
    + right. change (Z.of_nat 0) with 0. rewrite Z.pow_0_r. lia.
    + left. rewrite Z.gtb_ltb in E. apply Z.ltb_ge in E. lia.
  - cbn [refine_block].
    destruct (Z.abs (t0 + tau * est - target) >? 30 * 60) eqn:E.
    2:{ exists est. split; [reflexivity|]. left.
        rewrite Z.gtb_ltb in E. apply Z.ltb_ge in E. lia. }
    rewrite Z.gtb_ltb in E. apply Z.ltb_lt in E.
    destruct (refine_step target est ltac:(lia)) as (est1 & -> & Hstep).
    cbn [bind]. rewrite Hchain. cbn [bind].
    destruct (IH est1 ltac:(lia)) as (est' & -> & Hfinal).
    exists est'. split; [reflexivity|].
    destruct Hfinal as [Hok | Hbound]; [left; exact Hok | right].
    rewrite Nat2Z.inj_succ, Z.pow_succ_r by lia.
    assert (0 < 2 ^ Z.of_nat remaining) by (apply Z.pow_pos_nonneg; lia).
    nia.
Qed.

End Refine.

Section CollectLemmas.

Import Float64 Prices.

Lemma combine_list_insert {A B : Type} (n : nat) (x : A) (y : B) :
  forall (l : list A) (l' : list B),
    length l' = length l ->
    combine (list_insert n x l) (list_insert n y l')
    = list_insert n (x, y) (combine l l').
Proof.
  induction n as [| n IH]; intros l l' Hlen.
  - rewrite !list_insert_0. reflexivity.
  - destruct l as [| a l], l' as [| b l']; try discriminate.
    + rewrite !list_insert_nil. reflexivity.
    + rewrite !list_insert_S. cbn [combine]. rewrite list_insert_S, IH.
      * reflexivity.
      * cbn in Hlen. lia.
Qed.

Lemma rows_of_insert {price : Type} (n : nat) (t b : Z) (p : price)
    (timestamps blocks : list Z) (prices : list price) :
  length blocks = length timestamps ->
  length prices = length timestamps ->
  rows_of (list_insert n t timestamps, list_insert n b blocks,
           list_insert n p prices)
  = list_insert n (t, b, p) (rows_of (timestamps, blocks, prices)).
Proof.
  intros Hb Hp. unfold rows_of, timestamps_of, blocks_of, prices_of.
  cbn [fst snd].
  rewrite combine_list_insert by exact Hb.
  rewrite combine_list_insert by (rewrite length_combine; lia).
  reflexivity.
Qed.

Variable getStorageAt : nat -> string -> string -> Z -> result (list byte).
Variable getBlock : Z -> result Z.

Lemma getSlot0_ok_finite (block : Z) (x : pyfloat) :
  fst (getSlot0 getStorageAt block) = Ok x -> finite_price x.
Proof.
  destruct (get_storage_with_retry getStorageAt pool_manager bwork_weth_slot
              block 5 2) as [[packed1 | e] trace1] eqn:E1.
  2:{ unfold getSlot0. rewrite E1. discriminate. }
  destruct (get_storage_with_retry getStorageAt pool_manager weth_usd_slot
              block 5 2) as [[packed2 | e] trace2] eqn:E2.
  2:{ destruct (price_returns (packed1 mod 2 ^ 160)) as (price & Eprice);
        [apply Z.mod_pos_bound; lia|].
      rewrite (getSlot0_unfold getStorageAt block packed1 trace1 E1 price Eprice).
      rewrite E2. discriminate. }
  destruct (Z.eq_dec (packed1 mod 2 ^ 160) 0) as [Hz | Hnz].
  - rewrite (getSlot0_unfold getStorageAt block packed1 trace1 E1 0%Q)
      by (rewrite Hz; apply price_zero).
    rewrite E2. cbn [fst snd bind]. rewrite actual_price_zero. discriminate.
  - destruct (price_between (packed1 mod 2 ^ 160)) as (price & Eprice & Hprice).
    { pose proof (Z.mod_pos_bound packed1 (2 ^ 160) ltac:(lia)). lia. }
    rewrite (getSlot0_unfold getStorageAt block packed1 trace1 E1 price Eprice).
    rewrite E2. cbn [fst snd bind].
    destruct (actual_price_value price packed2 Hprice) as (v & Ev & Hv0 & Hv).
    rewrite Ev. intros H. inversion H; subst x. exists v.
    split; [reflexivity|].
    destruct (Z.eq_dec (packed2 mod 2 ^ 160) 0) as [Hz2 | Hnz2].
    + rewrite (Hv0 Hz2). apply Qle_refl.
    + apply Qlt_le_weak. exact (between_pow2_pos _ _ _ (Hv Hnz2)).
Qed.

Lemma refine_block_consistent (target : Z) :
  forall (remaining : nat) (est act est' act' : Z),
    getBlock est = Ok act ->
    refine_block getBlock remaining target est act = Ok (est', act') ->
    getBlock est' = Ok act'.
Proof.
  induction remaining as [| remaining IH]; intros est act est' act' Hest;
    cbn [refine_block];
    destruct (Z.abs (act - target) >? 30 * 60);
    try (intros H; inversion H; subst; exact Hest).
  destruct (if act <? target then _ else _) as [est1 |]; [|discriminate].
  cbn [bind]. destruct (getBlock est1) as [act1 |] eqn:E1; [|discriminate].
  cbn [bind]. apply IH. exact E1.
Qed.

(** What one successful pass inserts. *)
Lemma collect_point_inv (current_block current_timestamp : Z)
    (timestamps blocks : list Z) (prices : list pyfloat)
    (target : Z) (s' : @store pyfloat) :
  collect_point getStorageAt getBlock current_block current_timestamp
    timestamps blocks prices target = Ok s' ->
  exists (t b : Z) (p : pyfloat),
    s' = insert_historical_point timestamps blocks prices t b p
    /\ getBlock b = Ok t
    /\ in_datetime_range t
    /\ finite_price p.
Proof.
  unfold collect_point.
  destruct (estimate_block_from_timestamp getBlock target current_block
              current_timestamp) as [est |]; [|discriminate].
  cbn [bind]. destruct (getBlock est) as [act |] eqn:Eact; [|discriminate].
  cbn [bind].
  destruct (refine_block getBlock 10 target est act) as [[est' act'] |] eqn:Er;
    [|discriminate].
  cbn [bind].
  pose proof (refine_block_consistent target 10 est act est' act' Eact Er)
    as Hcons.
  destruct (utc_hour_minute target) as [hm |]; [|discriminate].
  cbn [bind].
  destruct (utc_hour_minute act') as [hm' |] eqn:Ehm; [|discriminate].
  cbn [bind].
  destruct (fst (getSlot0 getStorageAt est')) as [p |] eqn:Ep; [|discriminate].
  cbn [bind]. intros H. inversion H; subst s'.
  exists act', est', p. split; [reflexivity|]. split; [exact Hcons|]. split.
  - assert (Hdec : in_datetime_range act' \/ ~ in_datetime_range act')
      by (unfold in_datetime_range; lia).
    destruct Hdec as [Hin | Hout]; [exact Hin|].
    rewrite (utc_hour_minute_out_of_range _ Hout) in Ehm. discriminate.
  - exact (getSlot0_ok_finite est' p Ep).
Qed.

Local Abbreviation recorded r :=
  (getBlock (sample_block r) = Ok (sample_timestamp r)
   /\ in_datetime_range (sample_timestamp r)
   /\ finite_price (sample_price r)).

Lemma collect_step_inv (current_block current_timestamp target : Z)
    (timestamps blocks : list Z) (prices : list pyfloat) :
  length blocks = length timestamps ->
  length prices = length timestamps ->
  StronglySorted Z.le timestamps ->
  let s' :=
    match collect_point getStorageAt getBlock current_block current_timestamp
            timestamps blocks prices target with
    | Ok s' => s'
    | Raise _ => (timestamps, blocks, prices)
    end in
  parallel s'
  /\ StronglySorted Z.le (timestamps_of s')
  /\ incl (rows_of (timestamps, blocks, prices)) (rows_of s')
  /\ (forall r, In r (rows_of s') ->
                In r (rows_of (timestamps, blocks, prices)) \/ recorded r)
  /\ (length (timestamps_of s') <= S (length timestamps))%nat.
Proof.
  intros Hb Hp Hs.
  destruct (collect_point getStorageAt getBlock current_block
              current_timestamp timestamps blocks prices target)
    as [s' |] eqn:E; cbv zeta.
  - destruct (collect_point_inv _ _ _ _ _ _ _ E)
      as (t & b & p & -> & Hcons & Hr & Hfin).
    unfold insert_historical_point.
    set (pos := insert_pos_history t timestamps).
    split; [|split; [|split; [|split]]].
    + unfold parallel, timestamps_of, blocks_of, prices_of. cbn [fst snd].
      rewrite !list_insert_length. lia.
    + unfold timestamps_of. cbn [fst]. apply insert_pos_history_sorted, Hs.
    + rewrite rows_of_insert by assumption.
      intros r Hin. apply list_insert_In. right. exact Hin.
    + rewrite rows_of_insert by assumption.
      intros r Hin. apply list_insert_In in Hin.
      destruct Hin as [-> | Hin]; [right | left; exact Hin].
      unfold sample_block, sample_timestamp, sample_price. cbn [fst snd].
      split; [exact Hcons|]. split; [exact Hr | exact Hfin].
    + unfold timestamps_of. cbn [fst]. rewrite list_insert_length. lia.
  - split; [|split; [|split; [|split]]].
    + unfold parallel, timestamps_of, blocks_of, prices_of. cbn [fst snd]. lia.
    + exact Hs.
    + apply incl_refl.
    + intros r Hin. left. exact Hin.
    + unfold timestamps_of. cbn [fst]. lia.
Qed.

Lemma collect_loop_inv (current_block current_timestamp : Z)
    (missing : list Z) :
  forall s : @store pyfloat,
    parallel s ->
    StronglySorted Z.le (timestamps_of s) ->
    let s' :=
      collect_loop getStorageAt getBlock current_block current_timestamp
        missing s in
    parallel s'
    /\ StronglySorted Z.le (timestamps_of s')
    /\ incl (rows_of s) (rows_of s')
    /\ (forall r, In r (rows_of s') -> In r (rows_of s) \/ recorded r)
    /\ (length (timestamps_of s')
        <= length (timestamps_of s) + length missing)%nat.
Proof.
  induction missing as [| target missing IH]; intros s Hpar Hs; cbv zeta.
  - cbn [collect_loop length]. split; [exact Hpar|]. split; [exact Hs|].
    split; [apply incl_refl|]. split; [intros r Hin; left; exact Hin | lia].
  - destruct s as [[timestamps blocks] prices].
    cbn [collect_loop].
    unfold parallel, timestamps_of, blocks_of, prices_of in Hpar, Hs.
    cbn [fst snd] in Hpar, Hs. destruct Hpar as [Hb Hp].
    destruct (collect_step_inv current_block current_timestamp target
                timestamps blocks prices Hb Hp Hs)
      as (Hpar1 & Hs1 & Hincl1 & Hrows1 & Hlen1).
    set (s1 := match collect_point getStorageAt getBlock current_block
                       current_timestamp timestamps blocks prices target with
               | Ok s' => s'
               | Raise _ => (timestamps, blocks, prices)
               end) in *.
    destruct (IH s1 Hpar1 Hs1) as (Hpar' & Hs' & Hincl' & Hrows' & Hlen').
    split; [exact Hpar'|]. split; [exact Hs'|]. split; [|split].
    + eapply incl_tran; [exact Hincl1 | exact Hincl'].
    + intros r Hin. destruct (Hrows' r Hin) as [Hin1 | Hrec];
        [|right; exact Hrec].
      exact (Hrows1 r Hin1).
    + unfold timestamps_of at 2. cbn [fst length]. lia.
Qed.

End CollectLemmas.

Section MissingLength.

Import Prices.

Lemma sort_insert_int_length (x : Z) (l : list Z) :
  length (sort_insert_int x l) = S (length l).
Proof.
  induction l as [| a l IH]; cbn [sort_insert_int length]; [reflexivity|].
  destruct (x <=? a); cbn [length]; lia.
Qed.

Lemma sort_ints_length (l : list Z) : length (sort_ints l) = length l.
Proof.
  induction l as [| a l IH]; cbn [sort_ints length]; [reflexivity|].
  rewrite sort_insert_int_length, IH. reflexivity.
Qed.

Lemma missing_loop_length (existing : list Z) (current_timestamp : Z)
    (days : list Z) :
  forall missing result : list Z,
    missing_loop existing current_timestamp days missing = Ok result ->
    (length result <= length missing + 4 * length days)%nat.
Proof.
  induction days as [| days_back days IH]; intros missing result;
    cbn [missing_loop length].
  - intros H. inversion H; subst. lia.
  - cbv zeta. unfold get_target_timestamps_for_day.
    destruct ((datetime_min <=? _) && (_ <=? datetime_max)); [|discriminate].
    cbn [bind]. intros H. apply IH in H.
    rewrite length_app in H.
    pose proof (filter_length_le (is_missing existing current_timestamp)
                  (map (fun hour =>
                          current_timestamp - days_back * 24 * 60 * 60
                          - (current_timestamp - days_back * 24 * 60 * 60)
                            mod 86400 + hour * 3600) TARGET_HOURS)) as Hf.
    rewrite length_map in Hf. unfold TARGET_HOURS in Hf at 2.
    cbn [length] in Hf. lia.
Qed.

Lemma get_missing_timestamps_length (timestamps : list Z)
    (current_timestamp target_days : Z) (missing : list Z) :
  get_missing_timestamps timestamps current_timestamp target_days = Ok missing ->
  (length missing <= 4 * Z.to_nat target_days)%nat.
Proof.
  unfold get_missing_timestamps.
  destruct (existing_target_times timestamps) as [existing |]; [|discriminate].
  cbn [bind].
  destruct (missing_loop existing current_timestamp (range target_days) [])
    as [l |] eqn:E; [|discriminate].
  cbn [bind]. intros H. inversion H; subst missing.
  rewrite sort_ints_length. apply missing_loop_length in E.
  unfold range in E. rewrite length_map, length_seq in E. cbn [length] in E.
  lia.
Qed.

End MissingLength.

(** X22 (collect_historical_data, fine-tuning): on a chain that reports
    the timestamp [t0 + tau * b] for every block [b], with a block time
    [tau] of 1, 2 or 3 seconds, the fine-tuning loop returns a block
    together with the timestamp the chain reports for it; either that
    timestamp is within 30 minutes of the target, or the ten corrections
    are spent and have cut the error to a 1024th of the first one, up to
    [tau]; an estimate that starts within 1840131 seconds of the target
    therefore always ends within 30 minutes of it. *)
Theorem refine_block_converges_on_regular_chain
    (t0 tau target_timestamp estimated_block : Z) :
  1 <= tau <= 3 ->
  Z.abs (t0 + tau * estimated_block - target_timestamp) < 2 ^ 53 ->
  exists estimated_block' : Z,
    Prices.refine_block (regular_chain t0 tau) 10 target_timestamp
      estimated_block (t0 + tau * estimated_block)
    = Ok (estimated_block', t0 + tau * estimated_block')
    /\ (Z.abs (t0 + tau * estimated_block' - target_timestamp) <= 1800
        \/ 1024 * Z.abs (t0 + tau * estimated_block' - target_timestamp)
           <= Z.abs (t0 + tau * estimated_block - target_timestamp)
              + 1023 * tau)
    /\ (Z.abs (t0 + tau * estimated_block - target_timestamp) <= 1840131 ->
        Z.abs (t0 + tau * estimated_block' - target_timestamp) <= 1800).
Proof.
  intros Htau Herr.
  destruct (refine_block_converges (regular_chain t0 tau) t0 tau
              ltac:(reflexivity) Htau target_timestamp 10 estimated_block Herr)
    as (est' & E & Hfinal).
  exists est'. split; [exact E|].
  change (2 ^ Z.of_nat 10) with 1024 in Hfinal.
  split; [lia|]. intros Hclose. lia.
Qed.

Lemma refine_block_converges_on_regular_chain_witness :
  exists estimated_block' : Z,
    Prices.refine_block (regular_chain 1700000000 2) 10 1700100000
      1000 (1700000000 + 2 * 1000)
    = Ok (estimated_block', 1700000000 + 2 * estimated_block')
    /\ (Z.abs (1700000000 + 2 * estimated_block' - 1700100000) <= 1800
        \/ 1024 * Z.abs (1700000000 + 2 * estimated_block' - 1700100000)
           <= Z.abs (1700000000 + 2 * 1000 - 1700100000) + 1023 * 2)
    /\ (Z.abs (1700000000 + 2 * 1000 - 1700100000) <= 1840131 ->
        Z.abs (1700000000 + 2 * estimated_block' - 1700100000) <= 1800).
Proof.
  apply (refine_block_converges_on_regular_chain 1700000000 2 1700100000 1000).
  - lia.
  - lia.
Defined.

(** X23 (collect_historical_data): whatever the node answers, when the
    call returns on co-indexed lists with non-decreasing timestamps, the
    lists are still co-indexed and non-decreasing; every sample that was
    stored is still stored; every sample added pairs a block with the
    timestamp the node reported for it, a timestamp [datetime] can
    represent and a finite price that is not negative; at most four
    samples are added per day looked back; and without a head block
    nothing changes. *)
Theorem collect_historical_data_invariants
    (getStorageAt : nat -> string -> string -> Z -> result (list byte))
    (getBlock : Z -> result Z) (head : option (Z * Z))
    (timestamps blocks : list Z) (prices : list Float64.pyfloat)
    (target_days : Z) (s' : list Z * list Z * list Float64.pyfloat) :
  length blocks = length timestamps ->
  length prices = length timestamps ->
  Sorted Z.le timestamps ->
  Prices.collect_historical_data getStorageAt getBlock head
    timestamps blocks prices target_days = Ok s' ->
  parallel s'
  /\ Sorted Z.le (timestamps_of s')
  /\ incl (rows_of (timestamps, blocks, prices)) (rows_of s')
  /\ (forall r, In r (rows_of s') ->
                In r (rows_of (timestamps, blocks, prices))
                \/ (getBlock (Prices.sample_block r)
                    = Ok (Prices.sample_timestamp r)
                    /\ in_datetime_range (Prices.sample_timestamp r)
                    /\ finite_price (Prices.sample_price r)))
  /\ (length (timestamps_of s')
      <= length timestamps + 4 * Z.to_nat target_days)%nat
  /\ (head = None -> s' = (timestamps, blocks, prices)).
Proof.
  intros Hb Hp Hs. unfold Prices.collect_historical_data.
  destruct head as [[current_block current_timestamp] |].
  - destruct (Prices.get_missing_timestamps timestamps current_timestamp
                target_days) as [missing |] eqn:Em; [|discriminate].
    cbn [bind]. intros H. inversion H; subst s'; clear H.
    destruct (collect_loop_inv getStorageAt getBlock current_block
                current_timestamp missing (timestamps, blocks, prices))
      as (Hpar & Hs' & Hincl & Hrows & Hlen).
    + unfold parallel, timestamps_of, blocks_of, prices_of. cbn [fst snd]. lia.
    + apply sorted_strongly, Hs.
    + split; [exact Hpar|]. split; [apply sorted_strongly, Hs'|].
      split; [exact Hincl|]. split; [exact Hrows|]. split; [|discriminate].
      apply get_missing_timestamps_length in Em.
      unfold timestamps_of at 2 in Hlen. cbn [fst] in Hlen. lia.
  - intros H. inversion H; subst s'; clear H.
    split; [unfold parallel, timestamps_of, blocks_of, prices_of;
            cbn [fst snd]; lia|].
    split; [exact Hs|]. split; [apply incl_refl|].
    split; [intros r Hin; left; exact Hin|].
    split; [unfold timestamps_of; cbn [fst]; lia | reflexivity].
Qed.

Lemma collect_historical_data_invariants_witness :
  exists s' : list Z * list Z * list Float64.pyfloat,
    Prices.collect_historical_data
      (steady_storage (x01 :: repeat x00 12) (x02 :: repeat x00 12))
      (regular_chain 1699800000 2) (Some (100000, 1700000000))
      [] [] [] 1 = Ok s'
    /\ timestamps_of s' = [1699920000; 1699941600; 1699963200; 1699984800]
    /\ blocks_of s' = [60000; 70800; 81600; 92400]
    /\ parallel s'
    /\ Sorted Z.le (timestamps_of s').
Proof.
  eexists. split; [vm_compute; reflexivity|].
  split; [reflexivity|]. split; [reflexivity|].
  pose proof (collect_historical_data_invariants
                (steady_storage (x01 :: repeat x00 12) (x02 :: repeat x00 12))
                (regular_chain 1699800000 2) (Some (100000, 1700000000))
                [] [] [] 1 _ eq_refl eq_refl (Sorted_nil Z.le) eq_refl) as H.
  split; [exact (proj1 H) | exact (proj1 (proj2 H))].
Defined.

(** * Back-filling on a chain with two seconds per block *)

Section RegularEstimate.

Import Float64 Prices.

Lemma exponent_double (k : Z) : 0 < k -> exponent (2 * k) k = 1.
Proof.
  intros Hk.
  destruct (exponent_between (2 * k) k 0 1) as [Hlo Hhi];
    [lia | lia | lia | lia
     | change (2 ^ 0) with 1; lia | change (2 ^ 1) with 2; lia |].
  destruct (Z.eq_dec (exponent (2 * k) k) 1) as [E | Hne]; [exact E|].
  assert (He : exponent (2 * k) k = 0) by lia.
  destruct (exponent_spec (2 * k) k 0) as [_ Hu]; [lia | lia | lia | lia |].
  rewrite He in Hu.
  change (2 ^ (0 + 0 + 1)) with 2 in Hu. change (2 ^ 0) with 1 in Hu. lia.
Qed.

Lemma int_true_div_double (k : Z) : 0 < k -> int_true_div (2 * k) k = Ok 2%Q.
Proof.
  intros Hk. rewrite int_true_div_pos by lia.
  unfold round_pos. rewrite (exponent_double k Hk).
  change (Z.max (1 - 52) (-1074)) with (-51).
  change (0 <=? -51) with false. cbv iota.
  change (- -51) with 51.
  replace (2 * k * 2 ^ 51) with (2 ^ 52 * k) by (change (2 ^ 52) with (2 * 2 ^ 51); ring).
  rewrite rne_div_exact by lia.
  vm_compute. reflexivity.
Qed.

Lemma estimate_regular (t0 target cb : Z) :
  Z.abs (t0 + 2 * cb - target) < 2 ^ 53 ->
  estimate_block_from_timestamp (regular_chain t0 2) target cb (t0 + 2 * cb)
  = Ok (Z.max 1 (cb - Z.quot (t0 + 2 * cb - target) 2)).
Proof.
  intros Herr. unfold estimate_block_from_timestamp.
  rewrite estimate_block_try_unfold. unfold regular_chain at 1.
  cbn [bind].
  set (r := Z.max 1 (cb - 43200)).
  assert (Hrate : seconds_per_block (t0 + 2 * cb - (t0 + 2 * r)) (cb - r)
                  = Ok 2%Q).
  { unfold seconds_per_block.
    destruct (Z.gtb_spec (cb - r) 0) as [Hpos | Hneg]; [|reflexivity].
    replace (t0 + 2 * cb - (t0 + 2 * r)) with (2 * (cb - r)) by ring.
    destruct (Z.gtb_spec (2 * (cb - r)) 0) as [Hpos2 | Hneg2]; [|lia].
    cbn [andb]. rewrite int_true_div_double by lia. cbn [bind].
    destruct (int_true_div_returns (2 * (cb - r)) 3600) as (v & ->);
      [|lia|reflexivity].
    split; [lia|]. apply Z.lt_trans with (2 ^ 20); [unfold r; lia|].
    apply Z.pow_lt_mono_r; lia. }
  rewrite Hrate. cbn [bind].
  rewrite blocks_between_two by exact Herr. reflexivity.
Qed.

Lemma refine_block_close (getBlock : Z -> result Z) (remaining : nat)
    (target est act : Z) :
  Z.abs (act - target) <= 1800 ->
  refine_block getBlock remaining target est act = Ok (est, act).
Proof.
  intros Hclose.
  destruct remaining; cbn [refine_block];
    (replace (Z.abs (act - target) >? 30 * 60) with false
       by (symmetry; rewrite Z.gtb_ltb; apply Z.ltb_ge; lia));
    reflexivity.
Qed.

Lemma near_anchor_target (a t : Z) :
  a mod 21600 = 0 -> a <= t <= a + 1 -> target_b t = true.
Proof.
  intros Hmod Ht.
  assert (Hcases : (t mod 86400 = 0 \/ t mod 86400 = 21600
                    \/ t mod 86400 = 43200 \/ t mod 86400 = 64800)
                   \/ (t mod 86400 = 1 \/ t mod 86400 = 21601
                       \/ t mod 86400 = 43201 \/ t mod 86400 = 64801))
    by (Z.div_mod_to_equations; lia).
  unfold target_b, TARGET_HOURS, in_window, seconds_since_anchor.
  cbn [existsb].
  destruct Hcases as [[E | [E | [E | E]]] | [E | [E | [E | E]]]];
    rewrite E; reflexivity.
Qed.

End RegularEstimate.

Section RegularChain.

Import Float64 Prices.

Variable getStorageAt : nat -> string -> string -> Z -> result (list byte).
Variables (t0 current_block : Z).

Hypothesis Hslot :
  forall block, exists p, fst (getSlot0 getStorageAt block) = Ok p.

Local Abbreviation current_timestamp := (t0 + 2 * current_block).
Local Abbreviation chain := (regular_chain t0 2).

Hypothesis Hhead : in_datetime_range current_timestamp.

Lemma collect_point_regular (timestamps blocks : list Z)
    (prices : list pyfloat) (a : Z) :
  t0 + 2 <= a <= current_timestamp ->
  in_datetime_range a -> in_datetime_range (a + 1) ->
  exists (act est : Z) (p : pyfloat),
    collect_point getStorageAt chain current_block current_timestamp
      timestamps blocks prices a
    = Ok (insert_historical_point timestamps blocks prices act est p)
    /\ a <= act <= a + 1.
Proof.
  intros Ha Hr Hr1. unfold collect_point.
  assert (Herr : Z.abs (current_timestamp - a) < 2 ^ 53).
  { unfold in_datetime_range, datetime_min, datetime_max in *.
    assert (2 ^ 53 = 9007199254740992) by reflexivity. lia. }
  rewrite (estimate_regular t0 a current_block Herr). cbn [bind].
  pose proof (Z.quot_rem' (current_timestamp - a) 2) as Hq.
  pose proof (Z.rem_bound_pos (current_timestamp - a) 2 ltac:(lia) ltac:(lia))
    as Hrem.
  set (q := Z.quot (current_timestamp - a) 2) in *.
  replace (Z.max 1 (current_block - q)) with (current_block - q) by lia.
  unfold regular_chain at 1. cbn [bind].
  set (act := t0 + 2 * (current_block - q)).
  assert (Hact : a <= act <= a + 1) by (unfold act; lia).
  rewrite refine_block_close by lia. cbn [bind].
  rewrite (utc_hour_minute_in_range a Hr). cbn [bind].
  assert (Hract : in_datetime_range act)
    by (unfold in_datetime_range in *; lia).
  rewrite (utc_hour_minute_in_range act Hract). cbn [bind].
  destruct (Hslot (current_block - q)) as (p & ->). cbn [bind].
  exists act, (current_block - q), p. split; [reflexivity | exact Hact].
Qed.

Lemma collect_loop_keeps (getBlock : Z -> result Z) (cb cts : Z)
    (missing : list Z) :
  forall (s : @store pyfloat) (t : Z),
    In t (timestamps_of s) ->
    In t (timestamps_of
            (collect_loop getStorageAt getBlock cb cts missing s)).
Proof.
  induction missing as [| a missing IH]; intros s t Hin; [exact Hin|].
  destruct s as [[timestamps blocks] prices]. cbn [collect_loop].
  apply IH.
  destruct (collect_point getStorageAt getBlock cb cts timestamps blocks
              prices a) as [s1 |] eqn:E; [|exact Hin].
  destruct (collect_point_inv _ _ _ _ _ _ _ _ _ E) as (t1 & b1 & p1 & -> & _).
  unfold insert_historical_point, timestamps_of. cbn [fst].
  apply list_insert_In. right. exact Hin.
Qed.

Lemma collect_loop_covers (missing : list Z) :
  forall (s : @store pyfloat) (a : Z),
    In a missing ->
    t0 + 2 <= a <= current_timestamp ->
    in_datetime_range a -> in_datetime_range (a + 1) ->
    exists t,
      In t (timestamps_of
              (collect_loop getStorageAt chain current_block
                 current_timestamp missing s))
      /\ a <= t <= a + 1.
Proof.
  induction missing as [| a0 missing IH]; intros s a Hin Ha Hr Hr1;
    [destruct Hin|].
  destruct s as [[timestamps blocks] prices]. cbn [collect_loop].
  destruct Hin as [<- | Hin].
  - destruct (collect_point_regular timestamps blocks prices a0 Ha Hr Hr1)
      as (act & est & p & -> & Hact).
    exists act. split; [|exact Hact].
    apply collect_loop_keeps.
    unfold insert_historical_point, timestamps_of. cbn [fst].
    apply list_insert_In. left. reflexivity.
  - apply IH; assumption.
Qed.

End RegularChain.

Section CloseTargets.

Import Prices.

Lemma close_target_dec (timestamps : list Z) (a : Z) :
  Forall in_datetime_range timestamps ->
  (forall e, In e timestamps -> is_target_time e 30 = Ok true ->
             1800 <= Z.abs (e - a))
  \/ (exists e, In e timestamps /\ is_target_time e 30 = Ok true
                /\ Z.abs (e - a) < 1800).
Proof.
  induction 1 as [| e timestamps He _ IH].
  - left. intros e [].
  - destruct IH as [Hfar | (e' & Hin & Ht & Hc)].
    2:{ right. exists e'. split; [right; exact Hin|]. split; assumption. }
    pose proof (is_target_time_in_range e He) as Ee.
    destruct (target_b e) eqn:Et.
    + destruct (Z.lt_ge_cases (Z.abs (e - a)) 1800) as [Hc | Hc].
      * right. exists e. split; [left; reflexivity|].
        split; [exact Ee | exact Hc].
      * left. intros e' [<- | Hin] Ht; [exact Hc | exact (Hfar e' Hin Ht)].
    + left. intros e' [<- | Hin] Ht; [|exact (Hfar e' Hin Ht)].
      rewrite Ee in Ht. discriminate.
Qed.

End CloseTargets.

(** X25 (estimate_block_from_timestamp, two-second chain): on a chain
    that reports the timestamp [t0 + 2 * b] for every block [b], and
    for a target less than [2 ** 53] seconds from the head, the
    estimate is the head minus the truncated half of the time
    difference, not below 1; for a target between the timestamp of block
    1 and that of the head, the estimated block is the one whose
    timestamp is the target or the second after it. *)
Theorem estimate_block_exact_on_two_second_chain
    (t0 target_timestamp current_block : Z) :
  let current_timestamp := t0 + 2 * current_block in
  Z.abs (current_timestamp - target_timestamp) < 2 ^ 53 ->
  exists estimated_block : Z,
    Prices.estimate_block_from_timestamp (regular_chain t0 2)
      target_timestamp current_block current_timestamp
    = Ok estimated_block
    /\ estimated_block
       = Z.max 1 (current_block
                  - Z.quot (current_timestamp - target_timestamp) 2)
    /\ (t0 + 2 <= target_timestamp <= current_timestamp ->
        regular_chain t0 2 estimated_block
        = Ok (target_timestamp
              + Z.rem (current_timestamp - target_timestamp) 2)
        /\ 0 <= Z.rem (current_timestamp - target_timestamp) 2 <= 1).
Proof.
  intros current_timestamp Herr.
  eexists. split; [apply estimate_regular; exact Herr|].
  split; [reflexivity|].
  intros Htarget.
  pose proof (Z.quot_rem' (current_timestamp - target_timestamp) 2) as Hq.
  pose proof (Z.rem_bound_pos (current_timestamp - target_timestamp) 2
                ltac:(lia) ltac:(lia)) as Hrem.
  split; [|lia].
  unfold regular_chain. f_equal. unfold current_timestamp in *. lia.
Qed.

Lemma estimate_block_exact_on_two_second_chain_witness :
  exists estimated_block : Z,
    Prices.estimate_block_from_timestamp (regular_chain 1699800000 2)
      1699963201 100000 (1699800000 + 2 * 100000)
    = Ok estimated_block
    /\ estimated_block
       = Z.max 1 (100000
                  - Z.quot (1699800000 + 2 * 100000 - 1699963201) 2)
    /\ (1699800000 + 2 <= 1699963201 <= 1699800000 + 2 * 100000 ->
        regular_chain 1699800000 2 estimated_block
        = Ok (1699963201
              + Z.rem (1699800000 + 2 * 100000 - 1699963201) 2)
        /\ 0 <= Z.rem (1699800000 + 2 * 100000 - 1699963201) 2 <= 1).
Proof.
  apply (estimate_block_exact_on_two_second_chain 1699800000 1699963201
           100000).
  cbn. lia.
Defined.

(** X24 (collect_historical_data, coverage): on a chain that reports the
    timestamp [t0 + 2 * b] for every block [b], with a head at
    [current_block] and pools that can be priced at every block, when
    the stored timestamps, the head's timestamp and the start of the
    look-back window are timestamps [datetime] can represent,
    back-filling returns, and afterwards every multiple of six hours in
    the look-back window that is not older than block 1 has a stored
    timestamp less than 30 minutes away that [is_target_time]
    accepts. *)
Theorem collect_historical_data_fills_anchors
    (getStorageAt : nat -> string -> string -> Z -> result (list byte))
    (t0 current_block : Z)
    (timestamps blocks : list Z) (prices : list Float64.pyfloat)
    (target_days : Z) :
  let current_timestamp := t0 + 2 * current_block in
  (forall block, exists p, fst (Prices.getSlot0 getStorageAt block) = Ok p) ->
  Forall in_datetime_range timestamps ->
  in_datetime_range current_timestamp ->
  in_datetime_range (current_timestamp - (target_days - 1) * 86400) ->
  1 <= target_days ->
  exists s' : list Z * list Z * list Float64.pyfloat,
    Prices.collect_historical_data getStorageAt (regular_chain t0 2)
      (Some (current_block, current_timestamp))
      timestamps blocks prices target_days = Ok s'
    /\ forall a : Z,
         a mod 21600 = 0 ->
         86400 * (current_timestamp / 86400) - 86400 * (target_days - 1) <= a
         < current_timestamp ->
         t0 + 2 <= a ->
         exists t : Z,
           In t (timestamps_of s')
           /\ Prices.is_target_time t 30 = Ok true
           /\ Z.abs (t - a) < 1800.
Proof.
  intros current_timestamp Hslot Hts Hcur Hold Hdays.
  destruct (missing_timestamps_char timestamps current_timestamp target_days
              Hts Hcur Hold Hdays) as (missing & Em & _ & Hchar).
  unfold Prices.collect_historical_data. rewrite Em. cbn [bind].
  eexists. split; [reflexivity|].
  assert (Hrange : forall a,
             86400 * (current_timestamp / 86400) - 86400 * (target_days - 1)
             <= a < current_timestamp ->
             in_datetime_range a /\ in_datetime_range (a + 1)).
  { intros a Hwin.
    unfold in_datetime_range, Prices.datetime_min, Prices.datetime_max in *.
    Z.div_mod_to_equations. lia. }
  intros a Hmod Hwin Hgen.
  destruct (close_target_dec timestamps a Hts) as [Hfar | (e & Hin & Ht & Hc)].
  - assert (Hmiss : In a missing).
    { apply Hchar. split; [exact Hmod|]. split; [exact Hwin | exact Hfar]. }
    destruct (Hrange a Hwin) as [Hra Hra1].
    destruct (collect_loop_covers getStorageAt t0 current_block Hslot Hcur
                missing (timestamps, blocks, prices) a Hmiss
                ltac:(fold current_timestamp; lia) Hra Hra1)
      as (t & Hin & Ht).
    exists t. split; [exact Hin|]. split; [|lia].
    rewrite is_target_time_in_range
      by (unfold in_datetime_range in *; lia).
    rewrite (near_anchor_target a t Hmod Ht). reflexivity.
  - exists e. split; [|split; assumption].
    apply collect_loop_keeps. exact Hin.
Qed.

Lemma collect_historical_data_fills_anchors_witness :
  exists s' : list Z * list Z * list Float64.pyfloat,
    Prices.collect_historical_data
      (steady_storage (x01 :: repeat x00 12) (x02 :: repeat x00 12))
      (regular_chain 1699800000 2)
      (Some (100000, 1699800000 + 2 * 100000)) [] [] [] 1 = Ok s'
    /\ forall a : Z,
         a mod 21600 = 0 ->
         86400 * ((1699800000 + 2 * 100000) / 86400) - 86400 * (1 - 1) <= a
         < 1699800000 + 2 * 100000 ->
         1699800000 + 2 <= a ->
         exists t : Z,
           In t (timestamps_of s')
           /\ Prices.is_target_time t 30 = Ok true
           /\ Z.abs (t - a) < 1800.
Proof.
  apply (collect_historical_data_fills_anchors
           (steady_storage (x01 :: repeat x00 12) (x02 :: repeat x00 12))
           1699800000 100000 [] [] [] 1).
  - intros block. eexists. vm_compute. reflexivity.
  - constructor.
  - unfold in_datetime_range, Prices.datetime_min, Prices.datetime_max. lia.
  - unfold in_datetime_range, Prices.datetime_min, Prices.datetime_max. lia.
  - lia.
Defined.

(** * Lists of unequal length *)

Section ShortLists.

Import Prices.

Context {price : Type}.

Local Abbreviation sample := (@sample price).
Local Abbreviation non_target_sample :=
  (fun s : sample => negb (is_target_sample s)).

Lemma zip3_longer (timestamps : list Z) :
  forall (blocks : list Z) (prices : list price),
    (length timestamps <= length blocks)%nat ->
    (length timestamps <= length prices)%nat ->
    exists rows : list sample,
      zip3 timestamps blocks prices = Some rows
      /\ rows = combine (combine timestamps blocks) prices
      /\ map sample_timestamp rows = timestamps.
Proof.
  induction timestamps as [| ts timestamps IH]; intros blocks prices Hb Hp.
  - exists []. destruct blocks, prices; repeat split; reflexivity.
  - destruct blocks as [| b blocks]; [cbn in Hb; lia|].
    destruct prices as [| p prices]; [cbn in Hp; lia|].
    destruct (IH blocks prices) as (rows & E & Ec & Em);
      [cbn in Hb; lia | cbn in Hp; lia |].
    exists ((ts, b, p) :: rows). cbn [zip3]. rewrite E. cbn [option_map].
    split; [reflexivity|]. split.
    + cbn [combine]. rewrite Ec. reflexivity.
    + cbn [map]. rewrite Em. reflexivity.
Qed.

Lemma partition_loop_short (rest : list Z) :
  Forall in_datetime_range rest ->
  forall (i : nat) (blocks : list Z) (prices : list price)
         (target_data non_target_data : list sample),
    (i <= length blocks)%nat -> (i <= length prices)%nat ->
    (length blocks < i + length rest)%nat
    \/ (length prices < i + length rest)%nat ->
    partition_loop rest i blocks prices target_data non_target_data
    = Raise IndexError.
Proof.
  induction 1 as [| ts rest Hts _ IH];
    intros i blocks prices target_data non_target_data Hib Hip Hshort.
  - cbn [length] in Hshort. lia.
  - cbn [partition_loop]. rewrite (is_target_time_in_range ts Hts).
    cbn [bind]. unfold getitem.
    destruct (nth_error blocks i) as [b |] eqn:Eb; [|reflexivity].
    cbn [of_option bind].
    destruct (nth_error prices i) as [p |] eqn:Ep; [|reflexivity].
    cbn [of_option bind].
    assert (Hi : (i < length blocks)%nat)
      by (apply nth_error_Some; congruence).
    assert (Hi' : (i < length prices)%nat)
      by (apply nth_error_Some; congruence).
    cbn [length] in Hshort.
    destruct (target_b ts); apply IH; lia.
Qed.

Lemma clean_long_lists (timestamps blocks : list Z) (prices : list price) :
  Forall in_datetime_range timestamps ->
  timestamps <> [] ->
  (length timestamps <= length blocks)%nat ->
  (length timestamps <= length prices)%nat ->
  clean_data_keep_targets_and_current timestamps blocks prices
  = Ok (columns (cleaned_rows (combine (combine timestamps blocks) prices))).
Proof.
  intros Hr Hne Hb Hp.
  destruct (zip3_longer timestamps blocks prices Hb Hp) as (rows & Ez & Ec & Em).
  rewrite <- Ec. unfold clean_data_keep_targets_and_current.
  destruct timestamps as [| t timestamps]; [contradiction|].
  rewrite (partition_loop_rows _ 0 _ _ [] [] rows)
    by (cbn [skipn]; assumption).
  cbn [app bind]. unfold cleaned_rows.
  destruct (rev (sort_by_timestamp (filter non_target_sample rows)));
    [reflexivity|].
  rewrite insert_row_columns. reflexivity.
Qed.

End ShortLists.

(** X26 (clean_data_keep_targets_and_current, lists of unequal length):
    on timestamps [datetime] can represent, an empty timestamp list is
    returned as it is together with whatever the other two lists hold;
    a [blocks] or [prices] list shorter than a non-empty timestamp list
    raises [IndexError]; and longer ones are cut to the length of the
    timestamps, the result being the cleaning of the first
    [len(timestamps)] rows. *)
Theorem clean_data_unequal_lengths {price : Type}
    (timestamps blocks : list Z) (prices : list price) :
  Forall in_datetime_range timestamps ->
  (timestamps = [] ->
   Prices.clean_data_keep_targets_and_current timestamps blocks prices
   = Ok ([], blocks, prices))
  /\ (timestamps <> [] ->
      (length blocks < length timestamps)%nat
      \/ (length prices < length timestamps)%nat ->
      Prices.clean_data_keep_targets_and_current timestamps blocks prices
      = Raise IndexError)
  /\ (timestamps <> [] ->
      (length timestamps <= length blocks)%nat ->
      (length timestamps <= length prices)%nat ->
      Prices.clean_data_keep_targets_and_current timestamps blocks prices
      = Ok (columns
              (cleaned_rows (combine (combine timestamps blocks) prices)))).
Proof.
  intros Hr. split; [|split].
  - intros ->. reflexivity.
  - intros Hne Hshort. unfold Prices.clean_data_keep_targets_and_current.
    destruct timestamps as [| t timestamps]; [contradiction|].
    rewrite partition_loop_short; [reflexivity | exact Hr | lia | lia |].
    cbn [Nat.add]. exact Hshort.
  - intros Hne Hb Hp. apply clean_long_lists; assumption.
Qed.

Lemma clean_data_unequal_lengths_witness :
  Prices.clean_data_keep_targets_and_current [0; 7200; 21600] [1; 2]
    [1%Q; 2%Q; 3%Q]
  = Raise IndexError.
Proof.
  apply (proj1 (proj2 (clean_data_unequal_lengths [0; 7200; 21600] [1; 2]
                         [1%Q; 2%Q; 3%Q]
                         ltac:(repeat constructor;
                               unfold Prices.datetime_min, Prices.datetime_max;
                               cbn; lia)))).
  - discriminate.
  - left. cbn. lia.
Defined.

(** * The one-off sampler script *)

Section SamplerPrice.

Import Float64 Prices.

Lemma between_pow2_Qinv (A B : Z) (x : Q) :
  0 <= A -> 0 <= B -> between_pow2 A B x -> between_pow2 B A (/ x).
Proof.
  intros HA HB Hx. destruct x as [n d].
  apply between_Z in Hx; [|lia|lia].
  assert (HpA : 0 < 2 ^ A) by (apply Z.pow_pos_nonneg; lia).
  destruct n as [| p | p]; try lia.
  change (/ (Z.pos p # d))%Q with (Z.pos d # p).
  apply between_Z; [lia | lia |]. lia.
Qed.

Lemma sampler_actual_price_value (price : Q) (packed2 : Z) :
  between_pow2 192 128 price ->
  exists v,
    Sampler.actual_price price packed2 = Ok (Num (Finite v))
    /\ (packed2 mod 2 ^ 160 = 0 -> v = 0%Q)
    /\ (packed2 mod 2 ^ 160 <> 0 -> between_pow2 320 360 v).
Proof.
  intros Hprice. unfold Sampler.actual_price.
  rewrite unpack_slot0_fields.
  set (sq := packed2 mod 2 ^ 160).
  assert (Hsq : 0 <= sq < 2 ^ 160) by (apply Z.mod_pos_bound; lia).
  rewrite (float_of_int_exact (10 ^ 12)) by (cbn; lia).
  rewrite (float_of_int_exact 1) by (cbn; lia).
  pose proof (between_pow2_pos _ _ _ Hprice) as Hpos.
  assert (Enz : Qeq_bool price 0 = false).
  { destruct (Qeq_bool price 0) eqn:Ez; [|reflexivity].
    apply Qeq_bool_eq in Ez. rewrite Ez in Hpos.
    exfalso. exact (Qlt_irrefl 0 Hpos). }
  destruct (Z.eq_dec sq 0) as [E0 | Hnz].
  - rewrite E0, price_zero. cbn [bind]. cbv zeta.
    rewrite round_zero_l. unfold float_mul. rewrite round_zero_l.
    unfold pyfloat_div. rewrite Enz.
    change (0 / price)%Q with (0 * / price)%Q. rewrite round_zero_l.
    exists 0%Q. split; [reflexivity|]. split; [reflexivity | contradiction].
  - destruct (price_between sq ltac:(lia)) as (p & Ep & Hp).
    rewrite Ep. cbn [bind]. cbv zeta.
    destruct (round_between 192 168 (p * inject_Z (10 ^ 12)))
      as (price2 & E2 & Hprice2); [lia | lia | |].
    { apply (between_pow2_mul 192 128 0 40); try lia; [exact Hp|].
      apply between_pow2_int; [lia|]. split; [cbn; lia|].
      vm_compute. discriminate. }
    rewrite E2. unfold float_mul.
    destruct (round_between 192 168 (price2 * inject_Z 1))
      as (numerator & E3 & Hnum); [lia | lia | |].
    { apply (between_pow2_mul 192 168 0 0); try lia; [exact Hprice2|].
      apply between_pow2_int; [lia|]. cbn. lia. }
    rewrite E3. unfold pyfloat_div. rewrite Enz.
    destruct (round_between 320 360 (numerator / price))
      as (v & Ev & Hv); [lia | lia | |].
    { apply (between_pow2_mul 192 168 128 192); try lia; [exact Hnum|].
      apply between_pow2_Qinv; [lia | lia | exact Hprice]. }
    rewrite Ev. exists v. split; [reflexivity|].
    split; [contradiction | intros _; exact Hv].
Qed.

Lemma sampler_actual_price_zero (packed2 : Z) :
  Sampler.actual_price 0 packed2 = Raise ZeroDivisionError.
Proof.
  unfold Sampler.actual_price. rewrite unpack_slot0_fields.
  destruct (price_returns (packed2 mod 2 ^ 160)) as (p & ->);
    [apply Z.mod_pos_bound; lia|].
  cbn [bind].
  rewrite (float_of_int_exact (10 ^ 12)) by (cbn; lia).
  rewrite (float_of_int_exact 1) by (cbn; lia).
  reflexivity.
Qed.

Variable getStorageAt : nat -> string -> string -> Z -> result (list byte).

Lemma sampler_getSlot0_unfold (block packed1 : Z) (trace1 : list effect) :
  get_storage_with_retry getStorageAt pool_manager bwork_weth_slot block 5 2
  = (Ok packed1, trace1) ->
  forall price : Q,
    sqrtPriceX96_to_price (packed1 mod 2 ^ 160) = Ok price ->
    Sampler.getSlot0 getStorageAt block
    = (packed2 <-
         fst (get_storage_with_retry getStorageAt pool_manager weth_usd_slot
                block 5 2) ;;
       Sampler.actual_price price packed2,
       trace1
       ++ snd (get_storage_with_retry getStorageAt pool_manager weth_usd_slot
                 block 5 2)).
Proof.
  intros E1 price Eprice. unfold Sampler.getSlot0. rewrite E1.
  rewrite unpack_slot0_fields, Eprice.
  destruct (get_storage_with_retry getStorageAt pool_manager weth_usd_slot
              block 5 2) as [packed2 trace2].
  reflexivity.
Qed.

Lemma sampler_getSlot0_ok_finite (block : Z) (x : pyfloat) :
  fst (Sampler.getSlot0 getStorageAt block) = Ok x -> finite_price x.
Proof.
  destruct (get_storage_with_retry getStorageAt pool_manager bwork_weth_slot
              block 5 2) as [[packed1 | e] trace1] eqn:E1.
  2:{ unfold Sampler.getSlot0. rewrite E1. discriminate. }
  destruct (get_storage_with_retry getStorageAt pool_manager weth_usd_slot
              block 5 2) as [[packed2 | e] trace2] eqn:E2.
  2:{ destruct (price_returns (packed1 mod 2 ^ 160)) as (price & Eprice);
        [apply Z.mod_pos_bound; lia|].
      rewrite (sampler_getSlot0_unfold block packed1 trace1 E1 price Eprice).
      rewrite E2. discriminate. }
  destruct (Z.eq_dec (packed1 mod 2 ^ 160) 0) as [Hz | Hnz].
  - rewrite (sampler_getSlot0_unfold block packed1 trace1 E1 0%Q)
      by (rewrite Hz; apply price_zero).
    rewrite E2. cbn [fst snd bind]. rewrite sampler_actual_price_zero.
    discriminate.
  - destruct (price_between (packed1 mod 2 ^ 160)) as (price & Eprice & Hprice).
    { pose proof (Z.mod_pos_bound packed1 (2 ^ 160) ltac:(lia)). lia. }
    rewrite (sampler_getSlot0_unfold block packed1 trace1 E1 price Eprice).
    rewrite E2. cbn [fst snd bind].
    destruct (sampler_actual_price_value price packed2 Hprice)
      as (v & Ev & Hv0 & Hv).
    rewrite Ev. intros H. inversion H; subst x. exists v.
    split; [reflexivity|].
    destruct (Z.eq_dec (packed2 mod 2 ^ 160) 0) as [Hz2 | Hnz2].
    + rewrite (Hv0 Hz2). apply Qle_refl.
    + apply Qlt_le_weak. exact (between_pow2_pos _ _ _ (Hv Hnz2)).
Qed.

Variable getBlock : Z -> result Z.
Variables (start step max_iter : Z).

Hypothesis Hslot :
  forall block, exists p, fst (Sampler.getSlot0 getStorageAt block) = Ok p.
Hypothesis Hblock : forall block, exists t, getBlock block = Ok t.

Lemma sample_loop_S (fuel : nat) (x : Z) (acc : Sampler.samples) :
  Sampler.sample_loop (S fuel) getStorageAt getBlock start step max_iter x acc
  = match fst (Sampler.getSlot0 getStorageAt (start - step * x)) with
    | Raise e => Some (Raise e)
    | Ok price =>
        match getBlock (start - step * x) with
        | Raise e => Some (Raise e)
        | Ok timestamp =>
            if x + 1 >? max_iter then
              Some (Ok {| Sampler.ArrayOfActualPrices :=
                            Sampler.ArrayOfActualPrices acc ++ [price];
                          Sampler.ArrayOfBlocksSearched :=
                            Sampler.ArrayOfBlocksSearched acc
                            ++ [start - step * x];
                          Sampler.ArrayOfTimestamps :=
                            Sampler.ArrayOfTimestamps acc ++ [timestamp] |})
            else
              Sampler.sample_loop fuel getStorageAt getBlock start step
                max_iter (x + 1)
                {| Sampler.ArrayOfActualPrices :=
                     Sampler.ArrayOfActualPrices acc ++ [price];
                   Sampler.ArrayOfBlocksSearched :=
                     Sampler.ArrayOfBlocksSearched acc ++ [start - step * x];
                   Sampler.ArrayOfTimestamps :=
                     Sampler.ArrayOfTimestamps acc ++ [timestamp] |}
        end
    end.
Proof.
  reflexivity.
Qed.

Lemma sample_loop_run (n : nat) :
  forall (x : Z) (acc : Sampler.samples),
    x + Z.of_nat n = Z.max x max_iter ->
    exists (prices : list pyfloat) (timestamps : list Z),
      Sampler.sample_loop (S n) getStorageAt getBlock start step max_iter x acc
      = Some (Ok {| Sampler.ArrayOfActualPrices :=
                      Sampler.ArrayOfActualPrices acc ++ prices;
                    Sampler.ArrayOfBlocksSearched :=
                      Sampler.ArrayOfBlocksSearched acc
                      ++ map (fun i => start - step * (x + Z.of_nat i))
                           (seq 0 (S n));
                    Sampler.ArrayOfTimestamps :=
                      Sampler.ArrayOfTimestamps acc ++ timestamps |})
      /\ length prices = S n
      /\ Forall finite_price prices
      /\ map Ok timestamps
         = map (fun i => getBlock (start - step * (x + Z.of_nat i)))
             (seq 0 (S n)).
Proof.
  induction n as [| n IH]; intros x acc Hx.
  - rewrite sample_loop_S.
    destruct (Hslot (start - step * x)) as (p & Ep). rewrite Ep.
    destruct (Hblock (start - step * x)) as (t & Et). rewrite Et.
    replace (x + 1 >? max_iter) with true
      by (symmetry; rewrite Z.gtb_ltb; apply Z.ltb_lt; lia).
    exists [p], [t]. cbn [seq map length].
    rewrite Z.add_0_r, Et.
    split; [reflexivity|]. split; [reflexivity|].
    split; [|reflexivity].
    constructor; [|constructor].
    exact (sampler_getSlot0_ok_finite _ _ Ep).
  - rewrite sample_loop_S.
    destruct (Hslot (start - step * x)) as (p & Ep). rewrite Ep.
    destruct (Hblock (start - step * x)) as (t & Et). rewrite Et.
    replace (x + 1 >? max_iter) with false
      by (symmetry; rewrite Z.gtb_ltb; apply Z.ltb_ge; lia).
    destruct (IH (x + 1)
                {| Sampler.ArrayOfActualPrices :=
                     Sampler.ArrayOfActualPrices acc ++ [p];
                   Sampler.ArrayOfBlocksSearched :=
                     Sampler.ArrayOfBlocksSearched acc ++ [start - step * x];
                   Sampler.ArrayOfTimestamps :=
                     Sampler.ArrayOfTimestamps acc ++ [t] |})
      as (prices & timestamps & E & Hlen & Hfin & Hts); [lia|].
    exists (p :: prices), (t :: timestamps).
    rewrite E. cbn [Sampler.ArrayOfActualPrices Sampler.ArrayOfBlocksSearched
                    Sampler.ArrayOfTimestamps].
    rewrite <- !app_assoc. cbn [app].
    assert (Hshift : forall (B : Type) (f : Z -> B),
               map (fun i => f (x + 1 + Z.of_nat i)) (seq 0 (S n))
               = map (fun i => f (x + Z.of_nat i)) (seq 1 (S n))).
    { intros B f. rewrite <- (seq_shift (S n) 0), map_map.
      apply map_ext. intros i. f_equal. lia. }
    split; [|split; [|split]].
    + do 2 f_equal. f_equal.
      rewrite (Hshift Z (fun z => start - step * z)).
      cbn [seq map]. rewrite Z.add_0_r. reflexivity.
    + cbn [length]. lia.
    + constructor; [exact (sampler_getSlot0_ok_finite _ _ Ep) | exact Hfin].
    + cbn [map]. rewrite Hts.
      rewrite (Hshift _ (fun z => getBlock (start - step * z))).
      cbn [seq map]. rewrite Z.add_0_r, Et. reflexivity.
Qed.

End SamplerPrice.

(** X27 (getSlot0 of findPricesAndTimestamps.py, the value): when both
    pools are read, the call raises [ZeroDivisionError] exactly when the
    price field of the BWORK/WETH word is 0; otherwise [price2 * 1/price]
    is a finite float, never [inf] or [nan], which is 0 when the price
    field of the WETH/USD word is 0 and positive when it is not. *)
Theorem sampler_getSlot0_finite_price
    (getStorageAt : nat -> string -> string -> Z -> result (list byte))
    (block packed1 packed2 : Z) (trace1 trace2 : list effect) :
  Prices.get_storage_with_retry getStorageAt Prices.pool_manager
    Prices.bwork_weth_slot block 5 2 = (Ok packed1, trace1) ->
  Prices.get_storage_with_retry getStorageAt Prices.pool_manager
    Prices.weth_usd_slot block 5 2 = (Ok packed2, trace2) ->
  (packed1 mod 2 ^ 160 = 0 ->
   Sampler.getSlot0 getStorageAt block
   = (Raise ZeroDivisionError, trace1 ++ trace2))
  /\ (packed1 mod 2 ^ 160 <> 0 ->
      exists v : Q,
        Sampler.getSlot0 getStorageAt block
        = (Ok (Float64.Num (Float64.Finite v)), trace1 ++ trace2)
        /\ (packed2 mod 2 ^ 160 = 0 -> v = 0%Q)
        /\ (packed2 mod 2 ^ 160 <> 0 -> (0 < v)%Q)).
Proof.
  intros E1 E2. split.
  - intros Hz.
    rewrite (sampler_getSlot0_unfold getStorageAt block packed1 trace1 E1 0%Q)
      by (rewrite Hz; apply price_zero).
    rewrite E2. cbn [fst snd bind]. rewrite sampler_actual_price_zero.
    reflexivity.
  - intros Hnz.
    destruct (price_between (packed1 mod 2 ^ 160)) as (price & Eprice & Hprice).
    { pose proof (Z.mod_pos_bound packed1 (2 ^ 160) ltac:(lia)). lia. }
    rewrite (sampler_getSlot0_unfold getStorageAt block packed1 trace1 E1
               price Eprice).
    rewrite E2. cbn [fst snd bind].
    destruct (sampler_actual_price_value price packed2 Hprice)
      as (v & Ev & Hv0 & Hv).
    exists v. rewrite Ev. split; [reflexivity|]. split; [exact Hv0|].
    intros Hnz2. exact (between_pow2_pos _ _ _ (Hv Hnz2)).
Qed.

Lemma sampler_getSlot0_finite_price_witness :
  exists v : Q,
    Sampler.getSlot0
      (steady_storage (x01 :: repeat x00 12) (x02 :: repeat x00 12)) 7
    = (Ok (Float64.Num (Float64.Finite v)),
       [GetStorageAt Prices.pool_manager Prices.bwork_weth_slot 7]
       ++ [GetStorageAt Prices.pool_manager Prices.weth_usd_slot 7])
    /\ (2 ^ 97 mod 2 ^ 160 = 0 -> v = 0%Q)
    /\ (2 ^ 97 mod 2 ^ 160 <> 0 -> (0 < v)%Q).
Proof.
  apply (sampler_getSlot0_finite_price
           (steady_storage (x01 :: repeat x00 12) (x02 :: repeat x00 12))
           7 (2 ^ 96) (2 ^ 97)).
  - vm_compute. reflexivity.
  - vm_compute. reflexivity.
  - vm_compute. discriminate.
Defined.

(** X28 (main block of findPricesAndTimestamps.py): with a node that
    answers every read, the loop that counts [x] up from 0 and stops once
    [x > max_iterations] takes [max_iterations + 1] samples, not
    [max_iterations]: the blocks searched are [startBlock -
    blocksPer30Min * i] for [i] from 0 to [max_iterations] in that order,
    each with a finite price that is not negative and the timestamp the
    node reports for it; with the constants of the script that is 1441
    samples from block 34582182 down in steps of 900. *)
Theorem sampler_main_takes_one_more_sample
    (getStorageAt : nat -> string -> string -> Z -> result (list byte))
    (getBlock : Z -> result Z) (start step max_iter : Z) :
  (forall block, exists p, fst (Sampler.getSlot0 getStorageAt block) = Ok p) ->
  (forall block, exists t, getBlock block = Ok t) ->
  0 <= max_iter ->
  (exists s : Sampler.samples,
      Sampler.sample_loop (S (Z.to_nat max_iter)) getStorageAt getBlock
        start step max_iter 0
        {| Sampler.ArrayOfActualPrices := [];
           Sampler.ArrayOfBlocksSearched := [];
           Sampler.ArrayOfTimestamps := [] |}
      = Some (Ok s)
      /\ Sampler.ArrayOfBlocksSearched s
         = map (fun i => start - step * Z.of_nat i)
             (seq 0 (S (Z.to_nat max_iter)))
      /\ length (Sampler.ArrayOfActualPrices s) = S (Z.to_nat max_iter)
      /\ Forall finite_price (Sampler.ArrayOfActualPrices s)
      /\ map Ok (Sampler.ArrayOfTimestamps s)
         = map getBlock (Sampler.ArrayOfBlocksSearched s))
  /\ (exists s : Sampler.samples,
         Sampler.main 1441 getStorageAt getBlock = Some (Ok s)
         /\ Sampler.ArrayOfBlocksSearched s
            = map (fun i => 34582182 - 900 * Z.of_nat i) (seq 0 1441)
         /\ length (Sampler.ArrayOfActualPrices s) = 1441%nat
         /\ length (Sampler.ArrayOfTimestamps s) = 1441%nat).
Proof.
  intros Hslot Hblock Hmax.
  assert (Hrun : forall start' step' max',
             0 <= max' ->
             exists s : Sampler.samples,
               Sampler.sample_loop (S (Z.to_nat max')) getStorageAt getBlock
                 start' step' max' 0
                 {| Sampler.ArrayOfActualPrices := [];
                    Sampler.ArrayOfBlocksSearched := [];
                    Sampler.ArrayOfTimestamps := [] |}
               = Some (Ok s)
               /\ Sampler.ArrayOfBlocksSearched s
                  = map (fun i => start' - step' * Z.of_nat i)
                      (seq 0 (S (Z.to_nat max')))
               /\ length (Sampler.ArrayOfActualPrices s) = S (Z.to_nat max')
               /\ Forall finite_price (Sampler.ArrayOfActualPrices s)
               /\ map Ok (Sampler.ArrayOfTimestamps s)
                  = map getBlock (Sampler.ArrayOfBlocksSearched s)).
  { intros start' step' max' Hmax'.
    destruct (sample_loop_run getStorageAt getBlock start' step' max'
                Hslot Hblock (Z.to_nat max') 0
                {| Sampler.ArrayOfActualPrices := [];
                   Sampler.ArrayOfBlocksSearched := [];
                   Sampler.ArrayOfTimestamps := [] |} ltac:(lia))
      as (prices & timestamps & E & Hlen & Hfin & Hts).
    eexists. split; [exact E|].
    cbn [Sampler.ArrayOfActualPrices Sampler.ArrayOfBlocksSearched
         Sampler.ArrayOfTimestamps app].
    split; [apply map_ext; intros i; f_equal|].
    split; [exact Hlen|]. split; [exact Hfin|].
    rewrite Hts, map_map. apply map_ext. intros i. reflexivity. }
  split; [apply Hrun, Hmax|].
  destruct (Hrun Sampler.startBlock Sampler.blocksPer30Min
              Sampler.max_iterations ltac:(unfold Sampler.max_iterations; lia))
    as (s & E & Hblocks & Hlen & _ & Hts).
  exists s. split; [exact E|]. split; [exact Hblocks|].
  split; [exact Hlen|].
  apply (f_equal (@length _)) in Hts. rewrite !length_map in Hts.
  rewrite Hts, Hblocks, length_map, length_seq. reflexivity.
Qed.

Lemma sampler_main_takes_one_more_sample_witness :
  exists s : Sampler.samples,
    Sampler.sample_loop 3
      (steady_storage (x01 :: repeat x00 12) (x02 :: repeat x00 12))
      (regular_chain 1699800000 2) 1000 10 2 0
      {| Sampler.ArrayOfActualPrices := [];
         Sampler.ArrayOfBlocksSearched := [];
         Sampler.ArrayOfTimestamps := [] |}
    = Some (Ok s)
    /\ Sampler.ArrayOfBlocksSearched s = [1000; 990; 980]
    /\ length (Sampler.ArrayOfActualPrices s) = 3%nat
    /\ Forall finite_price (Sampler.ArrayOfActualPrices s)
    /\ map Ok (Sampler.ArrayOfTimestamps s)
       = map (regular_chain 1699800000 2) (Sampler.ArrayOfBlocksSearched s).
Proof.
  apply (proj1 (sampler_main_takes_one_more_sample
                  (steady_storage (x01 :: repeat x00 12)
                     (x02 :: repeat x00 12))
                  (regular_chain 1699800000 2) 1000 10 2
                  ltac:(intros block; eexists; vm_compute; reflexivity)
                  ltac:(intros block; eexists; reflexivity)
                  ltac:(lia))).
Defined.
